(** * RLUSD node: amount conversion, payload building, submission outcome,
      order book, connection handling and event triggers.

    A shallow embedding of the TypeScript sources
      - nodes/Rlusd/utils/amountUtils.ts   (dropsToXrp, xrpToDrops, weiToEth, ethToWei)
      - nodes/Rlusd/utils/paymentUtils.ts  (validateDestinationTag)
      - nodes/Rlusd/transport/xrplClient.ts and ethereumClient.ts
      - nodes/Rlusd/RlusdTrigger.node.ts and Rlusd.node.ts (transfer call sites)

    JavaScript [number]s are IEEE-754 binary64 values; they are modelled by the
    standard library's [spec_float] at precision 53, so every arithmetic step
    rounds exactly where the running program rounds. *)

From stdpp Require Import base gmap strings.
From Stdlib Require Import ZArith List String Ascii Bool Lia QArith.
From Stdlib Require Import Floats.SpecFloat Numbers.DecimalString Numbers.DecimalZ.
Import ListNotations.

Local Open Scope string_scope.
Local Open Scope Z_scope.

(** ** The JavaScript runtime pieces the sources rely on *)

Module JS.

(** *** Numbers *)

Definition number := spec_float.

Definition prec : Z := 53.
Definition emax : Z := 1024.

Definition NaN : number := S754_nan.
Definition pos_zero : number := S754_zero false.

(** A numeric literal with an integral value, and [Number(bigint)]. *)
Definition of_Z (z : Z) : number := binary_normalize prec emax z 0 false.

Definition mul (x y : number) : number := SFmul prec emax x y.
Definition div (x y : number) : number := SFdiv prec emax x y.

(** [x <= y] and [x >= y]; both are false as soon as one side is NaN. *)
Definition le (x y : number) : bool := SFleb x y.
Definition ge (x y : number) : bool := SFleb y x.
Definition strict_eq (x y : number) : bool := SFeqb x y.

(** Structural equality of two representations. *)
Definition same (x y : number) : bool :=
  match x, y with
  | S754_zero a, S754_zero b => Bool.eqb a b
  | S754_infinity a, S754_infinity b => Bool.eqb a b
  | S754_nan, S754_nan => true
  | S754_finite a m e, S754_finite b m' e' =>
      Bool.eqb a b && Pos.eqb m m' && Z.eqb e e'
  | _, _ => false
  end.

Definition isNaN (x : number) : bool :=
  match x with S754_nan => true | _ => false end.

Definition isFinite (x : number) : bool :=
  match x with S754_nan | S754_infinity _ => false | _ => true end.

(** ToBoolean on a number: [0], [-0] and [NaN] are falsy. *)
Definition truthy (x : number) : bool :=
  match x with S754_zero _ | S754_nan => false | _ => true end.

(** The exact value of a finite number, as a signed numerator over a
    positive power of two. *)
Definition signed (s : bool) (m : positive) : Z := if s then Zneg m else Zpos m.

Definition exact (x : number) : option (Z * Z) :=
  match x with
  | S754_zero _ => Some (0, 1)
  | S754_finite s m e =>
      if 0 <=? e then Some (signed s m * 2 ^ e, 1) else Some (signed s m, 2 ^ (- e))
  | _ => None
  end.

(** The same value as a rational. *)
Definition value (x : number) : option Q :=
  match exact x with
  | Some (p, q) => Some (Qmake p (Z.to_pos q))
  | None => None
  end.

(** The greatest integer below a finite number. *)
Definition floorZ (x : number) : option Z :=
  match exact x with
  | Some (p, q) => Some (p / q)
  | None => None
  end.

(** [Math.floor]: NaN, the infinities and both zeros are returned as they
    are; a positive fraction floors to [+0]. *)
Definition Math_floor (x : number) : number :=
  match x with
  | S754_finite _ _ _ =>
      match floorZ x with
      | Some z => of_Z z
      | None => x
      end
  | _ => x
  end.

(** [Number.isInteger]. *)
Definition Number_isInteger (x : number) : bool :=
  match exact x with
  | Some (p, q) => p mod q =? 0
  | None => false
  end.

(** The number nearest to the rational [p / q] ([0 < p], [0 < q]), ties to
    even, with sign [neg]: the division step of binary64 applied to the two
    integers. *)
Definition round_ratio (neg : bool) (p q : Z) : number :=
  let '(mz, ez, lz) := SFdiv_core_binary prec emax p 0 q 0 in
  binary_round_aux prec emax neg mz ez lz.

(** The number nearest to [m * 10 ^ e] for a non-negative integer [m]. *)
Definition round_decimal (neg : bool) (m e : Z) : number :=
  if m =? 0 then S754_zero neg
  else if 0 <=? e then round_ratio neg (m * 10 ^ e) 1
  else round_ratio neg m (10 ^ (- e)).

(** *** Strings and numbers *)

Definition is_digit (c : ascii) : bool :=
  let n := Z.of_nat (nat_of_ascii c) in (48 <=? n) && (n <=? 57).

Definition digit_value (c : ascii) : Z := Z.of_nat (nat_of_ascii c) - 48.

(** StrWhiteSpaceChar, on the ASCII range: tab, line feed, vertical tab,
    form feed, carriage return and space. *)
Definition is_space (c : ascii) : bool :=
  let n := Z.of_nat (nat_of_ascii c) in ((9 <=? n) && (n <=? 13)) || (n =? 32).

Fixpoint trim_start (s : string) : string :=
  match s with
  | String c r => if is_space c then trim_start r else s
  | EmptyString => s
  end.

(** Reads the longest run of decimal digits at the head of [s] on top of the
    value [acc]: the value read, the number of digits and the rest. *)
Fixpoint read_digits (s : string) (acc cnt : Z) : Z * Z * string :=
  match s with
  | String c r =>
      if is_digit c then read_digits r (10 * acc + digit_value c) (cnt + 1)
      else (acc, cnt, s)
  | EmptyString => (acc, cnt, s)
  end.

(** ExponentPart of a StrDecimalLiteral: [e] or [E], an optional sign and at
    least one digit; anything else is not part of the literal. *)
Definition read_exponent (s : string) : Z :=
  match s with
  | String c r =>
      if (Ascii.eqb c "e" || Ascii.eqb c "E")%bool then
        let '(neg, r') :=
          match r with
          | String "-" t => (true, t)
          | String "+" t => (false, t)
          | _ => (false, r)
          end in
        let '(v, n, _) := read_digits r' 0 0 in
        if n =? 0 then 0 else if neg then - v else v
      else 0
  | EmptyString => 0
  end.

(** [parseFloat]: leading white space is skipped, the longest prefix that is
    a StrDecimalLiteral is read and its mathematical value is rounded to the
    nearest number; without such a prefix the result is NaN. *)
Definition parseFloat (input : string) : number :=
  let s := trim_start input in
  let '(neg, s0) :=
    match s with
    | String "-" r => (true, r)
    | String "+" r => (false, r)
    | _ => (false, s)
    end in
  if String.prefix "Infinity" s0 then S754_infinity neg
  else
    let '(ip, ic, s1) := read_digits s0 0 0 in
    let '(m, fc, s2) :=
      match s1 with
      | String "." r =>
          let '(m, fc, s2) := read_digits r ip 0 in
          if (ic =? 0) && (fc =? 0) then (ip, 0, s1) else (m, fc, s2)
      | _ => (ip, 0, s1)
      end in
    if ic + fc =? 0 then NaN
    else round_decimal neg m (read_exponent s2 - fc).

(** Decimal digits of an integer, as [BigInt.prototype.toString] prints
    them. *)
Definition Z_to_string (z : Z) : string := NilZero.string_of_int (Z.to_int z).

Fixpoint zeros (n : nat) : string :=
  match n with O => "" | S k => String "0" (zeros k) end.

(** The [n] with [10 ^ (n - 1) <= p / q < 10 ^ n], for [0 < p] and [0 < q]. *)
Fixpoint scale_up (fuel : nat) (p q : Z) (j : Z) : Z :=
  match fuel with
  | O => j
  | S f => if q <=? p then j else scale_up f (10 * p) q (j + 1)
  end.

Definition decimal_exponent (p q : Z) : Z :=
  if q <=? p then Z.of_nat (String.length (Z_to_string (p / q)))
  else 1 - scale_up 400 (10 * p) q 1.

(** [floor (p / q * 10 ^ j)] and whether the fraction cut off is below,
    at or above one half. *)
Definition scaled_floor (p q j : Z) : Z * comparison :=
  let '(a, b) := if 0 <=? j then (p * 10 ^ j, q) else (p, q * 10 ^ (- j)) in
  (a / b, (2 * (a mod b) ?= b)).

(** The digits of a positive finite [x = p / q]: the least [k] and the
    integer [s] of [k] digits, with its exponent [n], such that
    [s * 10 ^ (n - k)] rounds to [x]; of two such [s] the one nearest to [x],
    the even one on a tie. *)
Fixpoint shortest_digits (fuel : nat) (x : number) (p q n k : Z)
  : Z * Z * Z :=
  let '(lo, half) := scaled_floor p q (k - n) in
  let hi := lo + 1 in
  let lo_ok := same (round_decimal false lo (n - k)) x in
  let hi_ok := same (round_decimal false hi (n - k)) x in
  let pick_hi := if hi =? 10 ^ k then (10 ^ (k - 1), k, n + 1) else (hi, k, n) in
  let pick_lo := (lo, k, n) in
  match lo_ok, hi_ok with
  | true, true =>
      match half with
      | Lt => pick_lo
      | Gt => pick_hi
      | Eq => if Z.even lo then pick_lo else pick_hi
      end
  | true, false => pick_lo
  | false, true => pick_hi
  | false, false =>
      match fuel with
      | O => pick_lo
      | S f => shortest_digits f x p q n (k + 1)
      end
  end.

(** Drops the zeros at the end of the digit string of [s], keeping [n]. *)
Fixpoint strip_zeros (fuel : nat) (s k : Z) : Z * Z :=
  match fuel with
  | O => (s, k)
  | S f => if (1 <? k) && (s mod 10 =? 0) then strip_zeros f (s / 10) (k - 1) else (s, k)
  end.

(** Number::toString in radix 10. *)
Definition Number_toString (x : number) : string :=
  match x with
  | S754_nan => "NaN"
  | S754_zero _ => "0"
  | S754_infinity s => if s then "-Infinity" else "Infinity"
  | S754_finite sg m e =>
      let '(p, q) := if 0 <=? e then (Zpos m * 2 ^ e, 1) else (Zpos m, 2 ^ (- e)) in
      let n0 := decimal_exponent p q in
      let '(s0, k0, n) := shortest_digits 20 (S754_finite false m e) p q n0 1 in
      let '(s, k) := strip_zeros 20 s0 k0 in
      let ds := Z_to_string s in
      let body :=
        if (k <=? n) && (n <=? 21) then ds ++ zeros (Z.to_nat (n - k))
        else if (0 <? n) && (n <=? 21) then
          substring 0 (Z.to_nat n) ds ++ "." ++
          substring (Z.to_nat n) (Z.to_nat (k - n)) ds
        else if (-6 <? n) && (n <=? 0) then "0." ++ zeros (Z.to_nat (- n)) ++ ds
        else
          let ex := (if 0 <=? n - 1 then "+" else "-") ++ Z_to_string (Z.abs (n - 1)) in
          if k =? 1 then ds ++ "e" ++ ex
          else substring 0 1 ds ++ "." ++ substring 1 (Z.to_nat (k - 1)) ds ++ "e" ++ ex
      in
      if sg then "-" ++ body else body
  end.

(** *** BigInt *)

Inductive error := SyntaxError | RangeError | Error (msg : string).

Inductive result (A : Type) := Ok (a : A) | Throw (e : error).
Arguments Ok {A} a.
Arguments Throw {A} e.

Fixpoint all_digits (s : string) : bool :=
  match s with
  | String c r => is_digit c && all_digits r
  | EmptyString => true
  end.

Fixpoint trim_end (s : string) : string :=
  match s with
  | String c r =>
      match trim_end r with
      | EmptyString => if is_space c then EmptyString else String c EmptyString
      | r' => String c r'
      end
  | EmptyString => EmptyString
  end.

(** Value of a digit of a prefixed literal in the given radix. *)
Definition radix_digit (radix : Z) (c : ascii) : option Z :=
  let n := Z.of_nat (nat_of_ascii c) in
  let v :=
    if (48 <=? n) && (n <=? 57) then n - 48
    else if (97 <=? n) && (n <=? 102) then n - 87
    else if (65 <=? n) && (n <=? 70) then n - 55
    else 16 in
  if v <? radix then Some v else None.

Fixpoint read_radix (radix : Z) (s : string) (acc : Z) : option Z :=
  match s with
  | String c r =>
      match radix_digit radix c with
      | Some v => read_radix radix r (radix * acc + v)
      | None => None
      end
  | EmptyString => Some acc
  end.

Definition radix_of_prefix (c : ascii) : option Z :=
  if (Ascii.eqb c "x" || Ascii.eqb c "X")%bool then Some 16
  else if (Ascii.eqb c "o" || Ascii.eqb c "O")%bool then Some 8
  else if (Ascii.eqb c "b" || Ascii.eqb c "B")%bool then Some 2
  else None.

Definition signed_decimal (s : string) : result Z :=
  match s with
  | EmptyString => Ok 0
  | String c r =>
      let '(neg, ds) :=
        if Ascii.eqb c "-" then (true, r)
        else if Ascii.eqb c "+" then (false, r) else (false, s) in
      match ds with
      | EmptyString => Throw SyntaxError
      | _ =>
          if all_digits ds then
            let '(v, _, _) := read_digits ds 0 0 in Ok (if neg then - v else v)
          else Throw SyntaxError
      end
  end.

(** [BigInt(string)]: white space around the text is dropped, the empty
    text is [0n], decimal digits may carry a sign, the prefixes [0x], [0o]
    and [0b] introduce unsigned digits of that radix, and any other text
    throws a SyntaxError. *)
Definition BigInt_of_string (input : string) : result Z :=
  let s := trim_end (trim_start input) in
  match s with
  | String "0" (String c (String d r)) =>
      match radix_of_prefix c with
      | Some radix =>
          match read_radix radix (String d r) 0 with
          | Some v => Ok v
          | None => Throw SyntaxError
          end
      | None => signed_decimal s
      end
  | _ => signed_decimal s
  end.

(** [BigInt(number)]: only an integral number converts; any other throws a
    RangeError. *)
Definition BigInt_of_number (x : number) : result Z :=
  if Number_isInteger x then
    match floorZ x with Some z => Ok z | None => Throw RangeError end
  else Throw RangeError.


(** *** More of [Number] and the integer operators *)

Definition add (x y : number) : number := SFadd prec emax x y.
Definition sub (x y : number) : number := SFsub prec emax x y.

(** [x < y] and [x > y]; false as soon as one side is NaN. *)
Definition lt (x y : number) : bool := SFltb x y.
Definition gt (x y : number) : bool := SFltb y x.

(** [Number.prototype.toFixed(f)] for [0 <= f]: NaN and magnitudes from
    [10 ^ 21] on print as [toString] does; otherwise the integer [n] nearest
    to [|x| * 10 ^ f] (the larger one on a tie) is printed with [f] digits
    after the dot, behind a minus sign when [x < 0]. *)
Definition Number_toFixed (x : number) (f : Z) : string :=
  match x with
  | S754_nan | S754_infinity _ => Number_toString x
  | _ =>
      let '(p, q) :=
        match x with
        | S754_finite _ m e =>
            if 0 <=? e then (Zpos m * 2 ^ e, 1) else (Zpos m, 2 ^ (- e))
        | _ => (0, 1)
        end in
      if 10 ^ 21 * q <=? p then Number_toString x
      else
        let n := (2 * p * 10 ^ f + q) / (2 * q) in
        let ds := Z_to_string n in
        let k := Z.of_nat (String.length ds) in
        let padded := if k <=? f then zeros (Z.to_nat (f + 1 - k)) ++ ds else ds in
        let k' := Z.of_nat (String.length padded) in
        let body :=
          if f =? 0 then padded
          else substring 0 (Z.to_nat (k' - f)) padded ++ "." ++
               substring (Z.to_nat (k' - f)) (Z.to_nat f) padded in
        match x with
        | S754_finite true _ _ => "-" ++ body
        | _ => body
        end
  end.

(** [String.prototype.toLowerCase], on ASCII text. *)
Definition lower_char (c : ascii) : ascii :=
  let n := nat_of_ascii c in
  if (Nat.leb 65 n && Nat.leb n 90)%bool then ascii_of_nat (n + 32) else c.

Fixpoint String_toLowerCase (s : string) : string :=
  match s with
  | String c r => String (lower_char c) (String_toLowerCase r)
  | EmptyString => EmptyString
  end.

(** ToBoolean on a string. *)
Definition nonempty_text (s : string) : bool :=
  match s with EmptyString => false | _ => true end.

(** ToInt32 of an integral number, the operand conversion of [|] and [&]. *)
Definition to_int32 (z : Z) : Z := (z + 2 ^ 31) mod 2 ^ 32 - 2 ^ 31.

Definition bit_or (a b : Z) : Z := Z.lor (to_int32 a) (to_int32 b).
Definition bit_and (a b : Z) : Z := Z.land (to_int32 a) (to_int32 b).

(** *** Texts beyond ASCII *)

(** A JavaScript string in full: its UTF-16 code units, each from 0 to
    65535.  The [string]s used elsewhere hold ASCII texts, one character per
    code unit. *)
Definition text := list Z.

Definition code_unit (u : Z) : Prop := 0 <= u < 65536.

Definition text_of_string (s : string) : text :=
  map (fun c => Z.of_nat (nat_of_ascii c)) (list_ascii_of_string s).

(** WhiteSpace and LineTerminator, the characters that [\s] matches and
    that [parseFloat] skips: tab, line feed, vertical tab, form feed,
    carriage return, space, no-break space, ogham space mark, the spaces
    U+2000 to U+200A, line and paragraph separator, narrow no-break space,
    medium mathematical space, ideographic space and the byte order mark. *)
Definition white_space : list Z :=
  [0x0009; 0x000A; 0x000B; 0x000C; 0x000D; 0x0020; 0x00A0; 0x1680;
   0x2000; 0x2001; 0x2002; 0x2003; 0x2004; 0x2005; 0x2006; 0x2007;
   0x2008; 0x2009; 0x200A; 0x2028; 0x2029; 0x202F; 0x205F; 0x3000;
   0xFEFF].

Definition is_white_space (u : Z) : bool := existsb (Z.eqb u) white_space.

Fixpoint drop_white_space (t : text) : text :=
  match t with
  | u :: r => if is_white_space u then drop_white_space r else t
  | [] => []
  end.

(** The characters of a text up to its first code unit outside ASCII. *)
Fixpoint ascii_prefix (t : text) : string :=
  match t with
  | u :: r =>
      if (0 <=? u) && (u <? 128) then
        String (ascii_of_nat (Z.to_nat u)) (ascii_prefix r)
      else EmptyString
  | [] => EmptyString
  end.

(** [parseFloat] on a text: the white space at its start is skipped, and
    since a StrDecimalLiteral is made of ASCII characters only, the number
    read is that of the characters up to the first code unit outside
    ASCII. *)
Definition parseFloat_text (t : text) : number :=
  parseFloat (ascii_prefix (drop_white_space t)).

(** **** UTF-8, as [Buffer] encodes and decodes it *)

Definition is_high (u : Z) : bool := (0xD800 <=? u) && (u <=? 0xDBFF).
Definition is_low (u : Z) : bool := (0xDC00 <=? u) && (u <=? 0xDFFF).

(** The bytes of one code point. *)
Definition utf8_bytes (cp : Z) : list Z :=
  if cp <? 0x80 then [cp]
  else if cp <? 0x800 then [0xC0 + cp / 64; 0x80 + cp mod 64]
  else if cp <? 0x10000 then
    [0xE0 + cp / 4096; 0x80 + (cp / 64) mod 64; 0x80 + cp mod 64]
  else
    [0xF0 + cp / 262144; 0x80 + (cp / 4096) mod 64; 0x80 + (cp / 64) mod 64;
     0x80 + cp mod 64].

(** The code point a surrogate pair stands for. *)
Definition pair_value (hi lo : Z) : Z :=
  0x10000 + (hi - 0xD800) * 1024 + (lo - 0xDC00).

(** [Buffer.from(text)]: a high surrogate followed by a low one encodes the
    code point of the pair, any other code unit encodes itself, and a
    surrogate without its partner encodes as U+FFFD. *)
Fixpoint utf8_encode (t : text) : list Z :=
  match t with
  | [] => []
  | u :: r =>
      if is_high u then
        match r with
        | v :: r' =>
            if is_low v then (utf8_bytes (pair_value u v) ++ utf8_encode r')%list
            else (utf8_bytes 0xFFFD ++ utf8_encode r)%list
        | [] => utf8_bytes 0xFFFD
        end
      else if is_low u then (utf8_bytes 0xFFFD ++ utf8_encode r)%list
      else (utf8_bytes u ++ utf8_encode r)%list
  end.

(** The decoder between two bytes: at the start of a character, or inside
    one, with the number of continuation bytes wanted after the next one,
    the bits read so far and the range the next byte must lie in. *)
Inductive decoder := Start | Pending (more : nat) (cp lower upper : Z).

Definition start (b : Z) : list Z * decoder :=
  if b <=? 0x7F then ([b], Start)
  else if (0xC2 <=? b) && (b <=? 0xDF) then ([], Pending 0 (b mod 32) 0x80 0xBF)
  else if (0xE0 <=? b) && (b <=? 0xEF) then
    ([], Pending 1 (b mod 16)
           (if b =? 0xE0 then 0xA0 else 0x80) (if b =? 0xED then 0x9F else 0xBF))
  else if (0xF0 <=? b) && (b <=? 0xF4) then
    ([], Pending 2 (b mod 8)
           (if b =? 0xF0 then 0x90 else 0x80) (if b =? 0xF4 then 0x8F else 0xBF))
  else ([0xFFFD], Start).

(** One byte: the code points it completes and the decoder after it.  A
    byte that cannot continue the character in progress ends it with U+FFFD
    and is then read as the start of a character. *)
Definition step (s : decoder) (b : Z) : list Z * decoder :=
  match s with
  | Start => start b
  | Pending more cp lower upper =>
      if (lower <=? b) && (b <=? upper) then
        let cp' := cp * 64 + b mod 64 in
        match more with
        | O => ([cp'], Start)
        | S k => ([], Pending k cp' 0x80 0xBF)
        end
      else let '(out, s') := start b in (0xFFFD :: out, s')
  end.

(** The code points of a byte sequence; a character cut off by the end of
    the bytes is U+FFFD. *)
Fixpoint decode (s : decoder) (bs : list Z) : list Z :=
  match bs with
  | [] => match s with Start => [] | Pending _ _ _ _ => [0xFFFD] end
  | b :: r => let '(out, s') := step s b in (out ++ decode s' r)%list
  end.

(** The code units of a code point. *)
Definition units (cp : Z) : text :=
  if cp <? 0x10000 then [cp]
  else [0xD800 + (cp - 0x10000) / 1024; 0xDC00 + (cp - 0x10000) mod 1024].

(** [buffer.toString('utf8')]. *)
Definition utf8_decode (bs : list Z) : text := flat_map units (decode Start bs).

(** [buffer.toString('hex').toUpperCase()]: two digits per byte. *)
Definition hex_digit (n : nat) : ascii :=
  ascii_of_nat (if Nat.ltb n 10 then 48 + n else 55 + n).

Fixpoint hex_upper (bs : list Z) : string :=
  match bs with
  | b :: r =>
      String (hex_digit (Z.to_nat (b / 16)))
        (String (hex_digit (Z.to_nat (b mod 16))) (hex_upper r))
  | [] => EmptyString
  end.

(** The value of a hexadecimal digit of either case. *)
Definition hex_value (c : ascii) : option nat :=
  let n := nat_of_ascii c in
  if (Nat.leb 48 n && Nat.leb n 57)%bool then Some (n - 48)%nat
  else if (Nat.leb 65 n && Nat.leb n 70)%bool then Some (n - 55)%nat
  else if (Nat.leb 97 n && Nat.leb n 102)%bool then Some (n - 87)%nat
  else None.

(** [Buffer.from(s, 'hex')]: pairs of hexadecimal digits are read until the
    first pair that is not one; a single digit left at the end is
    dropped. *)
Fixpoint hex_decode (s : string) : list Z :=
  match s with
  | String a (String b r) =>
      match hex_value a, hex_value b with
      | Some h, Some l => Z.of_nat (16 * h + l) :: hex_decode r
      | _, _ => []
      end
  | _ => []
  end.

End JS.

Import JS.

(** ** utils/amountUtils.ts *)

Module AmountUtils.

(** The literals [1_000_000] and [1e18]. *)
Definition million : number := of_Z 1000000.
Definition ten_pow_18 : number := of_Z (10 ^ 18).

Definition dropsToXrp (drops : string + number) : result string :=
  let dropsNum :=
    match drops with
    | inl s => BigInt_of_string s
    | inr n => BigInt_of_number (Math_floor n)
    end in
  match dropsNum with
  | Ok z => Ok (Number_toString (div (of_Z z) million))
  | Throw e => Throw e
  end.

Definition xrpToDrops (xrp : string + number) : string :=
  let xrpNum := match xrp with inl s => parseFloat s | inr n => n end in
  Number_toString (Math_floor (mul xrpNum million)).

Definition weiToEth (wei : string + Z) : result string :=
  let weiBigInt := match wei with inl s => BigInt_of_string s | inr z => Ok z end in
  match weiBigInt with
  | Ok z => Ok (Number_toString (div (of_Z z) ten_pow_18))
  | Throw e => Throw e
  end.

Definition ethToWei (eth : string + number) : result string :=
  let ethNum := match eth with inl s => parseFloat s | inr n => n end in
  match BigInt_of_number (Math_floor (mul ethNum ten_pow_18)) with
  | Ok z => Ok (Z_to_string z)
  | Throw e => Throw e
  end.

(** [s.replace(/[,\s$]/g, '')]: every comma, white-space character and
    dollar sign is removed. *)
Definition is_decoration (u : Z) : bool :=
  (u =? 44) || is_white_space u || (u =? 36).

Fixpoint strip_decoration (t : text) : text :=
  match t with
  | u :: r => if is_decoration u then strip_decoration r else u :: strip_decoration r
  | [] => []
  end.

(** What [parseRlusdAmount] ends with: the amount it returns, or the message
    of the [Error] it throws. *)
Inductive parsed := Parsed (amount : string) | Rejected (message : text).

Definition parseRlusdAmount (displayAmount : text) : parsed :=
  let cleaned := strip_decoration displayAmount in
  let num := parseFloat_text cleaned in
  if isNaN num then
    Rejected (text_of_string "Invalid RLUSD amount: " ++ displayAmount)%list
  else Parsed (Number_toString num).

Definition validatePositiveAmount (amount : string + number) : bool :=
  let num := match amount with inl s => parseFloat s | inr n => n end in
  negb (isNaN num) && gt num (of_Z 0) && isFinite num.

Definition compareAmounts (a b : string) : Z :=
  let numA := parseFloat a in
  let numB := parseFloat b in
  if lt numA numB then -1
  else if gt numA numB then 1
  else 0.

Definition addAmounts (amounts : list string) : string :=
  Number_toString
    (fold_left (fun acc amt => add acc (parseFloat amt)) amounts (of_Z 0)).

Definition subtractAmounts (a b : string) : string :=
  Number_toString (sub (parseFloat a) (parseFloat b)).

End AmountUtils.

(** ** utils/paymentUtils.ts *)

Module PaymentUtils.

Definition validateDestinationTag (tag : number) : bool :=
  Number_isInteger tag && ge tag (of_Z 0) && le tag (of_Z 4294967295).

(** [Math.floor(Math.random() * 4294967295)], for the draw [r] that
    [Math.random()] returns: a number at or above 0 and below 1. *)
Definition generateDestinationTag (r : number) : number :=
  Math_floor (mul r (of_Z 4294967295)).

Definition tfNoDirectRipple : Z := 0x00010000.
Definition tfPartialPayment : Z := 0x00020000.
Definition tfLimitQuality : Z := 0x00040000.

Record PaymentFlagOptions := {
  noDirectRipple : option bool;
  partialPayment : option bool;
  limitQuality : option bool
}.

(** [if (o) flags |= bit]. *)
Definition or_flag (o : option bool) (bit flags : Z) : Z :=
  match o with Some true => bit_or flags bit | _ => flags end.

Definition buildPaymentFlags (options : PaymentFlagOptions) : Z :=
  or_flag (limitQuality options) tfLimitQuality
    (or_flag (partialPayment options) tfPartialPayment
       (or_flag (noDirectRipple options) tfNoDirectRipple 0)).

Definition isCrossCurrencyPayment (sourceCurrency : string)
  (sourceIssuer : option string) (destCurrency : string)
  (destIssuer : option string) : bool :=
  if negb (String.eqb sourceCurrency destCurrency) then true
  else if String.eqb sourceCurrency "XRP" then false
  else
    match sourceIssuer, destIssuer with
    | Some a, Some b => negb (String.eqb a b)
    | None, None => false
    | _, _ => true
    end.

Record MemoFields := { MemoType : option string; MemoData : option string }.

Record MemoObject := { Memo : MemoFields }.

(** [Buffer.from(v).toString('hex').toUpperCase()] for both fields, inside
    the [Memo] wrapper. *)
Definition createMemo (type data : text) : MemoObject :=
  {| Memo := {| MemoType := Some (hex_upper (utf8_encode type));
                MemoData := Some (hex_upper (utf8_encode data)) |} |}.

(** [v ? Buffer.from(v, 'hex').toString('utf8') : undefined]. *)
Definition decode_field (v : option string) : option text :=
  match v with
  | Some s => if nonempty_text s then Some (utf8_decode (hex_decode s)) else None
  | None => None
  end.

Record ParsedMemo := { type : option text; data : option text }.

Definition parseMemo (memo : MemoFields) : ParsedMemo :=
  {| type := decode_field (MemoType memo); data := decode_field (MemoData memo) |}.

End PaymentUtils.

(** ** utils/dexUtils.ts *)

Module DexUtils.

Definition tfPassive : Z := 0x00010000.
Definition tfImmediateOrCancel : Z := 0x00020000.
Definition tfFillOrKill : Z := 0x00040000.
Definition tfSell : Z := 0x00080000.

Record OfferFlagOptions := {
  passive : option bool;
  immediateOrCancel : option bool;
  fillOrKill : option bool;
  sell : option bool
}.

Definition buildOfferFlags (options : OfferFlagOptions) : Z :=
  PaymentUtils.or_flag (sell options) tfSell
    (PaymentUtils.or_flag (fillOrKill options) tfFillOrKill
       (PaymentUtils.or_flag (immediateOrCancel options) tfImmediateOrCancel
          (PaymentUtils.or_flag (passive options) tfPassive 0))).

Definition calculateQuality (takerPaysValue takerGetsValue : string) : string :=
  let pays := parseFloat takerPaysValue in
  let gets := parseFloat takerGetsValue in
  if strict_eq gets (of_Z 0) then "0"
  else Number_toString (div pays gets).

(** A side of an offer: drops of XRP as text, or an issued amount with its
    [value]. *)
Inductive side := InDrops (drops : string) | InValue (value : string).

Definition side_amount (s : side) : number :=
  match s with
  | InDrops d => div (parseFloat d) (of_Z 1000000)
  | InValue v => parseFloat v
  end.

Definition calculatePrice (takerGets takerPays : side) (invert : bool) : string :=
  let gets := side_amount takerGets in
  let pays := side_amount takerPays in
  if invert then
    if strict_eq gets (of_Z 0) then "0" else Number_toFixed (div pays gets) 8
  else
    if strict_eq pays (of_Z 0) then "0" else Number_toFixed (div gets pays) 8.

Record Spread := { absolute : string; percentage : string }.

Definition calculateSpread (bestBid bestAsk : string) : Spread :=
  let bid := parseFloat bestBid in
  let ask := parseFloat bestAsk in
  {| absolute := Number_toFixed (sub ask bid) 8;
     percentage :=
       if strict_eq bid (of_Z 0) then "0"
       else Number_toFixed (mul (div (sub ask bid) bid) (of_Z 100)) 4 |}.

Definition calculateMidPrice (bestBid bestAsk : string) : string :=
  let bid := parseFloat bestBid in
  let ask := parseFloat bestAsk in
  Number_toFixed (div (add bid ask) (of_Z 2)) 8.

End DexUtils.

(** ** constants/issuer.ts *)

Module Issuer.

Record IssuerConfig := {
  address : string;
  currencyCode : string;
  displayName : string;
  isOfficial : bool
}.

Definition XRPL_RLUSD_ISSUERS : list (string * IssuerConfig) :=
  [("mainnet",
    {| address := "rMxCKbEDwqr76QuheSUMdEGf4B9xJ8m5De"; currencyCode := "RLUSD";
       displayName := "Ripple RLUSD (Mainnet)"; isOfficial := true |});
   ("testnet",
    {| address := "rQhWct2fTQgPdDT7Xp9e8Dg2btrKmcG5p"; currencyCode := "RLUSD";
       displayName := "Ripple RLUSD (Testnet)"; isOfficial := true |});
   ("devnet",
    {| address := "rP9jPyP5kyvFRb6ZiRghAGw5u8SGAmU4bd"; currencyCode := "RLUSD";
       displayName := "Ripple RLUSD (Devnet)"; isOfficial := true |})].

Fixpoint lookup_issuer (network : string) (table : list (string * IssuerConfig))
  : option IssuerConfig :=
  match table with
  | [] => None
  | (k, c) :: r => if String.eqb network k then Some c else lookup_issuer network r
  end.

Definition RECOMMENDED_TRUSTLINE_LIMIT : string := "1000000000".

(** [XRPL_RLUSD_ISSUERS[network]?.address || null]. *)
Definition getIssuerAddress (network : string) : option string :=
  match lookup_issuer network XRPL_RLUSD_ISSUERS with
  | Some c => if nonempty_text (address c) then Some (address c) else None
  | None => None
  end.

Definition isOfficialIssuer (addr : string) : bool :=
  existsb
    (fun kc =>
       String.eqb (String_toLowerCase (address (snd kc))) (String_toLowerCase addr)
       && isOfficial (snd kc))
    XRPL_RLUSD_ISSUERS.

End Issuer.

(** ** utils/trustlineUtils.ts *)

Module TrustlineUtils.

Definition lsfLowAuth : Z := 0x00040000.
Definition lsfHighAuth : Z := 0x00080000.
Definition lsfLowNoRipple : Z := 0x00100000.
Definition lsfHighNoRipple : Z := 0x00200000.
Definition lsfLowFreeze : Z := 0x00400000.
Definition lsfHighFreeze : Z := 0x00800000.

Definition tfSetfAuth : Z := 0x00010000.
Definition tfSetNoRipple : Z := 0x00020000.
Definition tfClearNoRipple : Z := 0x00040000.
Definition tfSetFreeze : Z := 0x00100000.
Definition tfClearFreeze : Z := 0x00200000.

Record TrustlineFlags := {
  authorized : bool;
  frozen : bool;
  noRipple : bool
}.

Record TrustlineConfig := {
  currency : string;
  issuer : string;
  limit : string;
  config_noRipple : option bool
}.

Definition createRlusdTrustlineConfig (network : string) (limit_ : option string)
  : result TrustlineConfig :=
  match Issuer.lookup_issuer network Issuer.XRPL_RLUSD_ISSUERS with
  | None => Throw (Error ("Unknown network: " ++ network))
  | Some i =>
      Ok {| currency := "RLUSD"; issuer := Issuer.address i;
            limit := match limit_ with
                     | Some l => l
                     | None => Issuer.RECOMMENDED_TRUSTLINE_LIMIT
                     end;
            config_noRipple := Some true |}
  end.

(** [(flags & bit) !== 0]. *)
Definition has_bit (flags bit : Z) : bool := negb (bit_and flags bit =? 0).

Definition parseTrustlineFlags (flags : Z) (isHighNode : bool) : TrustlineFlags :=
  if isHighNode then
    {| authorized := has_bit flags lsfHighAuth;
       frozen := has_bit flags lsfHighFreeze;
       noRipple := has_bit flags lsfHighNoRipple |}
  else
    {| authorized := has_bit flags lsfLowAuth;
       frozen := has_bit flags lsfLowFreeze;
       noRipple := has_bit flags lsfLowNoRipple |}.

Record TrustSetOptions := {
  setAuth : option bool;
  setNoRipple : option bool;
  clearNoRipple : option bool;
  setFreeze : option bool;
  clearFreeze : option bool
}.

Definition buildTrustSetFlags (options : TrustSetOptions) : Z :=
  PaymentUtils.or_flag (clearFreeze options) tfClearFreeze
    (PaymentUtils.or_flag (setFreeze options) tfSetFreeze
       (PaymentUtils.or_flag (clearNoRipple options) tfClearNoRipple
          (PaymentUtils.or_flag (setNoRipple options) tfSetNoRipple
             (PaymentUtils.or_flag (setAuth options) tfSetfAuth 0)))).

Record AccountLine := { line_currency : string; line_account : string }.

Definition hasRlusdTrustline (accountLines : list AccountLine) (issuerAddress : string)
  : bool :=
  existsb
    (fun line =>
       String.eqb (line_currency line) "RLUSD"
       && String.eqb (String_toLowerCase (line_account line))
            (String_toLowerCase issuerAddress))
    accountLines.

Definition validateTrustlineLimit (limit_ : string) : bool :=
  let num := parseFloat limit_ in
  negb (isNaN num) && ge num (of_Z 0) && isFinite num.

Definition calculateTrustlineReserve (trustlineCount : number) : string :=
  Number_toString (mul trustlineCount (of_Z 2)).

End TrustlineUtils.

(** ** Values passed to and from the ledger libraries *)

#[local] Unset Elimination Schemes.
Inductive json :=
| JUndefined
| JStr (s : string)
| JNum (n : number)
| JBool (b : bool)
| JObj (fields : list (string * json))
| JArr (items : list json).
#[local] Set Elimination Schemes.

(** An object literal: its properties in the order they were written. *)
Definition object := list (string * json).

Fixpoint field (k : string) (o : object) : option json :=
  match o with
  | [] => None
  | (k', v) :: r => if String.eqb k k' then Some v else field k r
  end.

Definition nonempty (s : string) : bool :=
  match s with EmptyString => false | _ => true end.

(** ToBoolean. *)
Definition json_truthy (v : json) : bool :=
  match v with
  | JUndefined => false
  | JStr s => nonempty s
  | JNum n => truthy n
  | JBool b => b
  | JObj _ | JArr _ => true
  end.

(** [...(v && { k: v })] for an optional number and an optional string: a
    missing or falsy [v] spreads no property. *)
Definition spread_num (k : string) (v : option number) : object :=
  match v with
  | Some n => if truthy n then [(k, JNum n)] else []
  | None => []
  end.

Definition spread_str (k : string) (v : option string) : object :=
  match v with
  | Some s => if nonempty s then [(k, JStr s)] else []
  | None => []
  end.

(** constants/issuer.ts *)
Definition RLUSD_CURRENCY_CODE : string := "RLUSD".

(** ** Events and emitted items *)

Inductive Amount :=
| Drops (drops : string)
| Issued (currency issuer value : string).

Record Transaction := {
  TransactionType : string;
  tx_Amount : Amount;
  tx_hash : string;
  tx_Account : string;
  tx_Destination : string
}.

Record LedgerClosed := {
  ledger_index : number;
  ledger_hash : string;
  ledger_time : number;
  txn_count : number
}.

Inductive RawEvent :=
| EvLedgerClosed (l : LedgerClosed)
| EvTransaction (tx : Transaction).

(** A registered callback: given the raw event and the clock reading used for
    the [timestamp] property, the items it hands to [this.emit], or the
    exception it ends with before emitting anything. *)
Definition listener := RawEvent -> string -> result (list object).

(** ** transport/xrplClient.ts *)

Module Xrpl.

(** *** The [xrpl] package, seen from the client *)

(** Calls made on the underlying [Client] object. *)
Inductive call :=
| Connect
| Disconnect
| Request (req : object)
| Autofill (tx : object)
| SubmitAndWait (tx_blob : string).

Record Meta := { TransactionResult : option string }.

(** What [submitAndWait] resolves to ([result.result] in the source). *)
Record SubmitResponse := {
  r_hash : string;
  r_ledger_index : option number;
  r_meta : option Meta;
  r_validated : option bool
}.

(** The server behind the connection: the reply to each call, given the
    calls made so far.  [Throw] is a rejected promise. *)
Record Ledger := {
  connect_reply : list call -> result unit;
  disconnect_reply : list call -> result unit;
  request_reply : list call -> object -> result json;
  autofill_reply : list call -> object -> result object;
  submit_reply : list call -> string -> result SubmitResponse
}.

(** The [Client] object: the server it talks to, the calls made on it and
    the callbacks registered with [client.on], oldest first. *)
Record Client := {
  ledger : Ledger;
  log : list call;
  listeners : list (string * listener)
}.

(** [wallet.sign(prepared).tx_blob]: signing validates and encodes the
    transaction, and throws on one it does not accept. *)
Record Wallet := {
  address : string;
  sign : object -> result string
}.

Inductive network := Mainnet | Testnet | Devnet | Custom.

(** What [messages[code] || ...] evaluates to: a text, or, when [code] names
    a member that the object literal inherits from [Object.prototype], that
    member (a function, or the prototype object itself for [__proto__]). *)
Inductive message :=
| Text (s : string)
| Inherited (name : string).

Record XrplClientConfig := {
  cfg_network : network;
  customUrl : option string
}.

Record XrplTransactionResult := {
  success : bool;
  hash : string;
  ledgerIndex : option number;
  resultCode : string;
  resultMessage : message;
  fee : json;
  sequence : json;
  validated : option bool
}.

(** *** The class [XrplClient] *)

Record XrplClient := {
  client : Client;
  wallet : option Wallet;
  config : XrplClientConfig;
  isConnected : bool
}.

(** [new XrplClient(config)] against a given server. *)
Definition new (l : Ledger) (cfg : XrplClientConfig) : XrplClient :=
  {| client := {| ledger := l; log := []; listeners := [] |};
     wallet := None; config := cfg; isConnected := false |}.

(** A method body: it reads and updates the instance and either returns or
    throws. *)
Definition M (A : Type) : Type := XrplClient -> result A * XrplClient.

Definition ret {A} (a : A) : M A := fun st => (Ok a, st).
Definition throw {A} (e : error) : M A := fun st => (Throw e, st).
Definition bind {A B} (m : M A) (k : A -> M B) : M B :=
  fun st =>
    match m st with
    | (Ok a, st') => k a st'
    | (Throw e, st') => (Throw e, st')
    end.

Declare Scope xrpl_scope.
Delimit Scope xrpl_scope with xrpl.
Notation "'let*' x ':=' m 'in' k" := (bind m (fun x => k))
  (at level 10, x name, m at level 100, k at level 200) : xrpl_scope.
Notation "m '>>' k" := (bind m (fun _ => k))
  (at level 90, right associativity) : xrpl_scope.
Local Open Scope xrpl_scope.

(** Runs [m] and hands its outcome over instead of throwing. *)
Definition attempt {A} (m : M A) : M (result A) :=
  fun st => let '(r, st') := m st in (Ok r, st').

Definition settle {A} (r : result A) : M A :=
  match r with Ok a => ret a | Throw e => throw e end.

(** One call on the underlying client: it is logged and answered by the
    server. *)
Definition perform {A} (c : call) (reply : Ledger -> list call -> result A)
  : M (result A) :=
  fun st =>
    let cl := client st in
    (Ok (reply (ledger cl) (log cl)),
     {| client := {| ledger := ledger cl; log := log cl ++ [c];
                     listeners := listeners cl |};
        wallet := wallet st; config := config st;
        isConnected := isConnected st |}).

Definition set_connected (b : bool) : M unit :=
  fun st =>
    (Ok tt, {| client := client st; wallet := wallet st; config := config st;
               isConnected := b |}).

(** [client.on(event, callback)]. *)
Definition on (event : string) (cb : listener) : M unit :=
  fun st =>
    let cl := client st in
    (Ok tt,
     {| client := {| ledger := ledger cl; log := log cl;
                     listeners := listeners cl ++ [(event, cb)] |};
        wallet := wallet st; config := config st;
        isConnected := isConnected st |}).

Definition getIssuerAddress (st : XrplClient) : string :=
  match cfg_network (config st) with
  | Testnet => "rQhWct2fTQgPdDT7Xp9e8Dg2btrKmcG5p"
  | Devnet => "rP9jPyP5kyvFRb6ZiRghAGw5u8SGAmU4bd"
  | Mainnet | Custom => "rMxCKbEDwqr76QuheSUMdEGf4B9xJ8m5De"
  end.

(** [connect()] up to its [await]: the guard on [isConnected] and, when it
    passes, the call to [client.connect()]. *)
Definition connect_begin : M (option (result unit)) :=
  fun st =>
    if isConnected st then (Ok None, st)
    else
      let '(r, st') := perform Connect connect_reply st in
      match r with
      | Ok p => (Ok (Some p), st')
      | Throw e => (Throw e, st')
      end.

(** [connect()] after its [await]: the flag is set once the connection is
    up. *)
Definition connect_end (pending : option (result unit)) : M unit :=
  match pending with
  | None => ret tt
  | Some (Ok _) => set_connected true
  | Some (Throw e) => throw e
  end.

Definition connect : M unit :=
  let* pending := connect_begin in connect_end pending.

Definition disconnect : M unit :=
  fun st =>
    if isConnected st then
      (let* r := perform Disconnect disconnect_reply in
       settle r >>
       set_connected false) st
    else (Ok tt, st).

Definition setWallet (w : Wallet) : M unit :=
  fun st =>
    (Ok tt, {| client := client st; wallet := Some w; config := config st;
               isConnected := isConnected st |}).

(** [this.client.request(req)]. *)
Definition request (req : object) : M json :=
  let* r := perform (Request req) (fun l h => request_reply l h req) in settle r.

Definition getAccountInfo (address : string) : M json :=
  connect >>
  request [("command", JStr "account_info"); ("account", JStr address);
           ("ledger_index", JStr "validated")].

Definition getAccountLines (address : string) (peer : option string) : M json :=
  connect >>
  request ([("command", JStr "account_lines"); ("account", JStr address);
            ("ledger_index", JStr "validated")] ++ spread_str "peer" peer)%list.

Definition getAccountOffers (address : string) : M json :=
  connect >>
  request [("command", JStr "account_offers"); ("account", JStr address);
           ("ledger_index", JStr "validated")].

Record Currency := { cur_currency : string; cur_issuer : option string }.

Definition book_side (c : Currency) : json :=
  if String.eqb (cur_currency c) "XRP" then JObj [("currency", JStr "XRP")]
  else JObj [("currency", JStr (cur_currency c));
             ("issuer", match cur_issuer c with Some i => JStr i | None => JUndefined end)].

Definition book_offers (takerGets takerPays : Currency) (limit : number) : object :=
  [("command", JStr "book_offers"); ("taker_gets", book_side takerGets);
   ("taker_pays", book_side takerPays); ("limit", JNum limit)].

Definition getOrderBook (takerGets takerPays : Currency) (limit : number) : M json :=
  connect >>
  request (book_offers takerGets takerPays limit).

(** [response.result.offers]; reading [offers] off a missing [result]
    throws a TypeError. *)
Definition result_offers (response : json) : result json :=
  match response with
  | JObj fs =>
      match field "result" fs with
      | Some (JObj rs) =>
          match field "offers" rs with Some v => Ok v | None => Ok JUndefined end
      | Some (JStr _) | Some (JNum _) | Some (JBool _) | Some (JArr _) => Ok JUndefined
      | Some JUndefined | None => Throw (Error "TypeError")
      end
  | _ => Throw (Error "TypeError")
  end.

Record OrderBook := { bids : json; asks : json }.

(** The two [getOrderBook] calls are started one after the other before
    either is awaited ([Promise.all]): each runs [connect()] up to its
    [await] first, then each resumes and sends its request. *)
Definition getRlusdXrpOrderBook (limit : number) : M OrderBook :=
  fun st =>
    let issuer := getIssuerAddress st in
    let xrp := {| cur_currency := "XRP"; cur_issuer := None |} in
    let rlusd := {| cur_currency := RLUSD_CURRENCY_CODE; cur_issuer := Some issuer |} in
    (let* p1 := attempt connect_begin in
     let* p2 := attempt connect_begin in
     let* bidsResponse :=
       attempt (let* p := settle p1 in
                connect_end p >> request (book_offers xrp rlusd limit)) in
     let* asksResponse :=
       attempt (let* p := settle p2 in
                connect_end p >> request (book_offers rlusd xrp limit)) in
     let* b := settle bidsResponse in
     let* a := settle asksResponse in
     let* bs := settle (result_offers b) in
     let* as_ := settle (result_offers a) in
     ret {| bids := bs; asks := as_ |}) st.

Definition getServerInfo : M json :=
  connect >> request [("command", JStr "server_info")].

Definition getTransaction (h : string) : M json :=
  connect >> request [("command", JStr "tx"); ("transaction", JStr h)].

(** *** Submission and its outcome *)

Definition messages : gmap string string :=
  list_to_map
    [("tesSUCCESS", "Transaction successful");
     ("tecUNFUNDED_PAYMENT", "Insufficient RLUSD balance");
     ("tecNO_DST", "Destination account does not exist");
     ("tecNO_LINE", "No trustline to RLUSD issuer");
     ("tecPATH_DRY", "No valid payment path found");
     ("tecINSUFF_FEE", "Insufficient XRP for transaction fee");
     ("tecFROZEN", "Trustline is frozen");
     ("tecNO_PERMISSION", "Not authorized for this operation")].

(** The property names every object literal inherits from
    [Object.prototype]; each holds a function, [__proto__] the prototype
    object. *)
Definition object_prototype_members : list string :=
  ["constructor"; "__defineGetter__"; "__defineSetter__"; "hasOwnProperty";
   "__lookupGetter__"; "__lookupSetter__"; "isPrototypeOf";
   "propertyIsEnumerable"; "toString"; "valueOf"; "__proto__";
   "toLocaleString"].

Definition inherited (key : string) : bool :=
  existsb (String.eqb key) object_prototype_members.

(** [messages[code] || `Transaction result: ${code}`].  [code] is [None]
    when [meta?.TransactionResult] is [undefined], which reads the key and
    prints as ["undefined"].  The read goes through the prototype chain: a
    key the table lacks but [Object.prototype] has yields the inherited
    member, which is truthy and is returned as it is. *)
Definition getResultMessage (code : option string) : message :=
  let key := match code with Some c => c | None => "undefined" end in
  match messages !! key with
  | Some m => if nonempty m then Text m else Text ("Transaction result: " ++ key)
  | None =>
      if inherited key then Inherited key
      else Text ("Transaction result: " ++ key)
  end.

(** [v || d]. *)
Definition or_else (v : option json) (d : json) : json :=
  match v with
  | Some x => if json_truthy x then x else d
  | None => d
  end.

Definition TransactionResult_of (r : SubmitResponse) : option string :=
  match r_meta r with
  | Some m => TransactionResult m
  | None => None
  end.

Definition outcome (prepared : object) (r : SubmitResponse) : XrplTransactionResult :=
  let code := TransactionResult_of r in
  {| success := match code with Some c => String.eqb c "tesSUCCESS" | None => false end;
     hash := r_hash r;
     ledgerIndex := r_ledger_index r;
     resultCode :=
       match code with
       | Some c => if nonempty c then c else "unknown"
       | None => "unknown"
       end;
     resultMessage := getResultMessage code;
     fee := or_else (field "Fee" prepared) (JStr "0");
     sequence := or_else (field "Sequence" prepared) (JNum (of_Z 0));
     validated := r_validated r |}.

Definition require_wallet : M Wallet :=
  fun st =>
    match wallet st with
    | Some w => (Ok w, st)
    | None => (Throw (Error "Wallet not set"), st)
    end.

Definition submitTransaction (tx : object) : M XrplTransactionResult :=
  let* w := require_wallet in
  let* p := perform (Autofill tx) (fun l h => autofill_reply l h tx) in
  let* prepared := settle p in
  let* tx_blob := settle (sign w prepared) in
  let* r := perform (SubmitAndWait tx_blob) (fun l h => submit_reply l h tx_blob) in
  let* response := settle r in
  ret (outcome prepared response).

(** *** Transaction builders *)

Definition issued (issuer value : string) : json :=
  JObj [("currency", JStr RLUSD_CURRENCY_CODE); ("issuer", JStr issuer);
        ("value", JStr value)].

Record TrustlineOptions := {
  qualityIn : option number;
  qualityOut : option number;
  noRipple : option bool
}.

Definition trustSetTx (account issuer limit : string) (options : TrustlineOptions)
  : object :=
  ([("TransactionType", JStr "TrustSet"); ("Account", JStr account);
    ("LimitAmount", issued issuer limit)]
   ++ spread_num "QualityIn" (qualityIn options)
   ++ spread_num "QualityOut" (qualityOut options)
   ++ match noRipple options with
      | Some true => [("Flags", JNum (of_Z 0x00020000))]
      | _ => []
      end)%list.

Definition setTrustline (limit : string) (options : TrustlineOptions)
  : M XrplTransactionResult :=
  let* w := require_wallet in
  connect >>
  fun st => submitTransaction (trustSetTx (address w) (getIssuerAddress st) limit options) st.

Record Memo := { memo_type : text; memo_data : text }.

Record PaymentOptions := {
  destinationTag : option number;
  memos : option (list Memo)
}.

(** [{ Memo: { MemoType: Buffer.from(m.type).toString('hex').toUpperCase(),
    MemoData: ... } }]. *)
Definition memoEntry (m : Memo) : json :=
  JObj [("Memo",
         JObj [("MemoType", JStr (hex_upper (utf8_encode (memo_type m))));
               ("MemoData", JStr (hex_upper (utf8_encode (memo_data m))))])].

Definition paymentTx (account issuer destination amount : string)
  (options : PaymentOptions) : object :=
  ([("TransactionType", JStr "Payment"); ("Account", JStr account);
    ("Destination", JStr destination); ("Amount", issued issuer amount)]
   ++ spread_num "DestinationTag" (destinationTag options)
   ++ match memos options with
      | Some ms => [("Memos", JArr (map memoEntry ms))]
      | None => []
      end)%list.

Definition sendRlusd (destination amount : string) (options : PaymentOptions)
  : M XrplTransactionResult :=
  let* w := require_wallet in
  connect >>
  fun st =>
    submitTransaction
      (paymentTx (address w) (getIssuerAddress st) destination amount options) st.

Record OrderOptions := {
  passive : option bool;
  immediateOrCancel : option bool;
  fillOrKill : option bool;
  sell : option bool;
  expiration : option number
}.

Definition set_flag (o : option bool) (bit flags : Z) : Z :=
  match o with Some true => Z.lor flags bit | _ => flags end.

Definition orderFlags (options : OrderOptions) : Z :=
  set_flag (sell options) 0x00080000
    (set_flag (fillOrKill options) 0x00040000
       (set_flag (immediateOrCancel options) 0x00020000
          (set_flag (passive options) 0x00010000 0))).

Definition offerCreateTx (account : string) (takerGets takerPays : json)
  (options : OrderOptions) : object :=
  ([("TransactionType", JStr "OfferCreate"); ("Account", JStr account);
    ("TakerGets", takerGets); ("TakerPays", takerPays)]
   ++ spread_num "Flags" (Some (of_Z (orderFlags options)))
   ++ spread_num "Expiration" (expiration options))%list.

Definition placeOrder (takerGets takerPays : json) (options : OrderOptions)
  : M XrplTransactionResult :=
  let* w := require_wallet in
  connect >>
  submitTransaction (offerCreateTx (address w) takerGets takerPays options).

Definition offerCancelTx (account : string) (offerSequence : number) : object :=
  [("TransactionType", JStr "OfferCancel"); ("Account", JStr account);
   ("OfferSequence", JNum offerSequence)].

Definition cancelOrder (offerSequence : number) : M XrplTransactionResult :=
  let* w := require_wallet in
  connect >>
  submitTransaction (offerCancelTx (address w) offerSequence).

Record EscrowOptions := {
  finishAfter : option number;
  cancelAfter : option number;
  condition : option string;
  escrowDestinationTag : option number
}.

Definition escrowCreateTx (account destination drops : string)
  (options : EscrowOptions) : object :=
  ([("TransactionType", JStr "EscrowCreate"); ("Account", JStr account);
    ("Destination", JStr destination); ("Amount", JStr drops)]
   ++ spread_num "FinishAfter" (finishAfter options)
   ++ spread_num "CancelAfter" (cancelAfter options)
   ++ spread_str "Condition" (condition options)
   ++ spread_num "DestinationTag" (escrowDestinationTag options))%list.

Section Escrow.

(** [xrpToDrops] as imported from the [xrpl] package (not the one of
    amountUtils.ts); it may throw on text it does not accept. *)
Variable xrpl_xrpToDrops : string -> result string.

Definition createEscrow (destination amount : string) (options : EscrowOptions)
  : M XrplTransactionResult :=
  let* w := require_wallet in
  connect >>
  let* drops := settle (xrpl_xrpToDrops amount) in
  submitTransaction (escrowCreateTx (address w) destination drops options).

End Escrow.

(** *** Subscriptions *)

Definition subscribeLedger (callback : listener) : M unit :=
  connect >>
  request [("command", JStr "subscribe"); ("streams", JArr [JStr "ledger"])] >>
  on "ledgerClosed" callback.

Definition subscribeAccount (address : string) (callback : listener) : M unit :=
  connect >>
  request [("command", JStr "subscribe"); ("accounts", JArr [JStr address])] >>
  on "transaction" callback.

Definition unsubscribeAll : M unit :=
  request [("command", JStr "unsubscribe"); ("streams", JArr [JStr "ledger"])] >>
  ret tt.

(** [createXrplClient(network, customUrl)]: the first of testnet, devnet and
    custom that occurs in the name, else mainnet. *)
Fixpoint includes (needle s : string) : bool :=
  String.prefix needle s ||
  match s with
  | String _ r => includes needle r
  | EmptyString => false
  end.

Definition networkKey (name : string) : network :=
  if includes "testnet" name then Testnet
  else if includes "devnet" name then Devnet
  else if includes "custom" name then Custom
  else Mainnet.

Definition createXrplClient (l : Ledger) (name : string) (url : option string)
  : XrplClient :=
  new l {| cfg_network := networkKey name; customUrl := url |}.


(** *** Balance *)

(** [response.result.lines]; reading it off a missing [result] throws. *)
Definition result_lines (response : json) : result json :=
  match response with
  | JObj fs =>
      match field "result" fs with
      | Some (JObj rs) =>
          match field "lines" rs with Some v => Ok v | None => Ok JUndefined end
      | Some (JStr _) | Some (JNum _) | Some (JBool _) | Some (JArr _) => Ok JUndefined
      | Some JUndefined | None => Throw (Error "TypeError")
      end
  | _ => Throw (Error "TypeError")
  end.

(** [line.currency === RLUSD_CURRENCY_CODE && line.account === issuer]; a
    line that is [undefined] throws on the property read. *)
Definition is_rlusd_line (issuer : string) (line : json) : result bool :=
  match line with
  | JUndefined => Throw (Error "TypeError")
  | JObj fs =>
      Ok (match field "currency" fs, field "account" fs with
          | Some (JStr c), Some (JStr a) =>
              String.eqb c RLUSD_CURRENCY_CODE && String.eqb a issuer
          | _, _ => false
          end)
  | _ => Ok false
  end.

(** [lines.find(...)]. *)
Fixpoint find_line (issuer : string) (lines : list json) : result (option json) :=
  match lines with
  | [] => Ok None
  | l :: r =>
      match is_rlusd_line issuer l with
      | Throw e => Throw e
      | Ok true => Ok (Some l)
      | Ok false => find_line issuer r
      end
  end.

(** [rlusdLine?.balance || '0']. *)
Definition balance_of (line : option json) : json :=
  match line with
  | Some (JObj fs) => or_else (field "balance" fs) (JStr "0")
  | _ => JStr "0"
  end.

Definition getRlusdBalance (address_ : string) : M json :=
  fun st =>
    let issuer := getIssuerAddress st in
    (let* response := getAccountLines address_ (Some issuer) in
     let* lines := settle (result_lines response) in
     match lines with
     | JArr ls =>
         let* line := settle (find_line issuer ls) in
         ret (balance_of line)
     | _ => throw (Error "TypeError")
     end) st.

End Xrpl.

(** ** transport/ethereumClient.ts *)

Module Ethereum.

(** Calls that reach the provider through the signing contract. *)
Inductive call :=
| ContractTransfer (to : string) (value : Z)
| ContractApprove (spender : string) (value : Z)
| ContractTransferFrom (from to : string) (value : Z)
| Wait.

Record TransactionReceipt := {
  rc_status : option Z;
  rc_hash : string;
  rc_blockNumber : Z;
  rc_blockHash : string;
  rc_gasUsed : Z;
  rc_gasPrice : option Z;
  rc_from : string;
  rc_to : option string
}.

(** The chain behind the provider, and [parseUnits] of the [ethers]
    package, which throws on text that is not a decimal amount. *)
Record Chain := {
  parseUnits : string -> Z -> result Z;
  send_reply : list call -> call -> result unit;
  wait_reply : list call -> result TransactionReceipt
}.

Definition block_listener := Z -> string -> list object.
Definition transfer_listener := string -> string -> string -> string -> list object.

(** [contracts] counts the [Contract] objects made by [getReadContract()];
    a listener registered on one of them is kept with its number. *)
Record EthereumClient := {
  chain : Chain;
  log : list call;
  contract : bool;
  provider_listeners : list (string * block_listener);
  contracts : nat;
  contract_listeners : list (nat * (string * transfer_listener))
}.

Definition new (c : Chain) : EthereumClient :=
  {| chain := c; log := []; contract := false; provider_listeners := [];
     contracts := 0; contract_listeners := [] |}.

(** [setWallet(privateKey)]: from now on a signing contract exists. *)
Definition setWallet (st : EthereumClient) : EthereumClient :=
  {| chain := chain st; log := log st; contract := true;
     provider_listeners := provider_listeners st; contracts := contracts st;
     contract_listeners := contract_listeners st |}.

Record EthereumTransactionResult := {
  success : bool;
  hash : string;
  blockNumber : Z;
  blockHash : string;
  gasUsed : string;
  effectiveGasPrice : string;
  status : Z;
  from : string;
  to : string
}.

Definition formatResult (receipt : TransactionReceipt) : EthereumTransactionResult :=
  {| success := match rc_status receipt with Some 1 => true | _ => false end;
     hash := rc_hash receipt;
     blockNumber := rc_blockNumber receipt;
     blockHash := rc_blockHash receipt;
     gasUsed := Z_to_string (rc_gasUsed receipt);
     effectiveGasPrice :=
       match rc_gasPrice receipt with
       | Some p => Z_to_string p
       | None => "0"
       end;
     status := match rc_status receipt with Some s => s | None => 0 end;
     from := rc_from receipt;
     to := match rc_to receipt with Some t => if nonempty t then t else "" | None => "" end |}.

Definition logged (c : call) (st : EthereumClient) : EthereumClient :=
  {| chain := chain st; log := log st ++ [c]; contract := contract st;
     provider_listeners := provider_listeners st; contracts := contracts st;
     contract_listeners := contract_listeners st |}.

(** The common shape of [transfer], [approve] and [transferFrom]: the guard
    on the signing contract, the amount parsed at 18 decimals, the contract
    call and the wait for its receipt. *)
Definition send (amount : string) (mk : Z -> call) (st : EthereumClient)
  : result EthereumTransactionResult * EthereumClient :=
  if negb (contract st) then (Throw (Error "Wallet not set"), st)
  else
    match parseUnits (chain st) amount 18 with
    | Throw e => (Throw e, st)
    | Ok v =>
        let c := mk v in
        match send_reply (chain st) (log st) c with
        | Throw e => (Throw e, logged c st)
        | Ok _ =>
            let st1 := logged c st in
            match wait_reply (chain st1) (log st1) with
            | Throw e => (Throw e, logged Wait st1)
            | Ok receipt => (Ok (formatResult receipt), logged Wait st1)
            end
        end
    end.

Definition transfer (to_ amount : string) :=
  send amount (ContractTransfer to_).

Definition approve (spender amount : string) :=
  send amount (ContractApprove spender).

Definition transferFrom (from_ to_ amount : string) :=
  send amount (ContractTransferFrom from_ to_).

(** [formatUnits(v, 18)] of the [ethers] package: the integral part, a dot
    and the 18 fractional digits without the zeros at their end, one digit
    at least. *)
Fixpoint rstrip_zeros (s : string) : string :=
  match s with
  | String c r =>
      match rstrip_zeros r with
      | EmptyString => if Ascii.eqb c "0" then EmptyString else String c EmptyString
      | r' => String c r'
      end
  | EmptyString => EmptyString
  end.

Definition formatUnits18 (v : Z) : string :=
  let a := Z.abs v in
  let ip := Z_to_string (a / 10 ^ 18) in
  let fs := Z_to_string (a mod 10 ^ 18) in
  let fp := rstrip_zeros (zeros (18 - String.length fs) ++ fs) in
  (if v <? 0 then "-" else "") ++ ip ++ "." ++ (if nonempty fp then fp else "0").

Definition onBlock (callback : block_listener) (st : EthereumClient) : EthereumClient :=
  {| chain := chain st; log := log st; contract := contract st;
     provider_listeners := provider_listeners st ++ [("block", callback)];
     contracts := contracts st;
     contract_listeners := contract_listeners st |}.

Definition onTransfer (callback : transfer_listener) (st : EthereumClient)
  : EthereumClient :=
  {| chain := chain st; log := log st; contract := contract st;
     provider_listeners := provider_listeners st;
     contracts := S (contracts st);
     contract_listeners :=
       contract_listeners st ++ [(contracts st, ("Transfer", callback))] |}.

(** [provider.removeAllListeners()], then [removeAllListeners()] on a
    contract that [getReadContract()] has just made. *)
Definition removeAllListeners (st : EthereumClient) : EthereumClient :=
  {| chain := chain st; log := log st; contract := contract st;
     provider_listeners := [];
     contracts := S (contracts st);
     contract_listeners :=
       filter (fun l => negb (Nat.eqb (fst l) (contracts st))) (contract_listeners st) |}.


(** [/^0x[a-fA-F0-9]{40}$/.test(address)]. *)
Definition is_hex (c : ascii) : bool :=
  match hex_value c with Some _ => true | None => false end.

Fixpoint all_hex (s : string) : bool :=
  match s with
  | String c r => is_hex c && all_hex r
  | EmptyString => true
  end.

Definition isValidEthereumAddress (address : string) : bool :=
  match address with
  | String "0" (String "x" r) => Nat.eqb (String.length r) 40 && all_hex r
  | _ => false
  end.

Inductive network := Mainnet | Sepolia | Custom.

(** The network key [createEthereumClient] derives from the credential's
    network name. *)
Definition networkKey (name : string) : network :=
  if Xrpl.includes "sepolia" name then Sepolia
  else if Xrpl.includes "custom" name then Custom
  else Mainnet.

(** [RLUSD_CONTRACT_ADDRESSES[config.network] || RLUSD_CONTRACT_ADDRESSES.mainnet]. *)
Definition contractAddress (n : network) : string :=
  match n with
  | Sepolia => "0x1234567890abcdef1234567890abcdef12345678"
  | Mainnet | Custom => "0x8292Bb45bf1Ee4d140127049757C0C6824e3F0B2"
  end.

End Ethereum.

(** ** RlusdTrigger.node.ts *)

Module RlusdTrigger.

Record Parameters := {
  event : string;
  watchAddress : string;
  minAmount : number;
  largeTransferThreshold : number
}.

Record Credentials := {
  cred_network : string;
  websocketUrl : string;
  rpcUrl : string
}.

Definition transferEvents : list string :=
  ["transfer"; "transferTo"; "transferFrom"; "largeTransfer"].

Definition isTransferEvent (e : string) : bool :=
  existsb (String.eqb e) transferEvents.

Definition threshold (p : Parameters) : number :=
  if String.eqb (event p) "largeTransfer" then largeTransferThreshold p
  else minAmount p.

Definition isRlusdTransaction (tx : Transaction) : bool :=
  if negb (String.eqb (TransactionType tx) "Payment") then false
  else
    match tx_Amount tx with
    | Issued c _ _ => String.eqb c RLUSD_CURRENCY_CODE
    | Drops _ => false
    end.

Definition extractRlusdAmount (tx : Transaction) : number :=
  match tx_Amount tx with
  | Issued c _ v => if String.eqb c RLUSD_CURRENCY_CODE then parseFloat v else of_Z 0
  | Drops _ => of_Z 0
  end.

(** Inside [trigger] the receiver [this] is the context n8n runs the node
    with: the signature is [trigger(this: ITriggerFunctions)], and the body
    reads [getNodeParameter], [getCredentials], [emit] and [helpers] off it.
    The callbacks are arrow functions, so their [this] is that same context.
    [isRlusdTransaction] and [extractRlusdAmount] are private methods of the
    node class and no members of the context: there [this.isRlusdTransaction]
    and [this.extractRlusdAmount] are [undefined], and calling either throws
    a TypeError. *)
Definition this_isRlusdTransaction (tx : Transaction) : result bool :=
  Throw (Error "this.isRlusdTransaction is not a function").

Definition this_extractRlusdAmount (tx : Transaction) : result number :=
  Throw (Error "this.extractRlusdAmount is not a function").

(** The callback handed to [subscribeLedger]. *)
Definition ledgerCallback : listener :=
  fun raw _ =>
    match raw with
    | EvLedgerClosed l =>
        Ok [[("event", JStr "newLedger");
             ("ledgerIndex", JNum (ledger_index l));
             ("ledgerHash", JStr (ledger_hash l));
             ("closeTime", JNum (ledger_time l));
             ("txnCount", JNum (txn_count l))]]
    | EvTransaction _ => Ok []
    end.

(** The callback handed to [subscribeAccount]. *)
Definition accountCallback (p : Parameters) : listener :=
  fun raw now =>
    match raw with
    | EvTransaction tx =>
        match this_isRlusdTransaction tx with
        | Throw e => Throw e
        | Ok false => Ok []
        | Ok true =>
            match this_extractRlusdAmount tx with
            | Throw e => Throw e
            | Ok amount =>
                if ge amount (threshold p) then
                  Ok [[("event", JStr (event p));
                       ("hash", JStr (tx_hash tx));
                       ("from", JStr (tx_Account tx));
                       ("to", JStr (tx_Destination tx));
                       ("amount", JStr (Number_toString amount));
                       ("currency", JStr "RLUSD");
                       ("timestamp", JStr now)]]
                else Ok []
            end
        end
    | EvLedgerClosed _ => Ok []
    end.

(** [toLowerCase] on the ASCII letters. *)
Definition lower (c : ascii) : ascii :=
  let n := nat_of_ascii c in
  if (Nat.leb 65 n && Nat.leb n 90)%bool then ascii_of_nat (n + 32) else c.

Fixpoint toLowerCase (s : string) : string :=
  match s with
  | String c r => String (lower c) (toLowerCase r)
  | EmptyString => EmptyString
  end.

Definition same_address (a b : string) : bool :=
  String.eqb (toLowerCase a) (toLowerCase b).

Definition matchesAddress (p : Parameters) (from_ to_ : string) : bool :=
  negb (nonempty (watchAddress p))
  || (String.eqb (event p) "transferTo" && same_address to_ (watchAddress p))
  || (String.eqb (event p) "transferFrom" && same_address from_ (watchAddress p))
  || (String.eqb (event p) "transfer"
      && (same_address from_ (watchAddress p) || same_address to_ (watchAddress p))).

(** The callback handed to [onTransfer]. *)
Definition transferCallback (p : Parameters) : Ethereum.transfer_listener :=
  fun from_ to_ value now =>
    let amount := parseFloat value in
    if matchesAddress p from_ to_ && ge amount (threshold p) then
      [[("event", JStr (event p));
        ("from", JStr from_);
        ("to", JStr to_);
        ("amount", JStr value);
        ("currency", JStr "RLUSD");
        ("timestamp", JStr now)]]
    else [].

(** The callback handed to [onBlock]. *)
Definition blockCallback : Ethereum.block_listener :=
  fun blockNumber now =>
    [[("event", JStr "newBlock");
      ("blockNumber", JNum (of_Z blockNumber));
      ("timestamp", JStr now)]].

(** The two variables the closures [startTrigger] and [stopTrigger] share. *)
Record Trigger := {
  xrplClient : option Xrpl.XrplClient;
  ethClient : option Ethereum.EthereumClient
}.

Definition idle : Trigger := {| xrplClient := None; ethClient := None |}.

Definition startXrpl (l : Xrpl.Ledger) (c : Credentials) (p : Parameters)
  : result unit * Xrpl.XrplClient :=
  let customUrl :=
    if String.eqb (cred_network c) "custom" then Some (websocketUrl c) else None in
  let cl := Xrpl.createXrplClient l (cred_network c) customUrl in
  if String.eqb (event p) "newLedger" then Xrpl.subscribeLedger ledgerCallback cl
  else if isTransferEvent (event p) then
    if nonempty (watchAddress p) then
      Xrpl.subscribeAccount (watchAddress p) (accountCallback p) cl
    else (Ok tt, cl)
  else (Ok tt, cl).

Definition startEthereum (ch : Ethereum.Chain) (p : Parameters)
  : Ethereum.EthereumClient :=
  let cl := Ethereum.new ch in
  if String.eqb (event p) "newBlock" then Ethereum.onBlock blockCallback cl
  else if isTransferEvent (event p) then Ethereum.onTransfer (transferCallback p) cl
  else cl.

Definition startTrigger (l : Xrpl.Ledger) (ch : Ethereum.Chain)
  (c : Credentials) (p : Parameters) : result unit * Trigger :=
  let n := cred_network c in
  let '(r, x) :=
    if String.prefix "xrpl" n || String.eqb n "custom" then
      let '(r, cl) := startXrpl l c p in (r, Some cl)
    else (Ok tt, None) in
  match r with
  | Throw e => (Throw e, {| xrplClient := x; ethClient := None |})
  | Ok _ =>
      (Ok tt,
       {| xrplClient := x;
          ethClient :=
            if String.prefix "ethereum" n then Some (startEthereum ch p) else None |})
  end.

Definition stopTrigger (t : Trigger) : result unit * Trigger :=
  let '(r, x) :=
    match xrplClient t with
    | Some cl =>
        let '(r, cl') := Xrpl.bind Xrpl.unsubscribeAll (fun _ => Xrpl.disconnect) cl in
        (r, Some cl')
    | None => (Ok tt, None)
    end in
  match r with
  | Throw e => (Throw e, {| xrplClient := x; ethClient := ethClient t |})
  | Ok _ =>
      (Ok tt,
       {| xrplClient := x;
          ethClient := option_map Ethereum.removeAllListeners (ethClient t) |})
  end.

(** The underlying [Client] emits [name] with payload [raw]: the callbacks
    registered under that name run in registration order; one that throws
    ends the emit with its exception, and those after it do not run. *)
Fixpoint run_listeners (name : string) (raw : RawEvent) (now : string)
  (ls : list (string * listener)) : list object * option error :=
  match ls with
  | [] => ([], None)
  | l :: rest =>
      if String.eqb (fst l) name then
        match snd l raw now with
        | Ok items =>
            let '(more, e) := run_listeners name raw now rest in
            ((items ++ more)%list, e)
        | Throw e => ([], Some e)
        end
      else run_listeners name raw now rest
  end.

(** What the caller's sink receives when the underlying [Client] emits
    [name] with payload [raw], and the exception the emit ends with, if
    any. *)
Definition dispatch (name : string) (raw : RawEvent) (now : string)
  (cl : Xrpl.Client) : list object * option error :=
  run_listeners name raw now (Xrpl.listeners cl).

Definition deliver (name : string) (raw : RawEvent) (now : string) (t : Trigger)
  : list object * option error :=
  match xrplClient t with
  | Some cl => dispatch name raw now (Xrpl.client cl)
  | None => ([], None)
  end.

End RlusdTrigger.

(** ** Rlusd.node.ts: the transfer operations *)

Module RlusdNode.

(** [{ destinationTag: tag || undefined }]. *)
Definition transferOptions (tag : number) : Xrpl.PaymentOptions :=
  {| Xrpl.destinationTag := if truthy tag then Some tag else None;
     Xrpl.memos := None |}.

(** Resource [xrpl], operation [transfer] (and likewise [payment]/[send] and
    [rlusd]/[transfer] on the XRPL chain). *)
Definition transfer (dest amt : string) (tag : number)
  : Xrpl.M Xrpl.XrplTransactionResult :=
  Xrpl.sendRlusd dest amt (transferOptions tag).

(** The pattern of the [validateXrplAddress] operation:
    [/^r[1-9A-HJ-NP-Za-km-z]{24,34}$/]. *)
Definition is_base58 (c : ascii) : bool :=
  let n := nat_of_ascii c in
  ((Nat.leb 49 n && Nat.leb n 57)
   || (Nat.leb 65 n && Nat.leb n 72)
   || (Nat.leb 74 n && Nat.leb n 78)
   || (Nat.leb 80 n && Nat.leb n 90)
   || (Nat.leb 97 n && Nat.leb n 107)
   || (Nat.leb 109 n && Nat.leb n 122))%bool.

Fixpoint all_base58 (s : string) : bool :=
  match s with
  | String c r => is_base58 c && all_base58 r
  | EmptyString => true
  end.

Definition validateXrplAddress (addr : string) : bool :=
  match addr with
  | String "r" r =>
      Nat.leb 24 (String.length r) && Nat.leb (String.length r) 34 && all_base58 r
  | _ => false
  end.

(** One entry of [returnData]: the result of an item, or the error object
    pushed for it when [continueOnFail()] holds. *)
Inductive item_result := ItemJson (v : json) | ItemError (e : error).

(** The loop of [execute] over the input items; [ops] holds, per item, the
    operation the resource and operation parameters select. *)
Fixpoint run_items (continueOnFail : bool) (ops : list (Xrpl.M json))
  : Xrpl.M (list item_result) :=
  match ops with
  | [] => Xrpl.ret []
  | op :: rest =>
      fun st =>
        match op st with
        | (Ok v, st') =>
            Xrpl.bind (run_items continueOnFail rest)
              (fun out => Xrpl.ret (ItemJson v :: out)) st'
        | (Throw e, st') =>
            if continueOnFail then
              Xrpl.bind (run_items continueOnFail rest)
                (fun out => Xrpl.ret (ItemError e :: out)) st'
            else (Throw e, st')
        end
  end.

(** [execute] once the clients exist: the loop, then [disconnect]; when
    either throws, [disconnect] again and the error is thrown on. *)
Definition execute (continueOnFail : bool) (ops : list (Xrpl.M json))
  : Xrpl.M (list item_result) :=
  fun st =>
    match Xrpl.bind (run_items continueOnFail ops)
            (fun out => Xrpl.bind Xrpl.disconnect (fun _ => Xrpl.ret out)) st with
    | (Ok out, st') => (Ok out, st')
    | (Throw e, st') =>
        match Xrpl.disconnect st' with
        | (Ok _, st'') => (Throw e, st'')
        | (Throw e', st'') => (Throw e', st'')
        end
    end.

End RlusdNode.

(** ** Sample servers and clients, used to run the definitions *)

Module Samples.

Definition reply_tesSUCCESS : Xrpl.SubmitResponse :=
  {| Xrpl.r_hash := "ABCDEF";
     Xrpl.r_ledger_index := Some (of_Z 7);
     Xrpl.r_meta := Some {| Xrpl.TransactionResult := Some "tesSUCCESS" |};
     Xrpl.r_validated := Some true |}.

(** A validated reply to [submitAndWait] with the given result code. *)
Definition reply_with (code : string) : Xrpl.SubmitResponse :=
  {| Xrpl.r_hash := "ABCDEF";
     Xrpl.r_ledger_index := Some (of_Z 7);
     Xrpl.r_meta := Some {| Xrpl.TransactionResult := Some code |};
     Xrpl.r_validated := Some true |}.

Definition offer (n : Z) : json := JObj [("Sequence", JNum (of_Z n))].

(** A server that accepts everything, adds a fee on autofill and answers
    every request with the same three offers, whatever limit was asked. *)
Definition ledger : Xrpl.Ledger :=
  {| Xrpl.connect_reply := fun _ => Ok tt;
     Xrpl.disconnect_reply := fun _ => Ok tt;
     Xrpl.request_reply := fun _ _ =>
       Ok (JObj [("result", JObj [("offers", JArr [offer 1; offer 2; offer 3])])]);
     Xrpl.autofill_reply := fun _ tx => Ok (tx ++ [("Fee", JStr "12")])%list;
     Xrpl.submit_reply := fun _ _ => Ok reply_tesSUCCESS |}.

Definition config : Xrpl.XrplClientConfig :=
  {| Xrpl.cfg_network := Xrpl.Testnet; Xrpl.customUrl := None |}.

Definition fresh : Xrpl.XrplClient := Xrpl.new ledger config.

Definition wallet : Xrpl.Wallet :=
  {| Xrpl.address := "rHb9CJAWyB4rj91VRWn96DkukG4bwdtyTh";
     Xrpl.sign := fun _ => Ok "SIGNED" |}.

Definition funded : Xrpl.XrplClient := snd (Xrpl.setWallet wallet fresh).

(** A client with the wallet loaded whose server answers every submission
    with the given result code. *)
Definition answering (code : string) : Xrpl.XrplClient :=
  snd (Xrpl.setWallet wallet
         (Xrpl.new
            {| Xrpl.connect_reply := fun _ => Ok tt;
               Xrpl.disconnect_reply := fun _ => Ok tt;
               Xrpl.request_reply := fun _ _ => Ok JUndefined;
               Xrpl.autofill_reply := fun _ tx => Ok tx;
               Xrpl.submit_reply := fun _ _ => Ok (reply_with code) |}
            config)).

Definition connected : Xrpl.XrplClient := snd (Xrpl.connect funded).

(** The two sides of the RLUSD/XRP book. *)
Definition xrp_side : Xrpl.Currency :=
  {| Xrpl.cur_currency := "XRP"; Xrpl.cur_issuer := None |}.

Definition rlusd_side (st : Xrpl.XrplClient) : Xrpl.Currency :=
  {| Xrpl.cur_currency := RLUSD_CURRENCY_CODE;
     Xrpl.cur_issuer := Some (Xrpl.getIssuerAddress st) |}.

(** The request [getRlusdBalance] sends for an account. *)
Definition account_lines_request (st : Xrpl.XrplClient) (account : string) : object :=
  [("command", JStr "account_lines"); ("account", JStr account);
   ("ledger_index", JStr "validated"); ("peer", JStr (Xrpl.getIssuerAddress st))].

(** The request [unsubscribeAll] sends. *)
Definition unsubscribe_request : object :=
  [("command", JStr "unsubscribe"); ("streams", JArr [JStr "ledger"])].

Definition chain : Ethereum.Chain :=
  {| Ethereum.parseUnits := fun _ _ => Ok 1;
     Ethereum.send_reply := fun _ _ => Ok tt;
     Ethereum.wait_reply := fun _ =>
       Ok {| Ethereum.rc_status := Some 1; Ethereum.rc_hash := "0xabc";
             Ethereum.rc_blockNumber := 1; Ethereum.rc_blockHash := "0xdef";
             Ethereum.rc_gasUsed := 21000; Ethereum.rc_gasPrice := Some 1;
             Ethereum.rc_from := "0x01"; Ethereum.rc_to := Some "0x02" |} |}.

Definition credentials : RlusdTrigger.Credentials :=
  {| RlusdTrigger.cred_network := "xrpl_testnet";
     RlusdTrigger.websocketUrl := ""; RlusdTrigger.rpcUrl := "" |}.

(** A "transferTo" trigger watching the sample wallet's account. *)
Definition parameters : RlusdTrigger.Parameters :=
  {| RlusdTrigger.event := "transferTo";
     RlusdTrigger.watchAddress := "rHb9CJAWyB4rj91VRWn96DkukG4bwdtyTh";
     RlusdTrigger.minAmount := of_Z 1;
     RlusdTrigger.largeTransferThreshold := of_Z 100000 |}.

Definition unwatched : RlusdTrigger.Parameters :=
  {| RlusdTrigger.event := "transfer";
     RlusdTrigger.watchAddress := "";
     RlusdTrigger.minAmount := of_Z 0;
     RlusdTrigger.largeTransferThreshold := of_Z 100000 |}.

Definition started : RlusdTrigger.Trigger :=
  snd (RlusdTrigger.startTrigger ledger chain credentials parameters).

(** A "transferFrom" trigger watching the same account. *)
Definition outgoing : RlusdTrigger.Parameters :=
  {| RlusdTrigger.event := "transferFrom";
     RlusdTrigger.watchAddress := "rHb9CJAWyB4rj91VRWn96DkukG4bwdtyTh";
     RlusdTrigger.minAmount := of_Z 1;
     RlusdTrigger.largeTransferThreshold := of_Z 100000 |}.

(** A "newLedger" trigger, started, and a ledger the server then closes. *)
Definition ledger_watch : RlusdTrigger.Parameters :=
  {| RlusdTrigger.event := "newLedger";
     RlusdTrigger.watchAddress := "";
     RlusdTrigger.minAmount := of_Z 0;
     RlusdTrigger.largeTransferThreshold := of_Z 100000 |}.

Definition watching_ledgers : RlusdTrigger.Trigger :=
  snd (RlusdTrigger.startTrigger ledger chain credentials ledger_watch).

Definition closed_ledger : LedgerClosed :=
  {| ledger_index := of_Z 90; ledger_hash := "C0FFEE";
     ledger_time := of_Z 800000000; txn_count := of_Z 3 |}.

(** A payment of 5 RLUSD sent by the watched account. *)
Definition payment : Transaction :=
  {| TransactionType := "Payment";
     tx_Amount := Issued "RLUSD" "rQhWct2fTQgPdDT7Xp9e8Dg2btrKmcG5p" "5";
     tx_hash := "F00D";
     tx_Account := "rHb9CJAWyB4rj91VRWn96DkukG4bwdtyTh";
     tx_Destination := "rPT1Sjq2YGrBMTttX4GZHjKu9dyfzbpAYe" |}.

(** The lines of an account: one in another currency, then the RLUSD line. *)
Definition lines : list json :=
  [JObj [("currency", JStr "USD"); ("account", JStr "rQhWct2fTQgPdDT7Xp9e8Dg2btrKmcG5p");
         ("balance", JStr "7")];
   JObj [("currency", JStr "RLUSD"); ("account", JStr "rQhWct2fTQgPdDT7Xp9e8Dg2btrKmcG5p");
         ("balance", JStr "12.5")]].

Definition lines_ledger : Xrpl.Ledger :=
  {| Xrpl.connect_reply := fun _ => Ok tt;
     Xrpl.disconnect_reply := fun _ => Ok tt;
     Xrpl.request_reply := fun _ _ =>
       Ok (JObj [("result", JObj [("lines", JArr lines)])]);
     Xrpl.autofill_reply := fun _ tx => Ok tx;
     Xrpl.submit_reply := fun _ _ => Ok reply_tesSUCCESS |}.

Definition lines_client : Xrpl.XrplClient := Xrpl.new lines_ledger config.

(** A contract-ledger client with a signing contract. *)
Definition signer : Ethereum.EthereumClient := Ethereum.setWallet (Ethereum.new chain).

(** Two items: an account query, and an operation that fails. *)
Definition items : list (Xrpl.M json) :=
  [Xrpl.getAccountInfo "rHb9CJAWyB4rj91VRWn96DkukG4bwdtyTh";
   Xrpl.throw (Error "boom")].

End Samples.

(** Whether the character [.] occurs in a text. *)
Fixpoint has_dot (s : string) : bool :=
  match s with
  | String c r => Ascii.eqb c "." || has_dot r
  | EmptyString => false
  end.

(** Whether an optional toggle is set: [undefined] and [false] are not. *)
Definition flag_on (o : option bool) : bool :=
  match o with Some true => true | _ => false end.

(** An item operation that leaves the server behind the client alone, as
    every method of the client does. *)
Definition preserves_ledger {A} (op : Xrpl.M A) : Prop :=
  forall st, Xrpl.ledger (Xrpl.client (snd (op st))) = Xrpl.ledger (Xrpl.client st).

(** A text with every surrogate that has no partner replaced by U+FFFD. *)
Fixpoint scrub (t : text) : text :=
  match t with
  | [] => []
  | u :: r =>
      if is_high u then
        match r with
        | v :: r' => if is_low v then u :: v :: scrub r' else 0xFFFD :: scrub r
        | [] => [0xFFFD]
        end
      else if is_low u then 0xFFFD :: scrub r
      else u :: scrub r
  end.

(** A code point that has a UTF-8 encoding: up to U+10FFFF and no
    surrogate. *)
Definition scalar (cp : Z) : Prop :=
  0 <= cp < 0x110000 /\ ~ (0xD800 <= cp <= 0xDFFF).

Definition byte (b : Z) : Prop := 0 <= b < 256.

(** The entry of [returnData] for an item whose operation ended with [r]. *)
Definition entry_of (r : result json) : RlusdNode.item_result :=
  match r with
  | Ok v => RlusdNode.ItemJson v
  | Throw e => RlusdNode.ItemError e
  end.

(** The client as a run of item operations leaves it, each one started on
    the state the one before it left, whether that one failed or not. *)
Definition state_after (ops : list (Xrpl.M json)) (st : Xrpl.XrplClient)
  : Xrpl.XrplClient :=
  fold_left (fun s op => snd (op s)) ops st.

(** A line of an account that is not the RLUSD line of [issuer]: an object
    whose currency is not the text ["RLUSD"] or whose account is not the
    issuer's address. *)
Definition other_line (issuer : string) (x : json) : Prop :=
  exists gs,
    x = JObj gs /\
    (field "currency" gs <> Some (JStr "RLUSD") \/
     field "account" gs <> Some (JStr issuer)).

(** The codes [getResultMessage] knows, with their messages. *)
Definition recognized : list (string * string) :=
  [("tesSUCCESS", "Transaction successful");
   ("tecUNFUNDED_PAYMENT", "Insufficient RLUSD balance");
   ("tecNO_DST", "Destination account does not exist");
   ("tecNO_LINE", "No trustline to RLUSD issuer");
   ("tecPATH_DRY", "No valid payment path found");
   ("tecINSUFF_FEE", "Insufficient XRP for transaction fee");
   ("tecFROZEN", "Trustline is frozen");
   ("tecNO_PERMISSION", "Not authorized for this operation")].

(** The names of the members of [Object.prototype]. *)
Definition prototype_names : list string :=
  ["constructor"; "__defineGetter__"; "__defineSetter__"; "hasOwnProperty";
   "__lookupGetter__"; "__lookupSetter__"; "isPrototypeOf";
   "propertyIsEnumerable"; "toString"; "valueOf"; "__proto__";
   "toLocaleString"].

(** * Properties *)

(** Unfolds the client monad and reduces what has become decided. *)
Ltac run_client :=
  cbv beta iota zeta delta
    [Xrpl.getRlusdXrpOrderBook Xrpl.getRlusdBalance Xrpl.getAccountLines
     Xrpl.getAccountInfo Xrpl.bind Xrpl.attempt Xrpl.connect Xrpl.connect_begin
     Xrpl.connect_end Xrpl.request Xrpl.perform Xrpl.settle Xrpl.set_connected
     Xrpl.on Xrpl.ret Xrpl.throw Xrpl.unsubscribeAll Xrpl.subscribeAccount
     Xrpl.subscribeLedger Xrpl.require_wallet Xrpl.submitTransaction];
  cbn [Xrpl.client Xrpl.ledger Xrpl.log Xrpl.listeners Xrpl.wallet Xrpl.config
       Xrpl.isConnected fst snd].


(** ** Submission outcome *)

Section SubmissionOutcome.

Import Xrpl.

Lemma messages_recognized (code msg : string) :
  In (code, msg) recognized -> messages !! code = Some msg.
Proof.
  unfold recognized. simpl.
  intros H.
  repeat (destruct H as [H | H]; [inversion H; subst; vm_compute; reflexivity |]).
  contradiction.
Qed.

Lemma messages_unrecognized (code : string) :
  ~ In code (map fst recognized) -> messages !! code = None.
Proof.
  intros H. unfold messages.
  apply not_elem_of_list_to_map_1.
  intros Hin. apply H.
  apply list_elem_of_In in Hin. exact Hin.
Qed.

Lemma getResultMessage_recognized (code msg : string) :
  In (code, msg) recognized -> getResultMessage (Some code) = Text msg.
Proof.
  intros H. unfold getResultMessage.
  rewrite (messages_recognized _ _ H).
  unfold recognized in H. simpl in H.
  repeat (destruct H as [H | H]; [inversion H; subst; reflexivity |]).
  contradiction.
Qed.

Lemma inherited_spec (code : string) :
  inherited code = true <-> In code prototype_names.
Proof.
  unfold inherited. rewrite existsb_exists. split.
  - intros (x & Hx & E). apply String.eqb_eq in E. subst x. exact Hx.
  - intros H. exists code. split; [exact H | apply String.eqb_refl].
Qed.

Lemma getResultMessage_unrecognized (code : string) :
  ~ In code (map fst recognized) ->
  getResultMessage (Some code) =
  if inherited code then Inherited code else Text ("Transaction result: " ++ code).
Proof.
  intros H. unfold getResultMessage.
  rewrite (messages_unrecognized _ H). reflexivity.
Qed.

Lemma prototype_names_unrecognized (code : string) :
  In code prototype_names -> ~ In code (map fst recognized).
Proof.
  unfold prototype_names, recognized. cbn [map fst In].
  intros H Hr.
  repeat (destruct H as [H | H];
          [subst code;
           repeat (destruct Hr as [Hr | Hr]; [discriminate Hr |]); exact Hr |]).
  exact H.
Qed.

Lemma submitTransaction_runs (st : XrplClient) (tx prepared : object)
  (w : Wallet) (blob : string) (response : SubmitResponse) :
  wallet st = Some w ->
  autofill_reply (ledger (client st)) (log (client st)) tx = Ok prepared ->
  sign w prepared = Ok blob ->
  submit_reply (ledger (client st)) (log (client st) ++ [Autofill tx]) blob
  = Ok response ->
  exists st', submitTransaction tx st = (Ok (outcome prepared response), st').
Proof.
  intros Hw Ha Hb Hs.
  unfold submitTransaction, bind, require_wallet, perform, settle, ret.
  rewrite Hw. simpl. rewrite Ha. simpl. rewrite Hb. simpl. rewrite Hs. simpl.
  eexists. reflexivity.
Qed.




End SubmissionOutcome.

(** ** Signing credential *)

Section Credential.

Import Xrpl.

Lemma require_wallet_none {A} (k : Wallet -> M A) (st : XrplClient) :
  wallet st = None ->
  bind require_wallet k st = (Throw (Error "Wallet not set"), st).
Proof.
  intros H. unfold bind, require_wallet. rewrite H. reflexivity.
Qed.

(** C6. Without a loaded signing credential each transaction-building
    operation (trust set, payment, order create, order cancel, escrow create,
    and the token transfer, approve and transferFrom of the contract ledger)
    throws "Wallet not set" and leaves the client as it was: nothing has been
    sent to the network, not even a connect. *)
Theorem no_credential_fails_before_network
  (st : XrplClient) (est : Ethereum.EthereumClient) :
  wallet st = None ->
  Ethereum.contract est = false ->
  (forall limit options,
      setTrustline limit options st = (Throw (Error "Wallet not set"), st)) /\
  (forall destination amount options,
      sendRlusd destination amount options st = (Throw (Error "Wallet not set"), st)) /\
  (forall takerGets takerPays options,
      placeOrder takerGets takerPays options st = (Throw (Error "Wallet not set"), st)) /\
  (forall offerSequence,
      cancelOrder offerSequence st = (Throw (Error "Wallet not set"), st)) /\
  (forall toDrops destination amount options,
      createEscrow toDrops destination amount options st
      = (Throw (Error "Wallet not set"), st)) /\
  (forall to_ amount,
      Ethereum.transfer to_ amount est = (Throw (Error "Wallet not set"), est)) /\
  (forall spender amount,
      Ethereum.approve spender amount est = (Throw (Error "Wallet not set"), est)) /\
  (forall from_ to_ amount,
      Ethereum.transferFrom from_ to_ amount est
      = (Throw (Error "Wallet not set"), est)).
Proof.
  intros Hw Hc.
  repeat split; intros;
    try (apply require_wallet_none; exact Hw);
    unfold Ethereum.transfer, Ethereum.approve, Ethereum.transferFrom, Ethereum.send;
    rewrite Hc; reflexivity.
Qed.

Lemma no_credential_fails_before_network_witness :
  log (client (snd (sendRlusd "rDest" "1"
                      {| destinationTag := None; memos := None |} Samples.fresh))) = []
  /\ isConnected (snd (cancelOrder (of_Z 5) Samples.fresh)) = false.
Proof.
  destruct (no_credential_fails_before_network Samples.fresh
              (Ethereum.new Samples.chain) eq_refl eq_refl)
    as (_ & Hsend & _ & Hcancel & _).
  rewrite Hsend, Hcancel. split; reflexivity.
Defined.

End Credential.

(** ** Numbers: what a valid binary64 representation looks like *)

Section NumberFacts.

Lemma digits2_pos_bounds (m : positive) :
  2 ^ (Zpos (digits2_pos m) - 1) <= Zpos m < 2 ^ Zpos (digits2_pos m).
Proof.
  induction m as [p IH | p IH |]; simpl digits2_pos.
  - rewrite Pos2Z.inj_succ.
    replace (Z.succ (Zpos (digits2_pos p)) - 1) with (Z.succ (Zpos (digits2_pos p) - 1)) by lia.
    rewrite !Z.pow_succ_r by lia. lia.
  - rewrite Pos2Z.inj_succ.
    replace (Z.succ (Zpos (digits2_pos p)) - 1) with (Z.succ (Zpos (digits2_pos p) - 1)) by lia.
    rewrite !Z.pow_succ_r by lia. lia.
  - simpl. lia.
Qed.

(** A valid finite number has at most 53 mantissa bits, and exactly 53 above
    the least exponent. *)
Lemma valid_finite (s : bool) (m : positive) (e : Z) :
  valid_binary prec emax (S754_finite s m e) = true ->
  Zpos m < 2 ^ 53 /\ -1074 <= e /\ (-1074 < e -> 2 ^ 52 <= Zpos m).
Proof.
  unfold valid_binary, bounded, canonical_mantissa, fexp, emin, prec, emax.
  intros H. apply andb_true_iff in H. destruct H as [H _].
  apply Z.eqb_eq in H.
  pose proof (digits2_pos_bounds m) as [Hlo Hhi].
  assert (Hd : Zpos (digits2_pos m) <= 53) by lia.
  split.
  - eapply Z.lt_le_trans; [exact Hhi |].
    apply Z.pow_le_mono_r; lia.
  - split; [lia |].
    intros He.
    assert (Hd' : Zpos (digits2_pos m) = 53) by lia.
    rewrite Hd' in Hlo. exact Hlo.
Qed.

End NumberFacts.

(** ** Destination tags *)

Section DestinationTag.

Import Xrpl.

Lemma field_app (k : string) (a b : object) :
  field k (a ++ b)%list
  = match field k a with Some v => Some v | None => field k b end.
Proof.
  induction a as [| [k' v] a IH]; simpl; [reflexivity |].
  destruct (String.eqb k k'); [reflexivity | exact IH].
Qed.

Lemma field_spread_num_falsy (k k' : string) (n : number) :
  truthy n = false -> field k (spread_num k' (Some n)) = None.
Proof. intros H. unfold spread_num. rewrite H. reflexivity. Qed.

Lemma field_spread_num_other (k k' : string) (v : option number) :
  String.eqb k k' = false -> field k (spread_num k' v) = None.
Proof.
  intros H. unfold spread_num.
  destruct v as [n |]; [| reflexivity].
  destruct (truthy n); simpl; [rewrite H |]; reflexivity.
Qed.

Lemma field_spread_str_other (k k' : string) (v : option string) :
  String.eqb k k' = false -> field k (spread_str k' v) = None.
Proof.
  intros H. unfold spread_str.
  destruct v as [s |]; [| reflexivity].
  destruct (nonempty s); simpl; [rewrite H |]; reflexivity.
Qed.

Lemma field_spread_num_truthy (k : string) (n : number) :
  truthy n = true -> field k (spread_num k (Some n)) = Some (JNum n).
Proof.
  intros H. unfold spread_num. rewrite H. simpl.
  rewrite String.eqb_refl. reflexivity.
Qed.

(** The tag of the options, as far as it reaches the payload. *)
Lemma paymentTx_tag (account issuer destination amount : string)
  (options : PaymentOptions) :
  field "DestinationTag" (paymentTx account issuer destination amount options)
  = field "DestinationTag" (spread_num "DestinationTag" (destinationTag options)).
Proof.
  unfold paymentTx. rewrite !field_app. simpl.
  destruct (field "DestinationTag"
              (spread_num "DestinationTag" (destinationTag options)));
    [reflexivity |].
  destruct (memos options); reflexivity.
Qed.

Lemma escrowCreateTx_tag (account destination drops : string)
  (options : EscrowOptions) :
  field "DestinationTag" (escrowCreateTx account destination drops options)
  = field "DestinationTag"
      (spread_num "DestinationTag" (escrowDestinationTag options)).
Proof.
  unfold escrowCreateTx. rewrite !field_app. simpl.
  rewrite !field_spread_num_other by reflexivity.
  rewrite field_spread_str_other by reflexivity.
  reflexivity.
Qed.

(** Every call [sendRlusd] adds to the log: a [connect] when the client was
    not connected, then at most the autofill and the submission of the
    payment it has built. *)
Lemma sendRlusd_log (destination amount : string) (options : PaymentOptions)
  (st st' : XrplClient) (r : result XrplTransactionResult) :
  sendRlusd destination amount options st = (r, st') ->
  exists extra,
    log (client st') = (log (client st) ++ extra)%list /\
    forall tx, In (Autofill tx) extra ->
      exists w, wallet st = Some w /\
        tx = paymentTx (address w) (getIssuerAddress st) destination amount options.
Proof.
  unfold sendRlusd, bind, require_wallet.
  destruct (wallet st) as [w |] eqn:Hw.
  2:{ intros H. inversion H; subst. exists []. rewrite app_nil_r.
      split; [reflexivity | intros tx []]. }
  unfold connect, bind, connect_begin, connect_end, perform, set_connected, ret, throw.
  destruct (isConnected st) eqn:Hc; simpl.
  - unfold submitTransaction, bind, require_wallet, perform, settle, ret, throw.
    rewrite Hw. simpl.
    destruct (autofill_reply _ _ _) as [prepared | e]; simpl.
    + destruct (sign w prepared) as [blob | e]; simpl.
      * destruct (submit_reply _ _ _) as [resp | e]; simpl;
          intros H; inversion H; subst; simpl; rewrite <- app_assoc;
          eexists; (split; [reflexivity |]);
          intros tx [E | [E | []]]; inversion E; subst; exists w; split; reflexivity.
      * intros H; inversion H; subst; simpl.
        eexists; (split; [reflexivity |]).
        intros tx [E | []]; inversion E; subst; exists w; split; reflexivity.
    + intros H; inversion H; subst; simpl.
      eexists; (split; [reflexivity |]).
      intros tx [E | []]; inversion E; subst; exists w; split; reflexivity.
  - destruct (connect_reply _ _) as [u | e]; simpl.
    + unfold submitTransaction, bind, require_wallet, perform, settle, ret, throw.
      simpl. rewrite Hw. simpl.
      destruct (autofill_reply _ _ _) as [prepared | e]; simpl.
      * destruct (sign w prepared) as [blob | e]; simpl.
        -- destruct (submit_reply _ _ _) as [resp | e]; simpl;
             intros H; inversion H; subst; simpl; rewrite <- !app_assoc;
             eexists; (split; [reflexivity |]);
             intros tx [E | [E | [E | []]]]; inversion E; subst; exists w;
             split; reflexivity.
        -- intros H; inversion H; subst; simpl. rewrite <- !app_assoc.
           eexists; (split; [reflexivity |]).
           intros tx [E | [E | []]]; inversion E; subst; exists w;
           split; reflexivity.
      * intros H; inversion H; subst; simpl. rewrite <- !app_assoc.
        eexists; (split; [reflexivity |]).
        intros tx [E | [E | []]]; inversion E; subst; exists w; split; reflexivity.
    + intros H; inversion H; subst; simpl.
      eexists; (split; [reflexivity |]).
      intros tx [E | []]; inversion E.
Qed.

(** On a connected client with a wallet [sendRlusd] hands the payment it
    has built to the ledger's autofill, whatever the server then answers. *)
Lemma sendRlusd_autofills (destination amount : string) (options : PaymentOptions)
  (st : XrplClient) (w : Wallet) :
  wallet st = Some w ->
  isConnected st = true ->
  In (Autofill (paymentTx (address w) (getIssuerAddress st) destination amount options))
     (log (client (snd (sendRlusd destination amount options st)))).
Proof.
  intros Hw Hc.
  unfold sendRlusd, bind, require_wallet. rewrite Hw.
  unfold connect, bind, connect_begin, connect_end, ret. rewrite Hc. simpl.
  unfold submitTransaction, bind, require_wallet, perform, settle, ret, throw.
  rewrite Hw. simpl.
  destruct (autofill_reply _ _ _) as [prepared | e]; simpl.
  - destruct (sign w prepared) as [blob | e]; simpl.
    + destruct (submit_reply _ _ _) as [resp | e]; simpl;
        rewrite <- ?app_assoc; apply in_or_app; right; left; reflexivity.
    + apply in_or_app; right; left; reflexivity.
  - apply in_or_app; right; left; reflexivity.
Qed.

(** C10. A destination tag of [0] passes [validateDestinationTag] and is then
    left out of the payload: the payment and the escrow built with tag [0]
    have no [DestinationTag] property, the node's call site turns [0] into
    [undefined], and no transaction that the node's transfer with tag [0]
    hands to the ledger carries a [DestinationTag]; on a connected client
    with a wallet the payment it does hand over is the one built without a
    tag. *)
Theorem zero_destination_tag_is_dropped :
  PaymentUtils.validateDestinationTag (of_Z 0) = true /\
  (forall account issuer destination amount ms,
      field "DestinationTag"
        (paymentTx account issuer destination amount
           {| destinationTag := Some (of_Z 0); memos := ms |}) = None) /\
  (forall account destination drops fa ca cond,
      field "DestinationTag"
        (escrowCreateTx account destination drops
           {| finishAfter := fa; cancelAfter := ca; condition := cond;
              escrowDestinationTag := Some (of_Z 0) |}) = None) /\
  RlusdNode.transferOptions (of_Z 0)
  = {| destinationTag := None; memos := None |} /\
  (forall dest amt st r st' tx,
      RlusdNode.transfer dest amt (of_Z 0) st = (r, st') ->
      In (Autofill tx) (log (client st')) ->
      In (Autofill tx) (log (client st)) \/ field "DestinationTag" tx = None) /\
  (forall dest amt st w,
      wallet st = Some w ->
      isConnected st = true ->
      In (Autofill
            (paymentTx (address w) (getIssuerAddress st) dest amt
               {| destinationTag := None; memos := None |}))
         (log (client (snd (RlusdNode.transfer dest amt (of_Z 0) st))))).
Proof.
  split; [reflexivity |].
  split; [intros; rewrite paymentTx_tag; reflexivity |].
  split; [intros; rewrite escrowCreateTx_tag; reflexivity |].
  split; [reflexivity |].
  split.
  - intros dest amt st r st' tx Hrun Hin.
    unfold RlusdNode.transfer in Hrun.
    destruct (sendRlusd_log _ _ _ _ _ _ Hrun) as (extra & Hlog & Hextra).
    rewrite Hlog in Hin. apply in_app_or in Hin.
    destruct Hin as [Hin | Hin]; [left; exact Hin | right].
    destruct (Hextra tx Hin) as (w & _ & ->).
    rewrite paymentTx_tag. reflexivity.
  - intros dest amt st w Hw Hc.
    exact (sendRlusd_autofills dest amt (RlusdNode.transferOptions (of_Z 0)) st w Hw Hc).
Qed.

Lemma zero_destination_tag_is_dropped_witness :
  In (Autofill
        (paymentTx (address Samples.wallet) (getIssuerAddress Samples.funded)
           "rDest" "1" {| destinationTag := None; memos := None |}))
     (log (client Samples.funded))
  \/ field "DestinationTag"
       (paymentTx (address Samples.wallet) (getIssuerAddress Samples.funded)
          "rDest" "1" {| destinationTag := None; memos := None |}) = None.
Proof.
  destruct zero_destination_tag_is_dropped as (_ & _ & _ & _ & H & _).
  apply (H "rDest" "1" Samples.funded
           (fst (RlusdNode.transfer "rDest" "1" (of_Z 0) Samples.funded))
           (snd (RlusdNode.transfer "rDest" "1" (of_Z 0) Samples.funded))).
  - reflexivity.
  - vm_compute. right. left. reflexivity.
Defined.

Lemma of_Z_max_tag : of_Z 4294967295 = S754_finite false 9007199252643840 (-21).
Proof. reflexivity. Qed.

Lemma validate_finite (m : positive) (e : Z) :
  PaymentUtils.validateDestinationTag (S754_finite false m e) = true <->
  e < 0 /\ Zpos m mod 2 ^ (- e) = 0 /\
  (e < -21 \/ (e = -21 /\ Zpos m <= 9007199252643840)).
Proof.
  unfold PaymentUtils.validateDestinationTag.
  rewrite of_Z_max_tag.
  unfold Number_isInteger, ge, le, exact, SFleb, SFcompare, signed.
  change (of_Z 0) with (S754_zero false). cbv iota beta.
  rewrite andb_true_r.
  destruct (Z.leb_spec 0 e) as [He | He].
  - destruct (Z.compare_spec e (-21)) as [E | E | E]; try lia.
  - rewrite andb_true_iff, Z.eqb_eq.
    destruct (Z.compare_spec e (-21)) as [E | E | E].
    + rewrite Pos.compare_cont_spec. unfold Pos.switch_Eq.
      rewrite Pos2Z.inj_compare.
      destruct (Z.compare_spec (Zpos m) (Zpos 9007199252643840)) as [E' | E' | E'].
      * split; [intros [H1 _] | intros (_ & H1 & _)].
        -- split; [exact He |]. split; [exact H1 |]. right. split; [exact E |].
           clear H1. lia.
        -- split; [exact H1 | reflexivity].
      * split; [intros [H1 _] | intros (_ & H1 & _)].
        -- split; [exact He |]. split; [exact H1 |]. right. split; [exact E |].
           clear H1. lia.
        -- split; [exact H1 | reflexivity].
      * split; [intros [_ H]; discriminate |].
        intros (_ & H1 & H2). clear H1. exfalso. lia.
    + split; [intros [H1 _] | intros (_ & H1 & _)].
      * split; [exact He |]. split; [exact H1 |]. left. exact E.
      * split; [exact H1 | reflexivity].
    + split; [intros [_ H]; discriminate |].
      intros (_ & H1 & H2). clear H1. exfalso. lia.
Qed.

Lemma validate_negative (m : positive) (e : Z) :
  PaymentUtils.validateDestinationTag (S754_finite true m e) = false.
Proof.
  unfold PaymentUtils.validateDestinationTag, ge, SFleb, SFcompare.
  change (of_Z 0) with (S754_zero false). cbv iota beta.
  rewrite andb_false_r. reflexivity.
Qed.

(** [validateDestinationTag] accepts exactly the numbers whose value is an
    integer between 0 and 4294967295. *)
Lemma validateDestinationTag_exact (tag : number) :
  valid_binary prec emax tag = true ->
  (PaymentUtils.validateDestinationTag tag = true <->
   exists (n : Z) (v : Q),
     0 <= n <= 4294967295 /\ value tag = Some v /\ (v == inject_Z n)%Q).
Proof.
  intros Hvalid.
  destruct tag as [s | s | | s m e].
  - (* zero *)
    split; [intros _ | intros _; destruct s; reflexivity].
    exists 0, (0 # 1)%Q. repeat split; lia.
  - split; [destruct s; discriminate | intros (n & v & _ & H & _); discriminate].
  - split; [discriminate | intros (n & v & _ & H & _); discriminate].
  - destruct (valid_finite s m e Hvalid) as (Hm & He & Hnorm).
    destruct s.
    + (* negative *)
      rewrite validate_negative.
      split; [discriminate |].
      intros (n & v & Hn & Hv & Hq). exfalso.
      unfold value, exact, signed in Hv.
      destruct (Z.leb_spec 0 e) as [He0 | He0]; inversion Hv; subst v; clear Hv;
        unfold Qeq in Hq; simpl in Hq.
      * assert (0 < 2 ^ e) by (apply Z.pow_pos_nonneg; lia). nia.
      * nia.
    + rewrite validate_finite. split.
      * intros (He0 & Hmod & Hle).
        exists (Zpos m / 2 ^ (- e)), (Zpos m # Z.to_pos (2 ^ (- e)))%Q.
        assert (Hp : 0 < 2 ^ (- e)) by (apply Z.pow_pos_nonneg; lia).
        assert (Hdiv : Zpos m = 2 ^ (- e) * (Zpos m / 2 ^ (- e))).
        { apply Z.div_exact; lia. }
        split; [| split].
        -- split; [apply Z.div_pos; lia |].
           destruct Hle as [Hlt | [Heq Hmle]].
           ++ assert (2 ^ 22 <= 2 ^ (- e)) by (apply Z.pow_le_mono_r; lia).
              assert (Zpos m / 2 ^ (- e) < 2 ^ 31).
              { apply Z.div_lt_upper_bound; [lia |].
                change (2 ^ 53) with (2 ^ 22 * 2 ^ 31) in Hm. nia. }
              change (2 ^ 31) with 2147483648 in *. lia.
           ++ subst e. change (2 ^ (- -21)) with 2097152 in *.
              apply Z.div_le_upper_bound; lia.
        -- unfold value, exact, signed.
           destruct (Z.leb_spec 0 e); [lia | reflexivity].
        -- unfold Qeq. simpl. rewrite Z2Pos.id by lia. lia.
      * intros (n & v & Hn & Hv & Hq).
        unfold value, exact, signed in Hv.
        destruct (Z.leb_spec 0 e) as [He0 | He0]; inversion Hv; subst v; clear Hv;
          unfold Qeq in Hq; simpl in Hq.
        -- exfalso.
           assert (2 ^ 52 <= Zpos m) by (apply Hnorm; lia).
           assert (0 < 2 ^ e) by (apply Z.pow_pos_nonneg; lia).
           change (2 ^ 52) with 4503599627370496 in *. nia.
        -- assert (Hp : 0 < 2 ^ (- e)) by (apply Z.pow_pos_nonneg; lia).
           rewrite Z2Pos.id in Hq by lia.
           split; [lia |]. split.
           ++ replace (Zpos m) with (n * 2 ^ (- e)) by lia.
              apply Z.mod_mul. lia.
           ++ destruct (Z.lt_trichotomy e (-21)) as [Hlt | [Heq | Hgt]].
              ** left. exact Hlt.
              ** right. split; [exact Heq |]. subst e.
                 change (2 ^ (- -21)) with 2097152 in *. lia.
              ** exfalso.
                 assert (2 ^ 52 <= Zpos m) by (apply Hnorm; lia).
                 assert (2 ^ (- e) <= 2 ^ 20) by (apply Z.pow_le_mono_r; lia).
                 change (2 ^ 52) with 4503599627370496 in *.
                 change (2 ^ 20) with 1048576 in *. nia.
Qed.

(** X1. [validateDestinationTag] accepts exactly the numbers whose value is an
    integer between 0 and 4294967295: fractions, negative numbers, values
    from 4294967296 on, NaN and the infinities are all rejected, and [-0] is
    accepted as the integer 0. *)
Theorem validateDestinationTag_iff (tag : number) :
  valid_binary prec emax tag = true ->
  (PaymentUtils.validateDestinationTag tag = true <->
   exists (n : Z) (v : Q),
     0 <= n <= 4294967295 /\ value tag = Some v /\ (v == inject_Z n)%Q).
Proof.
  intros Hvalid.
  apply validateDestinationTag_exact.
  exact Hvalid.
Qed.

Lemma validateDestinationTag_iff_witness :
  PaymentUtils.validateDestinationTag (of_Z 12345) = true <->
  exists (n : Z) (v : Q),
    0 <= n <= 4294967295 /\ value (of_Z 12345) = Some v /\ (v == inject_Z n)%Q.
Proof.
  apply (validateDestinationTag_iff (of_Z 12345)). reflexivity.
Defined.




(** X2. No range check stands between the caller's tag and the ledger: the
    payment and the escrow payloads carry the tag exactly as given whenever it
    is truthy (fractions, negative values and values above 4294967295
    included) and carry none when it is [0], [-0] or NaN; and on a connected
    client with a wallet [sendRlusd] hands that very payload to the ledger's
    autofill. *)
Theorem destination_tag_reaches_payload_unchecked
  (st : XrplClient) (w : Wallet) (destination amount : string)
  (options : PaymentOptions) :
  wallet st = Some w ->
  isConnected st = true ->
  (forall account issuer ms tag,
      field "DestinationTag"
        (paymentTx account issuer destination amount
           {| destinationTag := Some tag; memos := ms |})
      = if truthy tag then Some (JNum tag) else None) /\
  (forall account drops fa ca cond tag,
      field "DestinationTag"
        (escrowCreateTx account destination drops
           {| finishAfter := fa; cancelAfter := ca; condition := cond;
              escrowDestinationTag := Some tag |})
      = if truthy tag then Some (JNum tag) else None) /\
  In (Autofill (paymentTx (address w) (getIssuerAddress st) destination amount options))
     (log (client (snd (sendRlusd destination amount options st)))).
Proof.
  intros Hw Hc.
  split; [| split].
  - intros. rewrite paymentTx_tag. simpl.
    destruct (truthy tag); simpl; reflexivity.
  - intros. rewrite escrowCreateTx_tag. simpl.
    destruct (truthy tag); simpl; reflexivity.
  - unfold sendRlusd, bind, require_wallet. rewrite Hw.
    unfold connect, bind, connect_begin, connect_end, ret. rewrite Hc. simpl.
    unfold submitTransaction, bind, require_wallet, perform, settle, ret, throw.
    rewrite Hw. simpl.
    destruct (autofill_reply _ _ _) as [prepared | e]; simpl.
    + destruct (sign w prepared) as [blob | e]; simpl.
      * destruct (submit_reply _ _ _) as [resp | e]; simpl;
          rewrite <- ?app_assoc; apply in_or_app; right; left; reflexivity.
      * apply in_or_app; right; left; reflexivity.
    + apply in_or_app; right; left; reflexivity.
Qed.

Lemma destination_tag_reaches_payload_unchecked_witness :
  PaymentUtils.validateDestinationTag (of_Z 4294967296) = false /\
  In (Autofill
        (paymentTx (address Samples.wallet) (getIssuerAddress Samples.connected)
           "rDest" "1"
           {| destinationTag := Some (of_Z 4294967296); memos := None |}))
     (log (client (snd (sendRlusd "rDest" "1"
                          {| destinationTag := Some (of_Z 4294967296); memos := None |}
                          Samples.connected)))).
Proof.
  split; [reflexivity |].
  apply (destination_tag_reaches_payload_unchecked Samples.connected
           Samples.wallet "rDest" "1"
           {| destinationTag := Some (of_Z 4294967296); memos := None |});
    reflexivity.
Defined.

End DestinationTag.

(** ** Connection handling and the order book *)

Section Connection.

Import Xrpl.

(** X3. [connect] and [disconnect] called twice in a row, each awaited: once
    a [connect] has succeeded the next one makes no call and changes
    nothing, and likewise for [disconnect]; after a refused [connect] (or
    [disconnect]) the next one calls the underlying client again.
    [connect] on a connected client and [disconnect] on a disconnected one
    leave the client untouched. *)
Theorem connect_disconnect_idempotent (st : XrplClient) :
  (fst (connect st) = Ok tt ->
   connect (snd (connect st)) = (Ok tt, snd (connect st))) /\
  (forall e, fst (connect st) = Throw e ->
   log (client (snd (connect (snd (connect st)))))
   = (log (client st) ++ [Connect; Connect])%list) /\
  (fst (disconnect st) = Ok tt ->
   disconnect (snd (disconnect st)) = (Ok tt, snd (disconnect st))) /\
  (forall e, fst (disconnect st) = Throw e ->
   log (client (snd (disconnect (snd (disconnect st)))))
   = (log (client st) ++ [Disconnect; Disconnect])%list) /\
  (isConnected st = true -> connect st = (Ok tt, st)) /\
  (isConnected st = false -> disconnect st = (Ok tt, st)).
Proof.
  assert (Hconn : forall s, isConnected s = true -> connect s = (Ok tt, s)).
  { intros s Hc. unfold connect, bind, connect_begin, connect_end, ret.
    rewrite Hc. reflexivity. }
  assert (Hdisc : forall s, isConnected s = false -> disconnect s = (Ok tt, s)).
  { intros s Hc. unfold disconnect. rewrite Hc. reflexivity. }
  split; [| split; [| split; [| split; [| split]]]].
  - intros H. apply Hconn. revert H. run_client.
    destruct (isConnected st) eqn:Hc; run_client; [intros _; exact Hc |].
    destruct (connect_reply _ _); run_client; [reflexivity | discriminate].
  - intros e. run_client.
    destruct (isConnected st) eqn:Hc; run_client; [discriminate |].
    destruct (connect_reply (ledger (client st)) (log (client st))) as [u | e'];
      run_client; [discriminate |].
    intros _. rewrite ?Hc. run_client.
    destruct (connect_reply _ _); run_client; rewrite <- ?app_assoc; reflexivity.
  - intros H. apply Hdisc. revert H. unfold disconnect.
    destruct (isConnected st) eqn:Hc; [| intros _; exact Hc].
    run_client.
    destruct (disconnect_reply _ _); simpl;
      [intros _; reflexivity | intros H; discriminate H].
  - intros e He.
    destruct (isConnected st) eqn:Hc;
      [| rewrite (Hdisc st Hc) in He; discriminate He].
    revert He. unfold disconnect. rewrite Hc. run_client.
    destruct (disconnect_reply (ledger (client st)) (log (client st))) as [u | e'];
      simpl; [intros H; discriminate H |].
    intros _. rewrite Hc. run_client.
    destruct (disconnect_reply _ _); simpl; rewrite <- ?app_assoc; reflexivity.
  - apply Hconn.
  - apply Hdisc.
Qed.

(** C8 (the code at the failing inputs). On a client that is not connected
    yet, whatever the server answers, [getRlusdXrpOrderBook] calls
    [client.connect()] twice: both book queries pass the guard on
    [isConnected] before either connection is up, so the two calls are the
    first and the second call the underlying client sees.  And
    [unsubscribeAll] on such a client sends its request without connecting:
    the request is the only call made, and the client is still marked as
    not connected. *)
Theorem connection_guard_slips (l : Ledger) (cfg : XrplClientConfig)
  (limit : number) :
  (exists rest,
      log (client (snd (getRlusdXrpOrderBook limit (new l cfg))))
      = Connect :: Connect :: rest) /\
  log (client (snd (unsubscribeAll (new l cfg))))
  = [Request [("command", JStr "unsubscribe"); ("streams", JArr [JStr "ledger"])]] /\
  isConnected (snd (unsubscribeAll (new l cfg))) = false.
Proof.
  split; [| split].
  - unfold new. run_client. cbn [app].
    repeat match goal with
      | |- context [connect_reply ?a ?b] =>
          destruct (connect_reply a b); run_client; cbn [app]
      | |- context [request_reply ?a ?b ?r] =>
          destruct (request_reply a b r); run_client; cbn [app]
      | |- context [result_offers ?j] =>
          destruct (result_offers j); run_client; cbn [app]
      end;
      eexists; reflexivity.
  - unfold new. run_client.
    match goal with
    | |- context [request_reply ?a ?b ?r] => destruct (request_reply a b r)
    end; reflexivity.
  - unfold new. run_client.
    match goal with
    | |- context [request_reply ?a ?b ?r] => destruct (request_reply a b r)
    end; reflexivity.
Qed.

(** When the server connects and answers the two book queries,
    [getRlusdXrpOrderBook] returns the [offers] of the two answers. *)
Lemma getRlusdXrpOrderBook_runs (st : XrplClient) (limit : number)
  (rb ra bs as_ : json) :
  (forall h, connect_reply (ledger (client st)) h = Ok tt) ->
  (forall h, request_reply (ledger (client st)) h
               (book_offers Samples.xrp_side (Samples.rlusd_side st) limit) = Ok rb) ->
  (forall h, request_reply (ledger (client st)) h
               (book_offers (Samples.rlusd_side st) Samples.xrp_side limit) = Ok ra) ->
  result_offers rb = Ok bs ->
  result_offers ra = Ok as_ ->
  fst (getRlusdXrpOrderBook limit st) = Ok {| bids := bs; asks := as_ |}.
Proof.
  intros Hconn Hb Ha Hbs Has.
  unfold Samples.xrp_side, Samples.rlusd_side in Hb, Ha.
  destruct (isConnected st) eqn:Hc.
  - run_client. rewrite Hc. run_client. rewrite Hc. run_client.
    rewrite !Hb. run_client. rewrite !Ha. run_client.
    rewrite Hbs, Has. reflexivity.
  - run_client. rewrite Hc. run_client. rewrite ?Hc. run_client.
    rewrite !Hconn. run_client.
    rewrite !Hb. run_client. rewrite !Ha. run_client.
    rewrite Hbs, Has. reflexivity.
Qed.

(** X4. The order book is the server's answer, untouched: when the server
    connects and answers the two book queries, [getRlusdXrpOrderBook] returns
    as [bids] the [offers] of the XRP-for-RLUSD query and as [asks] those of
    the RLUSD-for-XRP query, in the server's order and however many there
    are; [limit] only travels inside the two requests. *)
Theorem order_book_is_server_reply (st : XrplClient) (limit : number)
  (rb ra bs as_ : json) :
  (forall h, connect_reply (ledger (client st)) h = Ok tt) ->
  (forall h, request_reply (ledger (client st)) h
               (book_offers Samples.xrp_side (Samples.rlusd_side st) limit) = Ok rb) ->
  (forall h, request_reply (ledger (client st)) h
               (book_offers (Samples.rlusd_side st) Samples.xrp_side limit) = Ok ra) ->
  result_offers rb = Ok bs ->
  result_offers ra = Ok as_ ->
  fst (getRlusdXrpOrderBook limit st) = Ok {| bids := bs; asks := as_ |} /\
  field "limit" (book_offers Samples.xrp_side (Samples.rlusd_side st) limit) = Some (JNum limit) /\
  field "limit" (book_offers (Samples.rlusd_side st) Samples.xrp_side limit) = Some (JNum limit).
Proof.
  intros Hconn Hb Ha Hbs Has.
  split; [| split; reflexivity].
  exact (getRlusdXrpOrderBook_runs st limit rb ra bs as_ Hconn Hb Ha Hbs Has).
Qed.

Lemma order_book_is_server_reply_witness :
  fst (getRlusdXrpOrderBook (of_Z 1) Samples.fresh)
  = Ok {| bids := JArr [Samples.offer 1; Samples.offer 2; Samples.offer 3];
          asks := JArr [Samples.offer 1; Samples.offer 2; Samples.offer 3] |} /\
  field "limit" (book_offers Samples.xrp_side (Samples.rlusd_side Samples.fresh) (of_Z 1))
  = Some (JNum (of_Z 1)) /\
  field "limit" (book_offers (Samples.rlusd_side Samples.fresh) Samples.xrp_side (of_Z 1))
  = Some (JNum (of_Z 1)).
Proof.
  apply (order_book_is_server_reply Samples.fresh (of_Z 1)
           (JObj [("result",
                   JObj [("offers",
                          JArr [Samples.offer 1; Samples.offer 2; Samples.offer 3])])])
           (JObj [("result",
                   JObj [("offers",
                          JArr [Samples.offer 1; Samples.offer 2; Samples.offer 3])])]));
    reflexivity.
Defined.

(** C9. Each side of the order book is the list the server sent for it:
    when the bid query is answered with the entries [bs] and the ask query
    with the entries [as_], however many they are, [getRlusdXrpOrderBook]
    returns exactly [bs] as bids and exactly [as_] as asks, entry by entry
    in the server's order, for every [limit]; the limit is a property of the
    two requests and nothing else. *)
Theorem order_book_sides_are_the_server_lists (st : XrplClient) (limit : number)
  (rb ra : json) (bs as_ : list json) :
  (forall h, connect_reply (ledger (client st)) h = Ok tt) ->
  (forall h, request_reply (ledger (client st)) h
               (book_offers Samples.xrp_side (Samples.rlusd_side st) limit) = Ok rb) ->
  (forall h, request_reply (ledger (client st)) h
               (book_offers (Samples.rlusd_side st) Samples.xrp_side limit) = Ok ra) ->
  result_offers rb = Ok (JArr bs) ->
  result_offers ra = Ok (JArr as_) ->
  fst (getRlusdXrpOrderBook limit st) = Ok {| bids := JArr bs; asks := JArr as_ |} /\
  field "limit" (book_offers Samples.xrp_side (Samples.rlusd_side st) limit)
  = Some (JNum limit) /\
  field "limit" (book_offers (Samples.rlusd_side st) Samples.xrp_side limit)
  = Some (JNum limit).
Proof.
  intros Hconn Hb Ha Hbs Has.
  split.
  - exact (getRlusdXrpOrderBook_runs st limit rb ra _ _ Hconn Hb Ha Hbs Has).
  - split; reflexivity.
Qed.

Lemma order_book_sides_are_the_server_lists_witness :
  fst (getRlusdXrpOrderBook (of_Z 2) Samples.fresh)
  = Ok {| bids := JArr [Samples.offer 1; Samples.offer 2; Samples.offer 3];
          asks := JArr [Samples.offer 1; Samples.offer 2; Samples.offer 3] |}.
Proof.
  refine (proj1 (order_book_sides_are_the_server_lists Samples.fresh (of_Z 2)
           (JObj [("result",
                   JObj [("offers",
                          JArr [Samples.offer 1; Samples.offer 2; Samples.offer 3])])])
           (JObj [("result",
                   JObj [("offers",
                          JArr [Samples.offer 1; Samples.offer 2; Samples.offer 3])])])
           [Samples.offer 1; Samples.offer 2; Samples.offer 3]
           [Samples.offer 1; Samples.offer 2; Samples.offer 3] _ _ _ _ _));
    reflexivity.
Defined.

(** The statement of the specification fails: asked for at most one entry per
    side, a server that answers each query with three offers makes
    [getRlusdXrpOrderBook] return three bids and three asks. *)
Lemma order_book_limit_counterexample :
  exists bs as_,
    fst (getRlusdXrpOrderBook (of_Z 1) Samples.fresh)
    = Ok {| bids := JArr bs; asks := JArr as_ |} /\
    (1 < List.length bs)%nat /\ (1 < List.length as_)%nat.
Proof.
  eexists; eexists. split; [vm_compute; reflexivity |].
  split; simpl; lia.
Qed.

End Connection.

(** ** Event triggers *)

Section Trigger.

Import Xrpl RlusdTrigger.

(** C4 (the code at the failing input). A "transferFrom" trigger on the
    consensus ledger watches an account and starts without error; the
    watched account then sends 5 RLUSD, a payment in the tracked currency at
    or above the threshold of 1 whose sender is the watched address.  The
    callback forwards nothing: it ends in the TypeError of calling
    [this.isRlusdTransaction], which the context does not have. *)
Theorem xrpl_outgoing_transfer_is_not_forwarded :
  fst (startTrigger Samples.ledger Samples.chain Samples.credentials
         Samples.outgoing) = Ok tt /\
  isRlusdTransaction Samples.payment = true /\
  ge (extractRlusdAmount Samples.payment) (threshold Samples.outgoing) = true /\
  tx_Account Samples.payment = watchAddress Samples.outgoing /\
  deliver "transaction" (EvTransaction Samples.payment) "now"
    (snd (startTrigger Samples.ledger Samples.chain Samples.credentials
            Samples.outgoing))
  = ([], Some (Error "this.isRlusdTransaction is not a function")).
Proof.
  repeat split; vm_compute; reflexivity.
Qed.

(** X6. The contract-ledger transfer callback forwards a transfer exactly
    when its parsed value is at or above the threshold and either no watch
    address is set or the event kind and the matching party agree
    ("transferTo": the recipient, "transferFrom": the sender, "transfer":
    either), addresses compared without regard to letter case; with a watch
    address set, a "largeTransfer" trigger therefore forwards nothing. *)
Theorem transferCallback_forwards_iff (p : Parameters) (from_ to_ value now : string) :
  (transferCallback p from_ to_ value now <> [] <->
   ge (parseFloat value) (threshold p) = true /\
   (watchAddress p = "" \/
    (event p = "transferTo" /\ same_address to_ (watchAddress p) = true) \/
    (event p = "transferFrom" /\ same_address from_ (watchAddress p) = true) \/
    (event p = "transfer" /\
     (same_address from_ (watchAddress p) = true \/
      same_address to_ (watchAddress p) = true)))) /\
  (event p = "largeTransfer" -> watchAddress p <> "" ->
   transferCallback p from_ to_ value now = []).
Proof.
  assert (Hm : matchesAddress p from_ to_ = true <->
    (watchAddress p = "" \/
     (event p = "transferTo" /\ same_address to_ (watchAddress p) = true) \/
     (event p = "transferFrom" /\ same_address from_ (watchAddress p) = true) \/
     (event p = "transfer" /\
      (same_address from_ (watchAddress p) = true \/
       same_address to_ (watchAddress p) = true)))).
  { unfold matchesAddress.
    rewrite !orb_true_iff, !andb_true_iff, !orb_true_iff, !String.eqb_eq.
    rewrite negb_true_iff.
    assert (Hn : nonempty (watchAddress p) = false <-> watchAddress p = "").
    { destruct (watchAddress p); simpl; split; congruence. }
    rewrite Hn. tauto. }
  split.
  - unfold transferCallback.
    destruct (matchesAddress p from_ to_) eqn:Hmatch; simpl.
    + destruct (ge (parseFloat value) (threshold p)) eqn:Hge.
      * split; [intros _ | intros _; discriminate].
        split; [reflexivity | apply Hm; reflexivity].
      * split; [intros H; contradiction | intros [H _]; discriminate].
    + split; [intros H; contradiction |].
      intros [_ H]. apply Hm in H. discriminate.
  - intros He Hw. unfold transferCallback.
    destruct (matchesAddress p from_ to_) eqn:Hmatch; [| reflexivity].
    exfalso. pose proof (proj1 Hm eq_refl) as Hcase. rewrite He in Hcase.
    destruct Hcase as [H | [[H _] | [[H _] | [H _]]]];
      [contradiction | discriminate | discriminate | discriminate].
Qed.

Lemma unsubscribeAll_listeners (st : XrplClient) :
  listeners (client (snd (unsubscribeAll st))) = listeners (client st).
Proof.
  run_client. destruct (request_reply _ _ _); reflexivity.
Qed.

Lemma disconnect_listeners (st : XrplClient) :
  listeners (client (snd (disconnect st))) = listeners (client st).
Proof.
  unfold disconnect. destruct (isConnected st); [| reflexivity].
  run_client. destruct (disconnect_reply _ _); reflexivity.
Qed.

Lemma bind_snd_listeners {A B} (m : M A) (k : A -> M B) (st : XrplClient) :
  (forall s, listeners (client (snd (m s))) = listeners (client s)) ->
  (forall a s, listeners (client (snd (k a s))) = listeners (client s)) ->
  listeners (client (snd (bind m k st))) = listeners (client st).
Proof.
  intros Hm Hk. unfold bind.
  pose proof (Hm st) as H1.
  destruct (m st) as [[a | e] st']; simpl in *.
  - rewrite Hk. exact H1.
  - exact H1.
Qed.

(** The callbacks registered on the consensus-ledger client are the same
    after [stopTrigger] as before. *)
Lemma stopTrigger_listeners (t : Trigger) :
  option_map (fun cl => listeners (client cl)) (xrplClient (snd (stopTrigger t)))
  = option_map (fun cl => listeners (client cl)) (xrplClient t).
Proof.
  unfold stopTrigger.
  destruct (xrplClient t) as [cl |] eqn:Hx.
  - pose proof (bind_snd_listeners unsubscribeAll (fun _ => disconnect) cl
                  unsubscribeAll_listeners (fun _ => disconnect_listeners)) as Hl.
    destruct (bind unsubscribeAll (fun _ => disconnect) cl) as [r cl'].
    simpl in Hl. destruct r; simpl; rewrite Hl; reflexivity.
  - reflexivity.
Qed.

Lemma deliver_by_listeners (name : string) (raw : RawEvent) (now : string)
  (t t' : Trigger) :
  option_map (fun cl => listeners (client cl)) (xrplClient t')
  = option_map (fun cl => listeners (client cl)) (xrplClient t) ->
  deliver name raw now t' = deliver name raw now t.
Proof.
  unfold deliver, dispatch.
  destruct (xrplClient t') as [a |], (xrplClient t) as [b |]; simpl;
    intros H; inversion H; reflexivity.
Qed.

(** X7. Stopping does not silence the consensus-ledger callbacks: whatever
    state the trigger is in and whatever the server answers to the
    unsubscribe and disconnect calls, a raw event that the underlying client
    still emits after [stopTrigger] reaches the same callbacks and yields the
    same forwarded items as before the stop. *)
Theorem stop_keeps_callbacks (t : Trigger) (name : string) (raw : RawEvent)
  (now : string) :
  deliver name raw now (snd (stopTrigger t)) = deliver name raw now t.
Proof.
  apply deliver_by_listeners.
  pose proof (stopTrigger_listeners t) as H.
  destruct (xrplClient t) as [cl |]; exact H.
Qed.

(** C5. Delivery on the consensus ledger is gated neither by the state of
    the subscription nor by unregistration: [stopTrigger] leaves the list of
    registered callbacks exactly as it was, and what an emitted event
    delivers, the forwarded items and the exception it may end with, depends
    on that list alone, so after the stop every raw event delivers what it
    delivered before. *)
Theorem stop_does_not_gate_delivery (t : Trigger) :
  option_map (fun cl => listeners (client cl)) (xrplClient (snd (stopTrigger t)))
  = option_map (fun cl => listeners (client cl)) (xrplClient t) /\
  (forall name raw now,
      deliver name raw now (snd (stopTrigger t))
      = match xrplClient t with
        | Some cl => run_listeners name raw now (listeners (client cl))
        | None => ([], None)
        end) /\
  (forall name raw now,
      deliver name raw now (snd (stopTrigger t)) = deliver name raw now t).
Proof.
  pose proof (stopTrigger_listeners t) as H.
  split; [exact H |].
  split; intros name raw now.
  - rewrite (deliver_by_listeners name raw now t (snd (stopTrigger t)) H).
    reflexivity.
  - exact (deliver_by_listeners name raw now t (snd (stopTrigger t)) H).
Qed.

(** The statement of the specification fails: a "newLedger" trigger is started
    and stopped without error, and a ledger-closed event that the underlying
    client emits afterwards is still forwarded to the sink. *)
Lemma event_after_stop_counterexample :
  fst (startTrigger Samples.ledger Samples.chain Samples.credentials
         Samples.ledger_watch) = Ok tt /\
  fst (stopTrigger Samples.watching_ledgers) = Ok tt /\
  deliver "ledgerClosed" (EvLedgerClosed Samples.closed_ledger) "now"
    (snd (stopTrigger Samples.watching_ledgers))
  = ([[("event", JStr "newLedger");
       ("ledgerIndex", JNum (of_Z 90));
       ("ledgerHash", JStr "C0FFEE");
       ("closeTime", JNum (of_Z 800000000));
       ("txnCount", JNum (of_Z 3))]], None).
Proof.
  repeat split; vm_compute; reflexivity.
Qed.

Lemma transfer_event_not_newLedger (e : string) :
  isTransferEvent e = true -> String.eqb e "newLedger" = false.
Proof.
  unfold isTransferEvent, transferEvents. simpl.
  rewrite !orb_true_iff, !String.eqb_eq.
  intros [H | [H | [H | [H | H]]]]; subst; try reflexivity; discriminate.
Qed.

(** X8. A transfer trigger on the consensus ledger that started with a watch
    address never forwards a transaction: for every raw "transaction" event
    the registered callback ends in the TypeError of calling
    [this.isRlusdTransaction] and nothing reaches the sink, whatever the
    transaction, its amount and its parties; and the callback is still
    registered, and still throws, after [stopTrigger]. *)
Theorem started_transfer_trigger_callback_throws
  (l : Ledger) (ch : Ethereum.Chain) (c : Credentials) (p : Parameters)
  (t : Trigger) :
  String.prefix "xrpl" (cred_network c) = true ->
  isTransferEvent (event p) = true ->
  nonempty (watchAddress p) = true ->
  startTrigger l ch c p = (Ok tt, t) ->
  forall tx now,
    deliver "transaction" (EvTransaction tx) now t
    = ([], Some (Error "this.isRlusdTransaction is not a function")) /\
    deliver "transaction" (EvTransaction tx) now (snd (stopTrigger t))
    = ([], Some (Error "this.isRlusdTransaction is not a function")).
Proof.
  intros Hn He Hw Hstart tx now.
  rewrite (deliver_by_listeners _ _ _ t (snd (stopTrigger t)) (stopTrigger_listeners t)).
  assert (H : deliver "transaction" (EvTransaction tx) now t
              = ([], Some (Error "this.isRlusdTransaction is not a function"))).
  { unfold startTrigger, startXrpl in Hstart.
    rewrite Hn, (transfer_event_not_newLedger _ He), He, Hw in Hstart.
    simpl orb in Hstart. cbv iota in Hstart.
    unfold createXrplClient, new in Hstart.
    revert Hstart. run_client.
    destruct (connect_reply l []) as [u | e]; run_client.
    - match goal with
      | |- context [request_reply ?a ?b ?r] =>
          destruct (request_reply a b r) as [j | e]
      end; run_client.
      + intros Hstart. inversion Hstart; subst; clear Hstart.
        reflexivity.
      + intros Hstart. inversion Hstart.
    - intros Hstart. inversion Hstart. }
  split; exact H.
Qed.

Lemma started_transfer_trigger_callback_throws_witness :
  deliver "transaction" (EvTransaction Samples.payment) "now" Samples.started
  = ([], Some (Error "this.isRlusdTransaction is not a function")) /\
  deliver "transaction" (EvTransaction Samples.payment) "now"
    (snd (stopTrigger Samples.started))
  = ([], Some (Error "this.isRlusdTransaction is not a function")).
Proof.
  apply (started_transfer_trigger_callback_throws Samples.ledger
           Samples.chain Samples.credentials Samples.parameters Samples.started);
    reflexivity.
Defined.

(** X9. A transfer trigger on the consensus ledger that started without a
    watch address has subscribed to nothing and never connected; stopping it
    still sends the unsubscribe request, the only call the underlying client
    ever sees, over the connection that was never opened, and the stop fails
    exactly when that request is rejected. *)
Theorem stop_without_subscription (l : Ledger) (ch : Ethereum.Chain)
  (c : Credentials) (p : Parameters) :
  String.prefix "xrpl" (cred_network c) = true ->
  isTransferEvent (event p) = true ->
  watchAddress p = "" ->
  exists t cl cl',
    startTrigger l ch c p = (Ok tt, t) /\
    xrplClient t = Some cl /\ log (client cl) = [] /\ isConnected cl = false /\
    xrplClient (snd (stopTrigger t)) = Some cl' /\
    log (client cl') = [Request Samples.unsubscribe_request] /\
    isConnected cl' = false /\
    fst (stopTrigger t)
    = match request_reply l [] Samples.unsubscribe_request with
      | Ok _ => Ok tt
      | Throw e => Throw e
      end.
Proof.
  intros Hn He Hw.
  unfold startTrigger, startXrpl.
  rewrite Hn, (transfer_event_not_newLedger _ He), He, Hw.
  simpl orb. cbv iota. unfold nonempty.
  assert (Hnot : String.prefix "ethereum" (cred_network c) = false).
  { destruct (cred_network c) as [| a s]; [discriminate |].
    revert Hn. cbn [String.prefix].
    destruct (Ascii.ascii_dec "x" a) as [<- |]; [| discriminate].
    intros _. reflexivity. }
  rewrite Hnot.
  eexists. eexists. eexists.
  split; [reflexivity |].
  split; [reflexivity |].
  split; [reflexivity |].
  split; [reflexivity |].
  unfold stopTrigger, createXrplClient, new, Samples.unsubscribe_request.
  cbn [xrplClient ethClient].
  unfold disconnect. run_client.
  match goal with
  | |- context [request_reply ?a ?b ?r] =>
      destruct (request_reply a b r) as [j | e]
  end; run_client; simpl; repeat split; reflexivity.
Qed.

Lemma stop_without_subscription_witness :
  exists t cl cl',
    startTrigger Samples.ledger Samples.chain Samples.credentials
      Samples.unwatched = (Ok tt, t) /\
    xrplClient t = Some cl /\ log (client cl) = [] /\ isConnected cl = false /\
    xrplClient (snd (stopTrigger t)) = Some cl' /\
    log (client cl') = [Request Samples.unsubscribe_request] /\
    isConnected cl' = false /\
    fst (stopTrigger t)
    = match request_reply Samples.ledger [] Samples.unsubscribe_request with
      | Ok _ => Ok tt
      | Throw e => Throw e
      end.
Proof.
  apply (stop_without_subscription Samples.ledger Samples.chain
           Samples.credentials Samples.unwatched); reflexivity.
Defined.

End Trigger.

(** ** The node's item loop *)

Section Execute.

Import Xrpl RlusdNode.

Lemma run_items_ledger (c : bool) (ops : list (M json)) :
  Forall preserves_ledger ops ->
  forall st, ledger (client (snd (run_items c ops st))) = ledger (client st).
Proof.
  induction 1 as [| op ops Hop Hops IH]; intros st; [reflexivity |].
  simpl. pose proof (Hop st) as H1.
  destruct (op st) as [[v | e] st1]; simpl in H1.
  - unfold bind. pose proof (IH st1) as H2.
    destruct (run_items c ops st1) as [[out | e] st2]; simpl in *; congruence.
  - destruct c; [| simpl; exact H1].
    unfold bind. pose proof (IH st1) as H2.
    destruct (run_items true ops st1) as [[out | e'] st2]; simpl in *; congruence.
Qed.

Lemma run_items_entries (ops : list (M json)) :
  forall st, exists out,
    fst (run_items true ops st) = Ok out /\
    List.length out = List.length ops /\
    forall i op,
      nth_error ops i = Some op ->
      nth_error out i
      = Some (entry_of (fst (op (state_after (firstn i ops) st)))).
Proof.
  induction ops as [| op ops IH]; intros st.
  - exists []. split; [reflexivity |]. split; [reflexivity |].
    intros [| i] o H; discriminate H.
  - simpl. destruct (op st) as [r st1] eqn:Hop.
    destruct (IH st1) as (out & Hout & Hlen & Hnth).
    exists (entry_of r :: out).
    assert (Hrun : fst (match r with
                        | Ok v =>
                            bind (run_items true ops)
                              (fun out => ret (ItemJson v :: out)) st1
                        | Throw e =>
                            bind (run_items true ops)
                              (fun out => ret (ItemError e :: out)) st1
                        end) = Ok (entry_of r :: out)).
    { unfold bind.
      destruct (run_items true ops st1) as [r' st2]. simpl in Hout. subst r'.
      destruct r; reflexivity. }
    split; [destruct r; exact Hrun |].
    split; [simpl; congruence |].
    intros [| i] o H.
    + simpl in H. injection H as <-. simpl. rewrite Hop. reflexivity.
    + simpl in H. simpl. unfold state_after. simpl. rewrite Hop. simpl.
      apply (Hnth i o H).
Qed.

Lemma disconnect_closes (st : XrplClient) :
  (forall h, disconnect_reply (ledger (client st)) h = Ok tt) ->
  fst (disconnect st) = Ok tt /\ isConnected (snd (disconnect st)) = false.
Proof.
  intros H. unfold disconnect.
  destruct (isConnected st) eqn:Hc; [| split; [reflexivity | exact Hc]].
  run_client. rewrite H. run_client. split; reflexivity.
Qed.



End Execute.

(** ** Flag masks *)

Section Flags.

Lemma to_int32_testbit (z k : Z) :
  0 <= k < 32 -> Z.testbit (to_int32 z) k = Z.testbit z k.
Proof.
  intros Hk. unfold to_int32.
  rewrite <- (Z.mod_pow2_bits_low (_ - _) 32 k) by lia.
  rewrite <- (Z.mod_pow2_bits_low z 32 k) by lia.
  f_equal.
  rewrite Zminus_mod_idemp_l.
  f_equal. lia.
Qed.

Lemma land_pow2 (x k : Z) :
  0 <= k -> Z.land x (2 ^ k) = if Z.testbit x k then 2 ^ k else 0.
Proof.
  intros Hk. apply Z.bits_inj'. intros n Hn.
  rewrite Z.land_spec, Z.pow2_bits_eqb by lia.
  destruct (Z.eqb_spec k n) as [-> | Hne].
  - destruct (Z.testbit x n) eqn:Hx; simpl.
    + rewrite Z.pow2_bits_true by lia. reflexivity.
    + rewrite Z.bits_0. reflexivity.
  - rewrite andb_false_r.
    destruct (Z.testbit x k).
    + rewrite Z.pow2_bits_false by lia. reflexivity.
    + rewrite Z.bits_0. reflexivity.
Qed.

Lemma has_bit_testbit (flags k : Z) :
  0 <= k < 31 -> TrustlineUtils.has_bit flags (2 ^ k) = Z.testbit flags k.
Proof.
  intros Hk. unfold TrustlineUtils.has_bit, bit_and.
  assert (Hc : to_int32 (2 ^ k) = 2 ^ k).
  { unfold to_int32.
    assert (0 < 2 ^ k) by (apply Z.pow_pos_nonneg; lia).
    assert (2 ^ k < 2 ^ 31) by (apply Z.pow_lt_mono_r; lia).
    change (2 ^ 32) with (2 * 2 ^ 31).
    rewrite Z.mod_small; lia. }
  rewrite Hc, land_pow2 by lia.
  rewrite to_int32_testbit by lia.
  assert (0 < 2 ^ k) by (apply Z.pow_pos_nonneg; lia).
  destruct (Z.testbit flags k); simpl.
  - destruct (Z.eqb_spec (2 ^ k) 0); [lia | reflexivity].
  - reflexivity.
Qed.

(** X11. [parseTrustlineFlags] reads one bit per answer, for every integer
    flag word: bits 19, 23 and 21 (authorized, frozen, no-ripple) for the
    high node and bits 18, 22 and 20 for the low node; no other bit of the
    word, and in particular no bit of the other node, changes the result. *)
Theorem parseTrustlineFlags_reads_bits (flags : Z) (isHighNode : bool) :
  TrustlineUtils.parseTrustlineFlags flags isHighNode
  = {| TrustlineUtils.authorized := Z.testbit flags (if isHighNode then 19 else 18);
       TrustlineUtils.frozen := Z.testbit flags (if isHighNode then 23 else 22);
       TrustlineUtils.noRipple := Z.testbit flags (if isHighNode then 21 else 20) |}.
Proof.
  unfold TrustlineUtils.parseTrustlineFlags.
  destruct isHighNode.
  - change TrustlineUtils.lsfHighAuth with (2 ^ 19).
    change TrustlineUtils.lsfHighFreeze with (2 ^ 23).
    change TrustlineUtils.lsfHighNoRipple with (2 ^ 21).
    rewrite !has_bit_testbit by lia. reflexivity.
  - change TrustlineUtils.lsfLowAuth with (2 ^ 18).
    change TrustlineUtils.lsfLowFreeze with (2 ^ 22).
    change TrustlineUtils.lsfLowNoRipple with (2 ^ 20).
    rewrite !has_bit_testbit by lia. reflexivity.
Qed.

(** X12. The offer flags are one bit per toggle (passive 16, immediate-or-
    cancel 17, fill-or-kill 18, sell 19): the mask is the sum of the bits of
    the toggles that are set, each toggle can be read back from its bit, and
    mutually exclusive toggles are combined, not rejected; [placeOrder]
    computes the same mask as [buildOfferFlags] and leaves the [Flags]
    property out of the payload when no toggle is set. *)
Theorem offer_flags_bits (o : DexUtils.OfferFlagOptions) (exp : option number)
  (account : string) (takerGets takerPays : json) :
  let f := DexUtils.buildOfferFlags o in
  let xo := {| Xrpl.passive := DexUtils.passive o;
               Xrpl.immediateOrCancel := DexUtils.immediateOrCancel o;
               Xrpl.fillOrKill := DexUtils.fillOrKill o;
               Xrpl.sell := DexUtils.sell o;
               Xrpl.expiration := exp |} in
  f = (if flag_on (DexUtils.passive o) then 0x00010000 else 0)
      + (if flag_on (DexUtils.immediateOrCancel o) then 0x00020000 else 0)
      + (if flag_on (DexUtils.fillOrKill o) then 0x00040000 else 0)
      + (if flag_on (DexUtils.sell o) then 0x00080000 else 0) /\
  Z.testbit f 16 = flag_on (DexUtils.passive o) /\
  Z.testbit f 17 = flag_on (DexUtils.immediateOrCancel o) /\
  Z.testbit f 18 = flag_on (DexUtils.fillOrKill o) /\
  Z.testbit f 19 = flag_on (DexUtils.sell o) /\
  Xrpl.orderFlags xo = f /\
  field "Flags" (Xrpl.offerCreateTx account takerGets takerPays xo)
  = if f =? 0 then None else Some (JNum (of_Z f)).
Proof.
  cbv zeta.
  assert (Hfield : forall opts,
             field "Flags" (Xrpl.offerCreateTx account takerGets takerPays opts)
             = field "Flags" (spread_num "Flags" (Some (of_Z (Xrpl.orderFlags opts))))).
  { intros opts. unfold Xrpl.offerCreateTx. rewrite !field_app. simpl.
    rewrite field_spread_num_other by reflexivity.
    destruct (field "Flags" _); reflexivity. }
  rewrite Hfield.
  destruct o as [[[|] |] [[|] |] [[|] |] [[|] |]];
    repeat split; reflexivity.
Qed.

(** X13. The payment and trust-set flag builders likewise set one bit per
    toggle that is on and nothing else, and the [noRipple] option of
    [setTrustline] puts into the payload the very mask that
    [buildTrustSetFlags] gives for [setNoRipple]. *)
Theorem payment_and_trustset_flags_bits (po : PaymentUtils.PaymentFlagOptions)
  (to_ : TrustlineUtils.TrustSetOptions) (account issuer limit : string)
  (qi qo : option number) :
  PaymentUtils.buildPaymentFlags po
  = (if flag_on (PaymentUtils.noDirectRipple po) then 0x00010000 else 0)
    + (if flag_on (PaymentUtils.partialPayment po) then 0x00020000 else 0)
    + (if flag_on (PaymentUtils.limitQuality po) then 0x00040000 else 0) /\
  TrustlineUtils.buildTrustSetFlags to_
  = (if flag_on (TrustlineUtils.setAuth to_) then 0x00010000 else 0)
    + (if flag_on (TrustlineUtils.setNoRipple to_) then 0x00020000 else 0)
    + (if flag_on (TrustlineUtils.clearNoRipple to_) then 0x00040000 else 0)
    + (if flag_on (TrustlineUtils.setFreeze to_) then 0x00100000 else 0)
    + (if flag_on (TrustlineUtils.clearFreeze to_) then 0x00200000 else 0) /\
  field "Flags"
    (Xrpl.trustSetTx account issuer limit
       {| Xrpl.qualityIn := qi; Xrpl.qualityOut := qo; Xrpl.noRipple := Some true |})
  = Some (JNum (of_Z (TrustlineUtils.buildTrustSetFlags
                        {| TrustlineUtils.setAuth := None;
                           TrustlineUtils.setNoRipple := Some true;
                           TrustlineUtils.clearNoRipple := None;
                           TrustlineUtils.setFreeze := None;
                           TrustlineUtils.clearFreeze := None |}))).
Proof.
  split; [| split].
  - destruct po as [[[|] |] [[|] |] [[|] |]]; reflexivity.
  - destruct to_ as [[[|] |] [[|] |] [[|] |] [[|] |] [[|] |]]; reflexivity.
  - unfold Xrpl.trustSetTx. rewrite !field_app. simpl.
    rewrite !field_spread_num_other by reflexivity. reflexivity.
Qed.

End Flags.

(** ** Memos *)

Section Memos.

Import PaymentUtils.

Ltac tests :=
  repeat match goal with
    | |- context [?a <=? ?b] =>
        destruct (Z.leb_spec a b);
        try (exfalso; Z.div_mod_to_equations; lia)
    | |- context [?a <? ?b] =>
        destruct (Z.ltb_spec a b);
        try (exfalso; Z.div_mod_to_equations; lia)
    | |- context [?a =? ?b] =>
        destruct (Z.eqb_spec a b);
        try (exfalso; Z.div_mod_to_equations; lia)
    end; cbn [andb orb].

Lemma decode_bytes (cp : Z) (rest : list Z) :
  scalar cp ->
  decode Start (utf8_bytes cp ++ rest) = (cp :: decode Start rest)%list.
Proof.
  intros [Hr Hs]. unfold utf8_bytes.
  destruct (Z.ltb_spec cp 0x80) as [H1 | H1].
  - cbn [app decode step]. unfold start. tests. reflexivity.
  - destruct (Z.ltb_spec cp 0x800) as [H2 | H2].
    + cbn [app decode step]. unfold start. tests.
      all: cbn [app decode step]; tests; cbn [app]; f_equal;
        Z.div_mod_to_equations; lia.
    + destruct (Z.ltb_spec cp 0x10000) as [H3 | H3].
      * cbn [app decode step]. unfold start. tests.
        all: cbn [app decode step]; tests; cbn [app decode step]; tests;
          cbn [app]; f_equal; Z.div_mod_to_equations; lia.
      * cbn [app decode step]. unfold start. tests.
        all: cbn [app decode step]; tests; cbn [app decode step]; tests;
          cbn [app decode step]; tests;
          cbn [app]; f_equal; Z.div_mod_to_equations; lia.
Qed.

Lemma units_pair (u v : Z) :
  is_high u = true -> is_low v = true -> units (pair_value u v) = [u; v].
Proof.
  unfold is_high, is_low, units, pair_value.
  rewrite !andb_true_iff, !Z.leb_le. intros [H1 H2] [H3 H4].
  destruct (Z.ltb_spec (65536 + (u - 55296) * 1024 + (v - 56320)) 65536); [lia |].
  f_equal; [| f_equal]; Z.div_mod_to_equations; lia.
Qed.

Lemma scalar_pair (u v : Z) :
  is_high u = true -> is_low v = true -> scalar (pair_value u v).
Proof.
  unfold is_high, is_low, scalar, pair_value.
  rewrite !andb_true_iff, !Z.leb_le. lia.
Qed.

Lemma scalar_unit (u : Z) :
  code_unit u -> is_high u = false -> is_low u = false -> scalar u.
Proof.
  unfold code_unit, is_high, is_low, scalar.
  rewrite !andb_false_iff, !Z.leb_gt. lia.
Qed.

Lemma scalar_replacement : scalar 0xFFFD.
Proof. unfold scalar. lia. Qed.

Lemma decode_encode_step (cp : Z) (rest : list Z) :
  scalar cp ->
  utf8_decode (utf8_bytes cp ++ rest) = (units cp ++ utf8_decode rest)%list.
Proof.
  intros H. unfold utf8_decode. rewrite (decode_bytes cp rest H). reflexivity.
Qed.

Lemma utf8_round_trip_bounded (n : nat) :
  forall t, (List.length t <= n)%nat -> Forall code_unit t ->
            utf8_decode (utf8_encode t) = scrub t.
Proof.
  induction n as [| n IH]; intros t Hlen Hu.
  - destruct t; [reflexivity | simpl in Hlen; lia].
  - destruct t as [| u r]; [reflexivity |].
    inversion Hu as [| ? ? Hcu Hr]; subst.
    cbn [utf8_encode scrub].
    destruct (is_high u) eqn:Hh.
    + destruct r as [| v r'].
      * rewrite <- (app_nil_r (utf8_bytes 65533)).
        rewrite (decode_encode_step _ _ scalar_replacement). reflexivity.
      * destruct (is_low v) eqn:Hl.
        -- rewrite (decode_encode_step _ _ (scalar_pair u v Hh Hl)).
           rewrite (units_pair u v Hh Hl).
           inversion Hr; subst.
           rewrite (IH r'); [reflexivity | simpl in Hlen; lia | assumption].
        -- rewrite (decode_encode_step _ _ scalar_replacement).
           rewrite (IH (v :: r')); [reflexivity | simpl in *; lia | assumption].
    + destruct (is_low u) eqn:Hl.
      * rewrite (decode_encode_step _ _ scalar_replacement).
        rewrite (IH r); [reflexivity | simpl in *; lia | assumption].
      * rewrite (decode_encode_step _ _ (scalar_unit u Hcu Hh Hl)).
        rewrite (IH r); [| simpl in *; lia | assumption].
        unfold units. destruct Hcu as [_ Hcu].
        destruct (Z.ltb_spec u 65536); [reflexivity | lia].
Qed.

Lemma utf8_round_trip (t : text) :
  Forall code_unit t -> utf8_decode (utf8_encode t) = scrub t.
Proof. apply (utf8_round_trip_bounded (List.length t)). lia. Qed.

Lemma utf8_bytes_range (cp : Z) : 0 <= cp < 0x110000 -> Forall byte (utf8_bytes cp).
Proof.
  intros H. unfold utf8_bytes, byte.
  repeat match goal with
    | |- context [?a <? ?b] => destruct (Z.ltb_spec a b)
    end;
    repeat constructor; Z.div_mod_to_equations; lia.
Qed.

Lemma utf8_encode_range_bounded (n : nat) :
  forall t, (List.length t <= n)%nat -> Forall code_unit t ->
            Forall byte (utf8_encode t).
Proof.
  induction n as [| n IH]; intros t Hlen Hu.
  - destruct t; [constructor | simpl in Hlen; lia].
  - destruct t as [| u r]; [constructor |].
    inversion Hu as [| ? ? Hcu Hr]; subst.
    cbn [utf8_encode].
    assert (Hrep : Forall byte (utf8_bytes 65533)) by (apply utf8_bytes_range; lia).
    destruct (is_high u) eqn:Hh.
    + destruct r as [| v r']; [exact Hrep |].
      destruct (is_low v) eqn:Hl.
      * apply Forall_app. split.
        -- apply utf8_bytes_range. apply (scalar_pair u v Hh Hl).
        -- inversion Hr; subst. apply IH; [simpl in Hlen; lia | assumption].
      * apply Forall_app. split; [exact Hrep |].
        apply IH; [simpl in *; lia | assumption].
    + destruct (is_low u) eqn:Hl.
      * apply Forall_app. split; [exact Hrep |].
        apply IH; [simpl in *; lia | assumption].
      * apply Forall_app. split.
        -- apply utf8_bytes_range. unfold code_unit in Hcu. lia.
        -- apply IH; [simpl in *; lia | assumption].
Qed.

Lemma utf8_encode_nonempty (t : text) : t <> [] -> utf8_encode t <> [].
Proof.
  destruct t as [| u r]; [contradiction |]. intros _.
  assert (Hb : forall cp rest, (utf8_bytes cp ++ rest)%list <> []).
  { intros cp rest. unfold utf8_bytes.
    repeat match goal with
      | |- context [?a <? ?b] => destruct (Z.ltb_spec a b)
      end; discriminate. }
  cbn [utf8_encode].
  destruct (is_high u).
  - destruct r as [| v r'].
    + rewrite <- (app_nil_r (utf8_bytes 65533)). apply Hb.
    + destruct (is_low v); apply Hb.
  - destruct (is_low u); apply Hb.
Qed.

Lemma hex_value_digit (n : nat) :
  (n < 16)%nat -> hex_value (hex_digit n) = Some n.
Proof.
  intros H.
  do 16 (destruct n as [| n]; [reflexivity |]).
  lia.
Qed.

Lemma hex_decode_upper (bs : list Z) :
  Forall byte bs -> hex_decode (hex_upper bs) = bs.
Proof.
  induction 1 as [| b bs Hb Hbs IH]; [reflexivity |].
  cbn [hex_upper hex_decode].
  unfold byte in Hb.
  rewrite !hex_value_digit
    by (apply Nat2Z.inj_lt; rewrite Z2Nat.id;
        [Z.div_mod_to_equations; lia | Z.div_mod_to_equations; lia]).
  rewrite IH. f_equal.
  rewrite Nat2Z.inj_add, Nat2Z.inj_mul, !Z2Nat.id
    by (Z.div_mod_to_equations; lia).
  Z.div_mod_to_equations; lia.
Qed.

Lemma hex_upper_length (bs : list Z) :
  String.length (hex_upper bs) = (2 * List.length bs)%nat.
Proof.
  induction bs as [| b bs IH]; [reflexivity |].
  cbn [hex_upper String.length List.length]. rewrite IH. lia.
Qed.

Lemma hex_upper_nonempty (bs : list Z) :
  nonempty_text (hex_upper bs) = match bs with [] => false | _ => true end.
Proof. destruct bs; reflexivity. Qed.

Lemma scrub_without_surrogates (t : text) :
  (forall u, In u t -> is_high u = false /\ is_low u = false) -> scrub t = t.
Proof.
  induction t as [| u r IH]; intros H; [reflexivity |].
  cbn [scrub].
  destruct (H u (or_introl eq_refl)) as [-> ->].
  rewrite IH; [reflexivity |]. intros x Hx. apply H. right. exact Hx.
Qed.

Lemma decode_field_created (t : text) :
  Forall code_unit t ->
  decode_field (Some (hex_upper (utf8_encode t)))
  = match t with [] => None | _ => Some (scrub t) end.
Proof.
  intros Ht. unfold decode_field. rewrite hex_upper_nonempty.
  destruct (utf8_encode t) as [| b bs] eqn:E.
  - destruct t as [| u r]; [reflexivity |].
    exfalso. apply (utf8_encode_nonempty (u :: r)); [discriminate | exact E].
  - destruct t as [| u r]; [discriminate E |].
    rewrite <- E.
    rewrite hex_decode_upper
      by (apply (utf8_encode_range_bounded (List.length (u :: r))); [lia | exact Ht]).
    rewrite (utf8_round_trip _ Ht). reflexivity.
Qed.



End Memos.

(** ** Balance *)

Section Balance.

Import Xrpl.

Lemma find_line_none (issuer : string) (ls : list json) :
  (forall l, In l ls -> is_rlusd_line issuer l = Ok false) ->
  find_line issuer ls = Ok None.
Proof.
  induction ls as [| l ls IH]; intros H; [reflexivity |].
  simpl. rewrite (H l (or_introl eq_refl)).
  apply IH. intros x Hx. apply H. right. exact Hx.
Qed.

Lemma find_line_first (issuer : string) (pre post : list json) (l : json) :
  (forall x, In x pre -> is_rlusd_line issuer x = Ok false) ->
  is_rlusd_line issuer l = Ok true ->
  find_line issuer (pre ++ l :: post) = Ok (Some l).
Proof.
  induction pre as [| x pre IH]; intros Hpre Hl; simpl.
  - rewrite Hl. reflexivity.
  - rewrite (Hpre x (or_introl eq_refl)).
    apply IH; [| exact Hl]. intros y Hy. apply Hpre. right. exact Hy.
Qed.

Lemma getRlusdBalance_runs (st : XrplClient) (account : string)
  (response : json) (ls : list json) :
  (forall h, connect_reply (ledger (client st)) h = Ok tt) ->
  (forall h, request_reply (ledger (client st)) h
               (Samples.account_lines_request st account) = Ok response) ->
  result_lines response = Ok (JArr ls) ->
  fst (getRlusdBalance account st)
  = match find_line (getIssuerAddress st) ls with
    | Ok line => Ok (balance_of line)
    | Throw e => Throw e
    end.
Proof.
  intros Hconn Hreq Hlines.
  assert (Hsp : spread_str "peer" (Some (getIssuerAddress st))
                = [("peer", JStr (getIssuerAddress st))]).
  { unfold getIssuerAddress. destruct (cfg_network (config st)); reflexivity. }
  unfold Samples.account_lines_request in Hreq.
  run_client. rewrite Hsp. cbn [app].
  destruct (isConnected st) eqn:Hc; run_client.
  - rewrite Hreq. run_client. rewrite Hlines. run_client.
    destruct (find_line _ ls); reflexivity.
  - rewrite Hconn. run_client. rewrite Hreq. run_client.
    rewrite Hlines. run_client.
    destruct (find_line _ ls); reflexivity.
Qed.

Lemma other_line_passed (issuer : string) (x : json) :
  other_line issuer x -> is_rlusd_line issuer x = Ok false.
Proof.
  intros (gs & -> & H). unfold is_rlusd_line, RLUSD_CURRENCY_CODE. f_equal.
  destruct (field "currency" gs) as [[| c | | | |] |]; try reflexivity.
  destruct (field "account" gs) as [[| a | | | |] |]; try reflexivity.
  destruct (String.eqb_spec c "RLUSD") as [-> | Hc]; [| reflexivity].
  destruct (String.eqb_spec a issuer) as [-> | Ha]; [| reflexivity].
  exfalso. destruct H as [H | H]; apply H; reflexivity.
Qed.

(** X15. [getRlusdBalance] asks the server for the account's lines with the
    issuer as peer and answers from the first line whose currency is RLUSD
    and whose account is exactly the issuer: the value of that line's
    [balance] property, or "0" when the property is missing or falsy; when
    no line matches (other currencies, other issuers, no line at all) the
    balance is "0" and nothing is thrown. *)
Theorem getRlusdBalance_first_matching_line (st : XrplClient) (account : string)
  (response : json) (ls : list json) :
  (forall h, connect_reply (ledger (client st)) h = Ok tt) ->
  (forall h, request_reply (ledger (client st)) h
               (Samples.account_lines_request st account) = Ok response) ->
  result_lines response = Ok (JArr ls) ->
  (Forall (other_line (getIssuerAddress st)) ls ->
   fst (getRlusdBalance account st) = Ok (JStr "0")) /\
  (forall pre fs post,
      ls = (pre ++ JObj fs :: post)%list ->
      Forall (other_line (getIssuerAddress st)) pre ->
      field "currency" fs = Some (JStr "RLUSD") ->
      field "account" fs = Some (JStr (getIssuerAddress st)) ->
      fst (getRlusdBalance account st)
      = Ok (match field "balance" fs with
            | Some v => if json_truthy v then v else JStr "0"
            | None => JStr "0"
            end)).
Proof.
  intros Hconn Hreq Hlines.
  rewrite (getRlusdBalance_runs st account response ls Hconn Hreq Hlines).
  split.
  - intros Hnone. rewrite find_line_none; [reflexivity |].
    intros l Hl. apply other_line_passed.
    rewrite Forall_forall in Hnone. apply Hnone. exact Hl.
  - intros pre fs post -> Hpre Hc Ha.
    rewrite (find_line_first _ pre post (JObj fs)).
    + reflexivity.
    + intros x Hx. apply other_line_passed.
      rewrite Forall_forall in Hpre. apply Hpre. exact Hx.
    + unfold is_rlusd_line, RLUSD_CURRENCY_CODE. rewrite Hc, Ha.
      rewrite !String.eqb_refl. reflexivity.
Qed.

Lemma getRlusdBalance_first_matching_line_witness :
  fst (getRlusdBalance "rAcct" Samples.lines_client) = Ok (JStr "12.5").
Proof.
  refine (proj2 (getRlusdBalance_first_matching_line Samples.lines_client "rAcct"
                   (JObj [("result", JObj [("lines", JArr Samples.lines)])])
                   Samples.lines (fun _ => eq_refl) (fun _ => eq_refl) eq_refl)
            [JObj [("currency", JStr "USD");
                   ("account", JStr "rQhWct2fTQgPdDT7Xp9e8Dg2btrKmcG5p");
                   ("balance", JStr "7")]]
            [("currency", JStr "RLUSD");
             ("account", JStr "rQhWct2fTQgPdDT7Xp9e8Dg2btrKmcG5p");
             ("balance", JStr "12.5")]
            [] eq_refl _ eq_refl eq_refl).
  constructor; [| constructor].
  eexists. split; [reflexivity |]. left. discriminate.
Defined.

End Balance.

(** ** The contract-ledger client *)

Section EthereumClient.

Import Ethereum.

Lemma all_hex_lower (s : string) :
  all_hex s = true -> all_hex (String_toLowerCase s) = true.
Proof.
  induction s as [| c s IH]; [reflexivity |].
  simpl. rewrite !andb_true_iff. intros [Hc Hs].
  split; [| apply IH; exact Hs].
  revert Hc. unfold is_hex, hex_value, lower_char.
  destruct c as [[|] [|] [|] [|] [|] [|] [|] [|]]; vm_compute; congruence.
Qed.

Lemma toLowerCase_length (s : string) :
  String.length (String_toLowerCase s) = String.length s.
Proof.
  induction s as [| c s IH]; simpl; [reflexivity | rewrite IH; reflexivity].
Qed.

(** X16. [isValidEthereumAddress] accepts exactly the texts of 42 characters
    that start with "0x" (lower-case x) and continue with 40 hexadecimal
    digits of either case; lower-casing a valid address keeps it valid, and
    the contract address the client uses is valid on every network. *)
Theorem isValidEthereumAddress_iff (a : string) :
  (isValidEthereumAddress a = true <->
   exists r, a = String "0" (String "x" r) /\
             String.length r = 40%nat /\ all_hex r = true) /\
  (isValidEthereumAddress a = true -> String.length a = 42%nat) /\
  (isValidEthereumAddress a = true ->
   isValidEthereumAddress (String_toLowerCase a) = true) /\
  (forall n, isValidEthereumAddress (contractAddress n) = true).
Proof.
  assert (Hiff : isValidEthereumAddress a = true <->
                 exists r, a = String "0" (String "x" r) /\
                           String.length r = 40%nat /\ all_hex r = true).
  { unfold isValidEthereumAddress. split.
    - destruct a as [| c0 a]; [discriminate |].
      destruct c0 as [[|] [|] [|] [|] [|] [|] [|] [|]]; try discriminate.
      destruct a as [| c1 r]; [discriminate |].
      destruct c1 as [[|] [|] [|] [|] [|] [|] [|] [|]]; try discriminate.
      rewrite andb_true_iff, Nat.eqb_eq. intros [Hl Hh].
      exists r. repeat split; assumption.
    - intros (r & -> & Hl & Hh). rewrite Hl, Hh. reflexivity. }
  split; [exact Hiff |]. split; [| split].
  - intros H. apply Hiff in H. destruct H as (r & -> & Hl & _).
    simpl. rewrite Hl. reflexivity.
  - intros H. apply Hiff in H. destruct H as (r & -> & Hl & Hh).
    simpl. change (lower_char "0") with "0"%char. change (lower_char "x") with "x"%char.
    rewrite toLowerCase_length, Hl, (all_hex_lower _ Hh). reflexivity.
  - intros n. destruct n; reflexivity.
Qed.

(** X17. [transfer], [approve] and [transferFrom] parse the amount before
    anything is sent: an amount that [parseUnits] rejects makes the call fail
    with that error and no contract call or wait has been made; otherwise
    the contract call carrying the parsed value is the first call made. *)
Theorem ethereum_send_parses_amount_first (st : EthereumClient)
  (amount : string) (mk : Z -> call) :
  contract st = true ->
  (forall e, parseUnits (chain st) amount 18 = Throw e ->
             send amount mk st = (Throw e, st)) /\
  (forall v, parseUnits (chain st) amount 18 = Ok v ->
             exists rest, log (snd (send amount mk st)) = (log st ++ mk v :: rest)%list).
Proof.
  intros Hc. unfold send. rewrite Hc. simpl. split.
  - intros e He. rewrite He. reflexivity.
  - intros v Hv. rewrite Hv.
    destruct (send_reply (chain st) (log st) (mk v)) as [u | e]; simpl.
    + destruct (wait_reply _ _) as [rc | e]; simpl;
        exists [Wait]; rewrite <- app_assoc; reflexivity.
    + exists []. reflexivity.
Qed.

Lemma ethereum_send_parses_amount_first_witness :
  (forall e, parseUnits (chain Samples.signer) "1.5" 18 = Throw e ->
             send "1.5" (ContractTransfer "0x02") Samples.signer
             = (Throw e, Samples.signer)) /\
  (forall v, parseUnits (chain Samples.signer) "1.5" 18 = Ok v ->
             exists rest,
               log (snd (send "1.5" (ContractTransfer "0x02") Samples.signer))
               = (log Samples.signer ++ ContractTransfer "0x02" v :: rest)%list).
Proof.
  apply (ethereum_send_parses_amount_first Samples.signer "1.5"
           (ContractTransfer "0x02")).
  reflexivity.
Defined.

End EthereumClient.

(** ** Submission protocol *)

Section Submission.

Import Xrpl.

(** X18. [submitTransaction] talks to the ledger in a fixed order and stops
    at the first failure: without a wallet nothing is sent; with a wallet the
    transaction is autofilled first; when autofill fails, or when the wallet
    refuses to sign the prepared transaction, nothing is submitted and that
    error is the one thrown; otherwise the signed blob is submitted, exactly
    once.  No other call is made and the connection flag is left as it
    was. *)
Theorem submitTransaction_calls (tx : object) (st : XrplClient) :
  log (client (snd (submitTransaction tx st)))
  = (log (client st) ++
     match wallet st with
     | None => []
     | Some w =>
         match autofill_reply (ledger (client st)) (log (client st)) tx with
         | Throw _ => [Autofill tx]
         | Ok prepared =>
             match sign w prepared with
             | Throw _ => [Autofill tx]
             | Ok blob => [Autofill tx; SubmitAndWait blob]
             end
         end
     end)%list /\
  isConnected (snd (submitTransaction tx st)) = isConnected st /\
  (forall w prepared e,
      wallet st = Some w ->
      autofill_reply (ledger (client st)) (log (client st)) tx = Ok prepared ->
      sign w prepared = Throw e ->
      fst (submitTransaction tx st) = Throw e) /\
  (forall w e,
      wallet st = Some w ->
      autofill_reply (ledger (client st)) (log (client st)) tx = Throw e ->
      fst (submitTransaction tx st) = Throw e).
Proof.
  split; [| split; [| split]].
  - run_client.
    destruct (wallet st) as [w |]; run_client.
    + destruct (autofill_reply _ _ _) as [prepared | e]; run_client.
      * destruct (sign w prepared) as [blob | e]; run_client.
        -- destruct (submit_reply _ _ _) as [r | e]; run_client;
             rewrite <- app_assoc; reflexivity.
        -- reflexivity.
      * reflexivity.
    + rewrite app_nil_r. reflexivity.
  - run_client.
    destruct (wallet st) as [w |]; run_client; [| reflexivity].
    destruct (autofill_reply _ _ _) as [prepared | e]; run_client; [| reflexivity].
    destruct (sign w prepared) as [blob | e]; run_client; [| reflexivity].
    destruct (submit_reply _ _ _) as [r | e]; reflexivity.
  - intros w prepared e Hw Ha Hs. run_client.
    rewrite Hw. run_client. rewrite Ha. run_client. rewrite Hs. reflexivity.
  - intros w e Hw Ha. run_client.
    rewrite Hw. run_client. rewrite Ha. reflexivity.
Qed.

(** X19. Whatever the configured network, the issuer the client uses is one
    of the official issuers of the issuer table and has the shape the node's
    XRPL address check accepts; a custom network uses the mainnet issuer. *)
Theorem client_issuer_is_official (st : XrplClient) :
  Issuer.isOfficialIssuer (getIssuerAddress st) = true /\
  RlusdNode.validateXrplAddress (getIssuerAddress st) = true /\
  (cfg_network (config st) = Custom ->
   Some (getIssuerAddress st) = Issuer.getIssuerAddress "mainnet").
Proof.
  unfold getIssuerAddress.
  destruct (cfg_network (config st)); repeat split; try reflexivity; discriminate.
Qed.

End Submission.

(** ** Amounts *)

Section Amounts.

Import AmountUtils.

Lemma SFcompare_antisym (x y : number) :
  SFcompare y x = option_map CompOpp (SFcompare x y).
Proof.
  destruct x as [sx | sx | | sx mx ex], y as [sy | sy | | sy my ey];
    try reflexivity;
    try (destruct sx; reflexivity);
    try (destruct sy; reflexivity);
    try (destruct sx, sy; reflexivity).
  unfold SFcompare.
  rewrite (Z.compare_antisym ex ey).
  pose proof (Pos.compare_cont_antisym mx my Eq) as H. simpl in H.
  destruct sx, sy; simpl; try reflexivity;
    destruct (ex ?= ey) eqn:E; simpl; try reflexivity;
    rewrite <- H; rewrite ?CompOpp_involutive; reflexivity.
Qed.

(** X20. [compareAmounts] is antisymmetric for all texts,
    [compareAmounts b a = - compareAmounts a b], and so gives 0 for a text
    against itself; it also gives 0, "equal", as soon as one of the texts
    does not parse as a number. *)
Theorem compareAmounts_antisymmetric (a b : string) :
  compareAmounts b a = - compareAmounts a b /\
  compareAmounts a a = 0 /\
  (parseFloat a = NaN -> compareAmounts a b = 0 /\ compareAmounts b a = 0).
Proof.
  assert (Hanti : forall s t, compareAmounts t s = - compareAmounts s t).
  { intros s t. unfold compareAmounts, lt, gt, SFltb.
    rewrite (SFcompare_antisym (parseFloat s) (parseFloat t)).
    destruct (SFcompare (parseFloat s) (parseFloat t)) as [[| |] |]; reflexivity. }
  split; [apply Hanti |]. split.
  - pose proof (Hanti a a). lia.
  - intros Hnan.
    assert (H0 : compareAmounts a b = 0).
    { unfold compareAmounts, lt, gt, SFltb. rewrite Hnan.
      destruct (parseFloat b); reflexivity. }
    split; [exact H0 |]. rewrite Hanti, H0. reflexivity.
Qed.

(** The character [.] occurs in the text. *)
Lemma has_dot_trim_start (s : string) :
  has_dot s = true -> has_dot (trim_start s) = true.
Proof.
  induction s as [| c s IH]; [discriminate |].
  cbn [trim_start]. destruct (is_space c) eqn:Hsp; [| trivial].
  cbn [has_dot]. destruct (Ascii.eqb_spec c ".") as [-> | Hne].
  - discriminate.
  - simpl. exact IH.
Qed.

Lemma has_dot_trim_end (s : string) :
  has_dot s = true -> has_dot (trim_end s) = true.
Proof.
  induction s as [| c s IH]; [discriminate |].
  cbn [has_dot trim_end]. destruct (Ascii.eqb_spec c ".") as [-> | Hne]; simpl.
  - intros _. destruct (trim_end s); reflexivity.
  - intros H. specialize (IH H).
    destruct (trim_end s) as [| c' s']; [discriminate |].
    cbn [has_dot]. destruct (Ascii.eqb c "."); [reflexivity | exact IH].
Qed.

Lemma has_dot_not_all_digits (s : string) :
  has_dot s = true -> all_digits s = false.
Proof.
  induction s as [| c s IH]; [discriminate |].
  cbn [has_dot all_digits]. destruct (Ascii.eqb_spec c ".") as [-> | Hne]; simpl.
  - reflexivity.
  - intros H. rewrite (IH H). apply andb_false_r.
Qed.

Lemma has_dot_read_radix (radix : Z) (s : string) (acc : Z) :
  radix <= 16 -> has_dot s = true -> read_radix radix s acc = None.
Proof.
  intros Hr. revert acc.
  induction s as [| c s IH]; intros acc; [discriminate |].
  cbn [has_dot read_radix]. destruct (Ascii.eqb_spec c ".") as [-> | Hne]; simpl.
  - intros _. unfold radix_digit. simpl.
    destruct (Z.ltb_spec 16 radix); [lia | reflexivity].
  - intros H. destruct (radix_digit radix c); [apply IH; exact H | reflexivity].
Qed.

Lemma signed_decimal_dot (s : string) :
  has_dot s = true -> signed_decimal s = Throw SyntaxError.
Proof.
  destruct s as [| c r]; [discriminate |].
  unfold signed_decimal.
  destruct (Ascii.eqb_spec c "-") as [-> | Hm].
  - cbn [has_dot]. simpl. intros H.
    destruct r; [discriminate |].
    rewrite (has_dot_not_all_digits _ H). reflexivity.
  - destruct (Ascii.eqb_spec c "+") as [-> | Hp].
    + cbn [has_dot]. simpl. intros H.
      destruct r; [discriminate |].
      rewrite (has_dot_not_all_digits _ H). reflexivity.
    + intros H. rewrite (has_dot_not_all_digits _ H). reflexivity.
Qed.

Lemma BigInt_of_string_dot (s : string) :
  has_dot s = true -> BigInt_of_string s = Throw SyntaxError.
Proof.
  intros H.
  pose proof (has_dot_trim_end _ (has_dot_trim_start _ H)) as Ht.
  unfold BigInt_of_string.
  destruct (trim_end (trim_start s)) as [| c0 t] eqn:E; [discriminate |].
  destruct c0 as [[|] [|] [|] [|] [|] [|] [|] [|]];
    try (apply signed_decimal_dot; exact Ht).
  destruct t as [| c1 [| c2 r]];
    try (apply signed_decimal_dot; exact Ht).
  destruct (radix_of_prefix c1) as [radix |] eqn:Hr;
    [| apply signed_decimal_dot; exact Ht].
  assert (Hrad : radix <= 16).
  { unfold radix_of_prefix in Hr.
    destruct (_ || _)%bool; [inversion Hr; lia |].
    destruct (_ || _)%bool; [inversion Hr; lia |].
    destruct (_ || _)%bool; [inversion Hr; lia | discriminate]. }
  assert (Hc1 : Ascii.eqb c1 "." = false).
  { destruct (Ascii.eqb_spec c1 ".") as [-> |]; [discriminate | reflexivity]. }
  assert (Ht' : has_dot (String c2 r) = true).
  { cbn [has_dot] in Ht. rewrite Hc1 in Ht. exact Ht. }
  rewrite (has_dot_read_radix radix _ 0 Hrad Ht'). reflexivity.
Qed.

(** X21. The smallest-unit converters take whole numbers only: for every
    text containing a decimal point, [dropsToXrp] and [weiToEth] throw a
    SyntaxError instead of rounding or truncating the amount. *)
Theorem smallest_unit_text_must_be_integral (s : string) :
  has_dot s = true ->
  dropsToXrp (inl s) = Throw SyntaxError /\
  weiToEth (inl s) = Throw SyntaxError.
Proof.
  intros H. unfold dropsToXrp, weiToEth.
  rewrite (BigInt_of_string_dot s H). split; reflexivity.
Qed.

Lemma smallest_unit_text_must_be_integral_witness :
  dropsToXrp (inl "1.5") = Throw SyntaxError /\
  weiToEth (inl "1.5") = Throw SyntaxError.
Proof.
  apply (smallest_unit_text_must_be_integral "1.5"). reflexivity.
Defined.

End Amounts.

(** ** Rounding: integers, truncation and validity *)

Section Rounding.

Import AmountUtils.

Lemma iter_pos_iter {A} (f : A -> A) (n : positive) (x : A) :
  iter_pos f n x = Pos.iter f x n.
Proof.
  revert x. induction n as [n IH | n IH |]; intros x; simpl.
  - rewrite !IH. rewrite <- !Pos.iter_swap. reflexivity.
  - rewrite !IH. reflexivity.
  - reflexivity.
Qed.

Lemma digits2_iter_xO (k m : positive) :
  digits2_pos (Pos.iter xO m k) = (digits2_pos m + k)%positive.
Proof.
  induction k as [| k IH] using Pos.peano_ind.
  - simpl. rewrite Pos.add_1_r. reflexivity.
  - rewrite Pos.iter_succ. simpl. rewrite IH, Pos.add_succ_r. reflexivity.
Qed.

Lemma Zpos_iter_xO (k m : positive) :
  Zpos (Pos.iter xO m k) = Zpos m * 2 ^ Zpos k.
Proof.
  induction k as [| k IH] using Pos.peano_ind.
  - simpl. lia.
  - rewrite Pos.iter_succ, Pos2Z.inj_succ, Z.pow_succ_r by lia.
    rewrite Pos2Z.inj_xO, IH. lia.
Qed.

Lemma shr_iter_xO (k m : positive) :
  iter_pos shr_1 k {| shr_m := Zpos (Pos.iter xO m k); shr_r := false; shr_s := false |}
  = {| shr_m := Zpos m; shr_r := false; shr_s := false |}.
Proof.
  rewrite iter_pos_iter.
  induction k as [| k IH] using Pos.peano_ind.
  - reflexivity.
  - rewrite Pos.iter_succ_r, Pos.iter_succ. simpl shr_1. exact IH.
Qed.

(** Rounding an exact 53-bit mantissa changes nothing. *)
Lemma round_aux_exact (s : bool) (m : positive) (e : Z) :
  Zpos (digits2_pos m) = 53 -> -1074 <= e <= 971 ->
  binary_round_aux prec emax s (Zpos m) e loc_Exact = S754_finite s m e.
Proof.
  intros Hd He.
  unfold binary_round_aux, shr_fexp, Zdigits2, shr_record_of_loc.
  rewrite Hd.
  assert (Hf : fexp prec emax (53 + e) - e = 0).
  { unfold fexp, emin, prec, emax. lia. }
  rewrite Hf. cbn [shr shr_m loc_of_shr_record round_nearest_even Zdigits2].
  rewrite Hd, Hf. cbn [shr shr_m].
  unfold emax, prec.
  destruct (Z.leb_spec e (1024 - 53)); [reflexivity | lia].
Qed.

(** A non-zero integer below [2 ^ 53] in magnitude is represented exactly. *)
Lemma round_small (s : bool) (p : positive) :
  Zpos (digits2_pos p) <= 53 ->
  exists (m : positive) (e : Z),
    binary_round prec emax s p 0 = S754_finite s m e /\
    -52 <= e <= 0 /\ Zpos m = Zpos p * 2 ^ (- e) /\ Zpos (digits2_pos m) = 53.
Proof.
  intros Hd. unfold binary_round, shl_align.
  assert (Hf : fexp prec emax (Zpos (digits2_pos p) + 0) = Zpos (digits2_pos p) - 53).
  { unfold fexp, emin, prec, emax. lia. }
  rewrite Hf.
  destruct (Zpos (digits2_pos p) - 53 - 0) as [| d | d] eqn:E.
  - exists p, 0. split; [apply round_aux_exact; lia |].
    split; [lia |]. split; [simpl; lia | lia].
  - lia.
  - exists (Pos.iter xO p d), (Zpos (digits2_pos p) - 53).
    split.
    + apply round_aux_exact; [| lia].
      rewrite digits2_iter_xO. lia.
    + split; [lia |]. split.
      * rewrite Zpos_iter_xO. f_equal. f_equal. lia.
      * rewrite digits2_iter_xO. lia.
Qed.

(** An integer at or above [2 ^ 52 * 2 ^ e] that is a 53-bit multiple of
    [2 ^ e] is represented by that mantissa and exponent. *)
Lemma round_large (s : bool) (m k : positive) :
  Zpos (digits2_pos m) = 53 -> Zpos k <= 971 ->
  binary_round prec emax s (Pos.iter xO m k) 0 = S754_finite s m (Zpos k).
Proof.
  intros Hd Hk. unfold binary_round, shl_align.
  rewrite digits2_iter_xO.
  assert (Hf : fexp prec emax (Zpos (digits2_pos m + k) + 0) = Zpos k).
  { unfold fexp, emin, prec, emax. lia. }
  rewrite Hf, Z.sub_0_r. cbv beta iota zeta.
  unfold binary_round_aux, shr_fexp, Zdigits2, shr_record_of_loc.
  rewrite digits2_iter_xO, Hf, Z.sub_0_r. cbn [shr].
  rewrite shr_iter_xO, Z.add_0_l. cbn [shr_m loc_of_shr_record round_nearest_even Zdigits2].
  assert (Hf' : fexp prec emax (Zpos (digits2_pos m) + Zpos k) - Zpos k = 0).
  { unfold fexp, emin, prec, emax. lia. }
  rewrite Hf'. cbn [shr shr_m].
  unfold emax, prec.
  destruct (Z.leb_spec (Zpos k) (1024 - 53)); [reflexivity | lia].
Qed.

Lemma digits_le_53 (p : positive) : Zpos p < 2 ^ 53 -> Zpos (digits2_pos p) <= 53.
Proof.
  intros H. pose proof (digits2_pos_bounds p) as [Hlo _].
  destruct (Z.le_gt_cases (Zpos (digits2_pos p)) 53) as [L | G]; [exact L |].
  exfalso.
  assert (2 ^ 53 <= 2 ^ (Zpos (digits2_pos p) - 1)) by (apply Z.pow_le_mono_r; lia).
  lia.
Qed.

Lemma digits_eq_53 (p : positive) :
  2 ^ 52 <= Zpos p < 2 ^ 53 -> Zpos (digits2_pos p) = 53.
Proof.
  intros [Hlo Hhi]. pose proof (digits_le_53 p Hhi) as Hle.
  pose proof (digits2_pos_bounds p) as [_ Hub].
  destruct (Z.le_gt_cases 53 (Zpos (digits2_pos p))) as [L | G]; [lia |].
  exfalso.
  assert (2 ^ Zpos (digits2_pos p) <= 2 ^ 52) by (apply Z.pow_le_mono_r; lia).
  lia.
Qed.

(** Every integer below [2 ^ 53] in magnitude converts to a number that is
    integral and has that integer as its value. *)
Lemma of_Z_exact (z : Z) :
  Z.abs z < 2 ^ 53 ->
  Number_isInteger (of_Z z) = true /\ floorZ (of_Z z) = Some z.
Proof.
  intros Hz. unfold of_Z, binary_normalize.
  destruct z as [| p | p].
  - split; reflexivity.
  - destruct (round_small false p) as (m & e & -> & He & Hm & _).
    { apply digits_le_53. exact Hz. }
    unfold Number_isInteger, floorZ, exact, signed.
    destruct (Z.leb_spec 0 e) as [H0 | H0].
    + assert (e = 0) by lia. subst e. simpl in Hm. simpl Z.pow.
      rewrite Z.mod_1_r, Z.div_1_r. split; [reflexivity |]. f_equal. lia.
    + rewrite Hm, Z.mod_mul, Z.div_mul by (apply Z.pow_nonzero; lia).
      split; reflexivity.
  - destruct (round_small true p) as (m & e & -> & He & Hm & _).
    { apply digits_le_53. exact Hz. }
    unfold Number_isInteger, floorZ, exact, signed.
    destruct (Z.leb_spec 0 e) as [H0 | H0].
    + assert (e = 0) by lia. subst e. simpl in Hm. simpl Z.pow.
      rewrite Z.mod_1_r, Z.div_1_r. split; [reflexivity |]. f_equal. lia.
    + replace (Zneg m) with ((- Zpos p) * 2 ^ (- e)) by lia.
      rewrite Z.mod_mul, Z.div_mul by (apply Z.pow_nonzero; lia).
      split; [reflexivity |]. f_equal.
Qed.

(** [Math.floor] of a finite number is an integral number, and its value is
    the floor of the value it is given. *)
Lemma Math_floor_integral (y : number) (z : Z) :
  valid_binary prec emax y = true -> floorZ y = Some z ->
  Number_isInteger (Math_floor y) = true /\ floorZ (Math_floor y) = Some z.
Proof.
  intros Hv Hz. destruct y as [s | s | | s m e]; try discriminate.
  - injection Hz as <-. split; reflexivity.
  - unfold Math_floor. rewrite Hz.
    pose proof (valid_finite s m e Hv) as (Hm & He & Hn).
    assert (Hemax : e <= 971).
    { unfold valid_binary, bounded in Hv. apply andb_true_iff in Hv.
      destruct Hv as [_ Hv]. apply Z.leb_le in Hv. exact Hv. }
    unfold floorZ, exact in Hz.
    destruct (Z.leb_spec 0 e) as [H0 | H0].
    + injection Hz as <-. rewrite Z.div_1_r.
      assert (Hd : Zpos (digits2_pos m) = 53) by (apply digits_eq_53; split; [apply Hn |]; lia).
      destruct e as [| k | k]; [| | lia].
      * rewrite Z.mul_1_r. apply of_Z_exact.
        destruct s; simpl; lia.
      * assert (E : of_Z (signed s m * 2 ^ Zpos k) = S754_finite s m (Zpos k)).
        { rewrite <- (round_large s m k Hd Hemax).
          unfold of_Z, binary_normalize.
          destruct s; unfold signed.
          - replace (Zneg m * 2 ^ Zpos k) with (Zneg (Pos.iter xO m k))
              by (rewrite <- !Pos2Z.opp_pos, Zpos_iter_xO; lia).
            reflexivity.
          - rewrite <- Zpos_iter_xO. reflexivity. }
        rewrite E. unfold Number_isInteger, floorZ, exact.
        change (0 <=? Zpos k) with true. cbv iota.
        rewrite Z.mod_1_r, Z.div_1_r. split; reflexivity.
    + injection Hz as <-. apply of_Z_exact.
      assert (Hq : 0 < 2 ^ (- e)) by (apply Z.pow_pos_nonneg; lia).
      destruct s; unfold signed.
      * assert (- Zpos m <= Zneg m / 2 ^ (- e) <= 0).
        { split.
          - apply Z.div_le_lower_bound; [exact Hq |]. nia.
          - apply Z.div_le_upper_bound; [exact Hq |]. lia. }
        lia.
      * assert (0 <= Zpos m / 2 ^ (- e) <= Zpos m).
        { split.
          - apply Z.div_pos; lia.
          - apply Z.div_le_upper_bound; [exact Hq |]. nia. }
        lia.
Qed.

Lemma digits_le (p : positive) (k : Z) :
  0 <= k -> Zpos p < 2 ^ k -> Zpos (digits2_pos p) <= k.
Proof.
  intros Hk H. pose proof (digits2_pos_bounds p) as [Hlo _].
  destruct (Z.le_gt_cases (Zpos (digits2_pos p)) k) as [L | G]; [exact L |].
  exfalso.
  assert (2 ^ k <= 2 ^ (Zpos (digits2_pos p) - 1)) by (apply Z.pow_le_mono_r; lia).
  lia.
Qed.

Lemma shr_1_m (r : shr_record) : 0 <= shr_m r -> shr_m (shr_1 r) = shr_m r / 2.
Proof.
  destruct r as [[| [p | p |] | p] b c]; cbn [shr_1 shr_m]; intros H.
  - reflexivity.
  - apply Z.div_unique with (r := 1); lia.
  - apply Z.div_unique with (r := 0); lia.
  - reflexivity.
  - lia.
Qed.

Lemma shr_iter_m (n : positive) (r : shr_record) :
  0 <= shr_m r -> shr_m (iter_pos shr_1 n r) = shr_m r / 2 ^ Zpos n.
Proof.
  intros H. rewrite iter_pos_iter.
  induction n as [| n IH] using Pos.peano_ind.
  - cbn [Pos.iter]. rewrite shr_1_m by exact H. reflexivity.
  - rewrite Pos.iter_succ, shr_1_m.
    + rewrite IH, Pos2Z.inj_succ, Z.pow_succ_r by lia.
      rewrite Z.div_div by (try apply Z.pow_pos_nonneg; lia).
      f_equal. lia.
    + rewrite IH. apply Z.div_pos; [exact H | apply Z.pow_pos_nonneg; lia].
Qed.

Lemma shr_record_of_loc_m (m : Z) (l : location) : shr_m (shr_record_of_loc m l) = m.
Proof. destruct l as [| []]; reflexivity. Qed.

(** One truncation step keeps a mantissa below [B * 2 ^ (- e)] below the
    same bound at the new exponent, which stays at or below [-21]. *)
Lemma shr_fexp_lt (B m e : Z) (l : location) :
  0 <= m -> e <= -21 -> 0 < B <= 2 ^ 32 -> m < B * 2 ^ (- e) ->
  0 <= shr_m (fst (shr_fexp prec emax m e l)) /\
  snd (shr_fexp prec emax m e l) <= -21 /\
  shr_m (fst (shr_fexp prec emax m e l)) < B * 2 ^ (- snd (shr_fexp prec emax m e l)).
Proof.
  intros Hm He HB Hlt. unfold shr_fexp.
  assert (Hd : Zdigits2 m + e <= 32).
  { destruct m as [| p | p]; [simpl; lia | | lia].
    cbn [Zdigits2].
    assert (Zpos (digits2_pos p) <= 32 - e); [| lia].
    apply digits_le; [lia |].
    eapply Z.lt_le_trans; [exact Hlt |].
    replace (32 - e) with (32 + - e) by lia.
    rewrite Z.pow_add_r by lia.
    apply Z.mul_le_mono_nonneg_r; [apply Z.pow_nonneg; lia | lia]. }
  assert (Hf : fexp prec emax (Zdigits2 m + e) <= -21).
  { unfold fexp, emin, prec, emax. lia. }
  destruct (fexp prec emax (Zdigits2 m + e) - e) as [| n | n] eqn:En;
    cbn [shr fst snd]; rewrite ?shr_record_of_loc_m.
  - split; [exact Hm |]. split; [exact He | exact Hlt].
  - rewrite shr_iter_m by (rewrite shr_record_of_loc_m; exact Hm).
    rewrite shr_record_of_loc_m.
    assert (Hp : 0 < 2 ^ Zpos n) by (apply Z.pow_pos_nonneg; lia).
    split; [apply Z.div_pos; [exact Hm | exact Hp] |].
    split; [lia |].
    apply Z.div_lt_upper_bound; [exact Hp |].
    replace (- e) with (Zpos n + - (e + Zpos n)) in Hlt by lia.
    rewrite Z.pow_add_r in Hlt by lia.
    lia.
  - split; [exact Hm |]. split; [exact He | exact Hlt].
Qed.

Lemma round_nearest_even_bounds (m : Z) (l : location) :
  m <= round_nearest_even m l <= m + 1.
Proof.
  destruct l as [| []]; cbn [round_nearest_even]; try destruct (Z.even m); lia.
Qed.


Lemma digits_unique (p : positive) (k : Z) :
  2 ^ (k - 1) <= Zpos p < 2 ^ k -> Zpos (digits2_pos p) = k.
Proof.
  intros [Hlo Hhi].
  pose proof (digits2_pos_bounds p) as [Hlo' Hhi'].
  assert (Hk : 0 <= k).
  { destruct (Z.le_gt_cases 0 k) as [L | G]; [exact L |].
    rewrite Z.pow_neg_r in Hhi by lia. lia. }
  destruct (Z.lt_trichotomy (Zpos (digits2_pos p)) k) as [L | [E | G]]; [| exact E |].
  - exfalso.
    assert (2 ^ Zpos (digits2_pos p) <= 2 ^ (k - 1)) by (apply Z.pow_le_mono_r; lia).
    lia.
  - exfalso.
    assert (2 ^ k <= 2 ^ (Zpos (digits2_pos p) - 1)) by (apply Z.pow_le_mono_r; lia).
    lia.
Qed.

Lemma Zdigits2_mono (a b : Z) : 0 <= a <= b -> Zdigits2 a <= Zdigits2 b.
Proof.
  intros [Ha Hab].
  destruct a as [| p | p]; [| | lia].
  - destruct b as [| q | q]; cbn [Zdigits2]; lia.
  - destruct b as [| q | q]; [lia | | lia]. cbn [Zdigits2].
    pose proof (digits2_pos_bounds p) as [Hlo _].
    pose proof (digits2_pos_bounds q) as [_ Hhi].
    destruct (Z.le_gt_cases (Zpos (digits2_pos p)) (Zpos (digits2_pos q))) as [L | G];
      [exact L |].
    exfalso.
    assert (2 ^ Zpos (digits2_pos q) <= 2 ^ (Zpos (digits2_pos p) - 1))
      by (apply Z.pow_le_mono_r; lia).
    lia.
Qed.

(** The digits of a positive quotient by a power of two. *)
Lemma Zdigits2_div (m : positive) (n : Z) :
  0 < n -> 0 < Zpos m / 2 ^ n ->
  Zdigits2 (Zpos m / 2 ^ n) = Zpos (digits2_pos m) - n.
Proof.
  intros Hn Hq.
  pose proof (digits2_pos_bounds m) as [Hlo Hhi].
  assert (Hp : 0 < 2 ^ n) by (apply Z.pow_pos_nonneg; lia).
  set (d := Zpos (digits2_pos m)) in *.
  assert (Hdn : n < d).
  { destruct (Z.lt_ge_cases n d) as [L | G]; [exact L |]. exfalso.
    assert (2 ^ d <= 2 ^ n) by (apply Z.pow_le_mono_r; lia).
    rewrite Z.div_small in Hq by lia. lia. }
  destruct (Zpos m / 2 ^ n) as [| q | q] eqn:E; [lia | | lia].
  cbn [Zdigits2]. apply digits_unique. rewrite <- E. split.
  - apply Z.div_le_lower_bound; [exact Hp |].
    rewrite <- Z.pow_add_r by lia.
    replace (n + (d - n - 1)) with (d - 1) by lia. exact Hlo.
  - apply Z.div_lt_upper_bound; [exact Hp |].
    rewrite <- Z.pow_add_r by lia.
    replace (n + (d - n)) with d by lia. exact Hhi.
Qed.

(** A truncation step that starts at or below the exponent its mantissa
    calls for ends exactly at the exponent its result calls for. *)
Lemma shr_fexp_canonical (m e : Z) (l : location) :
  0 < m -> e <= fexp prec emax (Zdigits2 m + e) ->
  0 <= shr_m (fst (shr_fexp prec emax m e l)) /\
  fexp prec emax (Zdigits2 (shr_m (fst (shr_fexp prec emax m e l)))
                  + snd (shr_fexp prec emax m e l))
  = snd (shr_fexp prec emax m e l).
Proof.
  intros Hm He. unfold shr_fexp.
  destruct m as [| p | p]; [lia | | lia].
  destruct (fexp prec emax (Zdigits2 (Zpos p) + e) - e) as [| n | n] eqn:En;
    cbn [shr fst snd]; rewrite ?shr_record_of_loc_m.
  - split; [lia |]. lia.
  - rewrite shr_iter_m by (rewrite shr_record_of_loc_m; lia).
    rewrite shr_record_of_loc_m.
    assert (Hp : 0 < 2 ^ Zpos n) by (apply Z.pow_pos_nonneg; lia).
    assert (Hq : 0 <= Zpos p / 2 ^ Zpos n) by (apply Z.div_pos; lia).
    split; [exact Hq |].
    destruct (Z.eq_dec (Zpos p / 2 ^ Zpos n) 0) as [E0 | N0].
    + rewrite E0. cbn [Zdigits2].
      assert (Hlt : Zpos p < 2 ^ Zpos n).
      { apply Z.div_small_iff in E0; lia. }
      pose proof (digits_le p (Zpos n) ltac:(lia) Hlt) as Hd.
      cbn [Zdigits2] in En.
      revert En. unfold fexp, emin, prec, emax. lia.
    + rewrite Zdigits2_div by lia.
      cbn [Zdigits2] in En.
      replace (Zpos (digits2_pos p) - Zpos n + (e + Zpos n))
        with (Zpos (digits2_pos p) + e) by lia.
      lia.
  - lia.
Qed.

(** Rounding yields a valid number whenever it starts at or below the
    exponent of its mantissa. *)
Lemma round_aux_valid (s : bool) (M : positive) (e : Z) (l : location) :
  e <= fexp prec emax (Zpos (digits2_pos M) + e) ->
  valid_binary prec emax (binary_round_aux prec emax s (Zpos M) e l) = true.
Proof.
  intros He. unfold binary_round_aux.
  pose proof (shr_fexp_canonical (Zpos M) e l ltac:(lia) He) as H1.
  destruct (shr_fexp prec emax (Zpos M) e l) as [r1 e1].
  cbn [fst snd] in H1. destruct H1 as [H1a H1b].
  pose proof (round_nearest_even_bounds (shr_m r1) (loc_of_shr_record r1)) as Hr.
  set (m1 := round_nearest_even (shr_m r1) (loc_of_shr_record r1)) in *.
  destruct (Z.eq_dec m1 0) as [E0 | N0].
  - rewrite E0. unfold shr_fexp. cbn [Zdigits2].
    destruct (fexp prec emax (0 + e1) - e1) as [| n | n]; cbn [shr shr_record_of_loc].
    + reflexivity.
    + rewrite shr_iter_m by (cbn [shr_m]; lia). reflexivity.
    + reflexivity.
  - pose proof (shr_fexp_canonical m1 e1 loc_Exact ltac:(lia)) as H2.
    destruct (shr_fexp prec emax m1 e1 loc_Exact) as [r2 e2].
    cbn [fst snd] in H2.
    destruct H2 as [H2a H2b].
    { rewrite <- H1b at 1.
      pose proof (Zdigits2_mono (shr_m r1) m1 ltac:(lia)).
      unfold fexp, emin, prec, emax. lia. }
    destruct (shr_m r2) as [| m2 | m2]; [reflexivity | | reflexivity].
    destruct (Z.leb_spec e2 (emax - prec)) as [L | L]; [| reflexivity].
    cbn [valid_binary]. unfold bounded, canonical_mantissa.
    cbn [Zdigits2] in H2b. rewrite H2b, Z.eqb_refl.
    apply Z.leb_le in L. rewrite L. reflexivity.
Qed.

Lemma digits_mul_ge (a b : positive) :
  Zpos (digits2_pos a) + Zpos (digits2_pos b) - 1 <= Zpos (digits2_pos (a * b)).
Proof.
  pose proof (digits2_pos_bounds a) as [Ha _].
  pose proof (digits2_pos_bounds b) as [Hb _].
  pose proof (digits2_pos_bounds (a * b)) as [_ Hab].
  set (da := Zpos (digits2_pos a)) in *. set (db := Zpos (digits2_pos b)) in *.
  set (dab := Zpos (digits2_pos (a * b))) in *.
  assert (0 < da /\ 0 < db /\ 0 < dab) as (Pa & Pb & Pab) by (unfold da, db, dab; lia).
  destruct (Z.le_gt_cases (da + db - 1) dab) as [L | G]; [exact L |]. exfalso.
  assert (H1 : 2 ^ dab <= 2 ^ ((da - 1) + (db - 1))) by (apply Z.pow_le_mono_r; lia).
  rewrite Z.pow_add_r in H1 by lia.
  rewrite Pos2Z.inj_mul in Hab.
  assert (0 < 2 ^ (da - 1)) by (apply Z.pow_pos_nonneg; lia).
  assert (0 < 2 ^ (db - 1)) by (apply Z.pow_pos_nonneg; lia).
  nia.
Qed.

(** The product of any number with a normal one is a valid number. *)
Lemma mul_normal_valid (x : number) (s : bool) (m : positive) (e : Z) :
  Zpos (digits2_pos m) = 53 ->
  valid_binary prec emax (mul x (S754_finite s m e)) = true.
Proof.
  intros Hd. unfold mul.
  destruct x as [sx | sx | | sx mx ex]; try reflexivity.
  cbn [SFmul]. apply round_aux_valid.
  pose proof (digits_mul_ge mx m) as H. rewrite Hd in H.
  unfold fexp, emin, prec, emax. lia.
Qed.

Lemma ten_pow_18_normal :
  ten_pow_18 = S754_finite false 7812500000000000 7.
Proof. vm_compute. reflexivity. Qed.

Lemma product_valid (x : number) : valid_binary prec emax (mul x ten_pow_18) = true.
Proof.
  rewrite ten_pow_18_normal. apply mul_normal_valid. vm_compute. reflexivity.
Qed.

End Rounding.

(** ** Floors taken by the amount converters *)

Section Floors.

Import AmountUtils.

Lemma exact_den_pos (y : number) (p q : Z) : exact y = Some (p, q) -> 0 < q.
Proof.
  destruct y as [s | s | | s m e]; simpl; try discriminate.
  - intros H. injection H as <- <-. lia.
  - destruct (Z.leb_spec 0 e) as [L | L]; intros H; injection H as <- <-; [lia |].
    apply Z.pow_pos_nonneg; lia.
Qed.

(** The integer [floorZ] computes is the floor of the value. *)
Lemma floorZ_value (y : number) (v : Q) :
  value y = Some v ->
  exists z : Z, floorZ y = Some z /\ (inject_Z z <= v)%Q /\ (v < inject_Z (z + 1))%Q.
Proof.
  unfold value, floorZ. destruct (exact y) as [[p q] |] eqn:E; [| discriminate].
  intros H. injection H as <-.
  pose proof (exact_den_pos y p q E) as Hq.
  exists (p / q). split; [reflexivity |].
  unfold Qle, Qlt, inject_Z. cbn [Qnum Qden].
  rewrite Z2Pos.id by exact Hq.
  pose proof (Z.mul_div_le p q Hq).
  pose proof (Z.mul_succ_div_gt p q Hq).
  split; lia.
Qed.

Lemma value_none (y : number) : value y = None -> floorZ y = None.
Proof.
  unfold value, floorZ. destruct (exact y) as [[p q] |]; [discriminate | reflexivity].
Qed.

Lemma BigInt_of_floor (y : number) :
  valid_binary prec emax y = true ->
  BigInt_of_number (Math_floor y) =
  match floorZ y with Some z => Ok z | None => Throw RangeError end.
Proof.
  intros Hv. destruct (floorZ y) as [z |] eqn:Hz.
  - destruct (Math_floor_integral y z Hv Hz) as [Hi Hf].
    unfold BigInt_of_number. rewrite Hi, Hf. reflexivity.
  - destruct y as [s | s | | s m e]; try reflexivity.
    + discriminate.
    + unfold floorZ, exact in Hz. destruct (0 <=? e); discriminate.
Qed.

Lemma million_normal : million = S754_finite false 8589934592000000 (-33).
Proof. vm_compute. reflexivity. Qed.

Lemma drops_product_valid (x : number) :
  valid_binary prec emax (mul x million) = true.
Proof.
  rewrite million_normal. apply mul_normal_valid. vm_compute. reflexivity.
Qed.

(** C2. Both converters floor the binary64 product, not the exact one: the
    amount is parsed to a number, multiplied by the scale in binary64, and
    the integer below that product is returned.  [ethToWei] writes that
    integer in full decimal digits and throws a RangeError when the product
    is NaN or infinite; [xrpToDrops] prints the number that is exactly that
    integer, and prints the product itself when it is NaN or infinite. *)
Theorem to_smallest_unit_floors_the_double_product (amount : string + number) :
  match value (mul (match amount with inl s => parseFloat s | inr n => n end)
                   ten_pow_18) with
  | Some v =>
      exists z : Z,
        (inject_Z z <= v)%Q /\ (v < inject_Z (z + 1))%Q /\
        ethToWei amount = Ok (Z_to_string z)
  | None => ethToWei amount = Throw RangeError
  end /\
  match value (mul (match amount with inl s => parseFloat s | inr n => n end)
                   million) with
  | Some v =>
      exists z : Z,
        (inject_Z z <= v)%Q /\ (v < inject_Z (z + 1))%Q /\
        floorZ (of_Z z) = Some z /\ Number_isInteger (of_Z z) = true /\
        xrpToDrops amount = Number_toString (of_Z z)
  | None =>
      xrpToDrops amount
      = Number_toString
          (mul (match amount with inl s => parseFloat s | inr n => n end) million)
  end.
Proof.
  split.
  - unfold ethToWei.
    set (y := mul (match amount with inl s => parseFloat s | inr n => n end)
                ten_pow_18).
    rewrite (BigInt_of_floor y (product_valid _)).
    destruct (value y) as [v |] eqn:E.
    + destruct (floorZ_value y v E) as (z & -> & H1 & H2).
      exists z. split; [exact H1 |]. split; [exact H2 | reflexivity].
    + rewrite (value_none y E). reflexivity.
  - unfold xrpToDrops.
    set (y := mul (match amount with inl s => parseFloat s | inr n => n end)
                million).
    pose proof (drops_product_valid
                  (match amount with inl s => parseFloat s | inr n => n end)) as Hv.
    fold y in Hv.
    destruct (value y) as [v |] eqn:E.
    + destruct (floorZ_value y v E) as (z & Hz & H1 & H2).
      exists z. split; [exact H1 |]. split; [exact H2 |].
      destruct (Math_floor_integral y z Hv Hz) as [Hi Hf].
      destruct y as [s | s | | s m e]; try discriminate E.
      * unfold floorZ, exact in Hz. injection Hz as <-.
        split; [reflexivity |]. split; reflexivity.
      * unfold Math_floor in Hi, Hf |- *. rewrite Hz in Hi, Hf |- *.
        split; [exact Hf |]. split; [exact Hi | reflexivity].
    + destruct y as [s | s | | s m e]; try reflexivity.
      unfold value, exact in E. destruct (0 <=? e); discriminate E.
Qed.

(** The statement of the specification fails: the exact product of 1.1 and 10^18
    is 1100000000000000000, and [ethToWei] returns a greater integer; the exact
    product of 1.005 and 10^6 is 1005000, and [xrpToDrops] returns one drop
    less. *)
Lemma exact_floor_counterexample :
  ethToWei (inl "1.1") = Ok "1100000000000000128" /\
  ((11 # 10) * inject_Z (10 ^ 18) < inject_Z 1100000000000000128)%Q /\
  xrpToDrops (inl "1.005") = "1004999" /\
  (inject_Z (1004999 + 1) <= (1005 # 1000) * inject_Z (10 ^ 6))%Q.
Proof.
  split; [vm_compute; reflexivity |].
  split; [reflexivity |].
  split; [vm_compute; reflexivity |].
  discriminate.
Qed.

(** X22. [ethToWei] returns the floor of the binary64 product of its amount
    with [1e18], written out in full decimal digits; it throws a RangeError
    exactly when that product is NaN or an infinity, so an unparseable text
    is an exception here, not a printed NaN. *)
Theorem ethToWei_is_floor_of_product (eth : string + number) :
  match value (mul (match eth with inl s => parseFloat s | inr n => n end) ten_pow_18) with
  | Some v =>
      exists z : Z,
        (inject_Z z <= v)%Q /\ (v < inject_Z (z + 1))%Q /\
        ethToWei eth = Ok (Z_to_string z)
  | None => ethToWei eth = Throw RangeError
  end.
Proof.
  unfold ethToWei.
  set (y := mul (match eth with inl s => parseFloat s | inr n => n end) ten_pow_18).
  rewrite (BigInt_of_floor y (product_valid _)).
  destruct (value y) as [v |] eqn:E.
  - destruct (floorZ_value y v E) as (z & -> & H1 & H2).
    exists z. split; [exact H1 |]. split; [exact H2 | reflexivity].
  - rewrite (value_none y E). reflexivity.
Qed.

(** X23. Given a number, [dropsToXrp] first floors it: fractions of a drop
    are discarded towards minus infinity before the division by one
    million, and NaN and the infinities throw a RangeError. *)
Theorem dropsToXrp_floors_numbers (n : number) :
  valid_binary prec emax n = true ->
  match value n with
  | Some v =>
      exists z : Z,
        (inject_Z z <= v)%Q /\ (v < inject_Z (z + 1))%Q /\
        dropsToXrp (inr n) = Ok (Number_toString (div (of_Z z) million))
  | None => dropsToXrp (inr n) = Throw RangeError
  end.
Proof.
  intros Hv. unfold dropsToXrp. rewrite (BigInt_of_floor n Hv).
  destruct (value n) as [v |] eqn:E.
  - destruct (floorZ_value n v E) as (z & -> & H1 & H2).
    exists z. split; [exact H1 |]. split; [exact H2 | reflexivity].
  - rewrite (value_none n E). reflexivity.
Qed.

Lemma dropsToXrp_floors_numbers_witness :
  exists z : Z,
    (inject_Z z <= 5629499534213120 # 2251799813685248)%Q /\
    (5629499534213120 # 2251799813685248 < inject_Z (z + 1))%Q /\
    dropsToXrp (inr (parseFloat "2.5")) =
    Ok (Number_toString (div (of_Z z) million)).
Proof.
  exact (dropsToXrp_floors_numbers (parseFloat "2.5") eq_refl).
Defined.

End Floors.

(** ** Generated destination tags *)

Section GeneratedTag.

(** Rounding a positive quantity below [4294967295] gives a number whose
    floor is an integer from 0 to 4294967295. *)
Lemma round_aux_below (M : positive) (e : Z) :
  e <= -21 -> Zpos M < 4294967295 * 2 ^ (- e) ->
  let y := binary_round_aux prec emax false (Zpos M) e loc_Exact in
  (y = S754_zero false \/ exists m2 e2, y = S754_finite false m2 e2) /\
  exists z : Z, floorZ y = Some z /\ 0 <= z <= 4294967295.
Proof.
  intros He Hlt. cbv zeta. unfold binary_round_aux.
  pose proof (shr_fexp_lt 4294967295 (Zpos M) e loc_Exact) as H1.
  destruct (shr_fexp prec emax (Zpos M) e loc_Exact) as [r1 e1].
  cbn [fst snd] in H1.
  destruct H1 as (H1a & H1b & H1c); [lia | exact He | lia | exact Hlt |].
  pose proof (round_nearest_even_bounds (shr_m r1) (loc_of_shr_record r1)) as Hr.
  set (m1 := round_nearest_even (shr_m r1) (loc_of_shr_record r1)) in *.
  pose proof (shr_fexp_lt (2 ^ 32) m1 e1 loc_Exact) as H2.
  destruct (shr_fexp prec emax m1 e1 loc_Exact) as [r2 e2].
  cbn [fst snd] in H2.
  assert (Hp : 0 < 2 ^ (- e1)) by (apply Z.pow_pos_nonneg; lia).
  destruct H2 as (H2a & H2b & H2c); [lia | exact H1b | lia | |].
  { change (2 ^ 32) with (4294967295 + 1). lia. }
  destruct (shr_m r2) as [| m2 | m2].
  - split; [left; reflexivity |]. exists 0. split; [reflexivity | lia].
  - unfold emax, prec.
    destruct (Z.leb_spec e2 (1024 - 53)) as [L | L]; [| lia].
    split; [right; exists m2, e2; reflexivity |].
    exists (Zpos m2 / 2 ^ (- e2)).
    unfold floorZ, exact, signed.
    destruct (Z.leb_spec 0 e2) as [L' | L']; [lia |].
    split; [reflexivity |].
    assert (Hq : 0 < 2 ^ (- e2)) by (apply Z.pow_pos_nonneg; lia).
    split; [apply Z.div_pos; lia |].
    assert (Zpos m2 / 2 ^ (- e2) < 2 ^ 32); [| lia].
    apply Z.div_lt_upper_bound; [exact Hq |]. lia.
  - lia.
Qed.

Lemma validate_of_Z (z : Z) :
  0 <= z <= 4294967295 -> PaymentUtils.validateDestinationTag (of_Z z) = true.
Proof.
  intros Hz. destruct z as [| p | p]; [reflexivity | | lia].
  unfold of_Z, binary_normalize.
  destruct (round_small false p) as (m & e & -> & He & Hm & Hd).
  { apply digits_le_53. lia. }
  apply validate_finite.
  pose proof (digits2_pos_bounds m) as [Hlo _]. rewrite Hd in Hlo.
  change (2 ^ (53 - 1)) with 4503599627370496 in Hlo.
  assert (He' : e <= -21).
  { destruct (Z.le_gt_cases e (-21)) as [L | G]; [exact L |]. exfalso.
    assert (2 ^ (- e) <= 2 ^ 20) by (apply Z.pow_le_mono_r; lia).
    change (2 ^ 20) with 1048576 in *. nia. }
  split; [lia |]. split.
  - rewrite Hm. apply Z.mod_mul. apply Z.pow_nonzero; lia.
  - destruct (Z.eq_dec e (-21)) as [-> | N]; [right | left; lia].
    split; [reflexivity |]. change (2 ^ (- -21)) with 2097152 in Hm. lia.
Qed.

Lemma of_Z_one : of_Z 1 = S754_finite false 4503599627370496 (-52).
Proof. vm_compute. reflexivity. Qed.

Lemma validate_zero (s : bool) : PaymentUtils.validateDestinationTag (S754_zero s) = true.
Proof. destruct s; vm_compute; reflexivity. Qed.

(** A valid number below 1 has an exponent below [-52]. *)
Lemma below_one_exponent (m : positive) (e : Z) :
  valid_binary prec emax (S754_finite false m e) = true ->
  lt (S754_finite false m e) (of_Z 1) = true -> e < -52.
Proof.
  intros Hv H1.
  pose proof (valid_finite false m e Hv) as (Hm & He & Hn).
  rewrite of_Z_one in H1.
  unfold lt, SFltb, SFcompare in H1.
  destruct (Z.compare_spec e (-52)) as [E | E | E]; [| exact E | discriminate].
  exfalso. subst e.
  assert (H52 : 2 ^ 52 <= Zpos m) by (apply Hn; lia).
  destruct (Pos.compare_cont Eq m 4503599627370496) eqn:C; try discriminate.
  assert (C' : Zpos m < 4503599627370496) by exact C.
  assert (P : 2 ^ 52 = 4503599627370496) by reflexivity.
  rewrite P in H52. clear - H52 C'. lia.
Qed.

Lemma product_below (m : positive) (e : Z) :
  Zpos m < 2 ^ 53 -> e < -52 ->
  Zpos (m * 9007199252643840) < 4294967295 * 2 ^ (- (e + -21)).
Proof.
  intros Hm He.
  replace (- (e + -21)) with (21 + ((- e - 53) + 53)) by lia.
  rewrite !Z.pow_add_r by lia.
  assert (Hp : 0 < 2 ^ (- e - 53)) by (apply Z.pow_pos_nonneg; lia).
  rewrite Pos2Z.inj_mul.
  assert (E : Zpos 9007199252643840 = 4294967295 * 2 ^ 21) by reflexivity.
  rewrite E. clear E.
  set (a := 2 ^ (- e - 53)) in *. set (b := 2 ^ 53) in *. set (c := 2 ^ 21).
  assert (0 < c) by (unfold c; apply Z.pow_pos_nonneg; lia).
  assert (Zpos m * 1 < a * b).
  { apply Z.le_lt_trans with (Zpos m * a); [nia |]. nia. }
  nia.
Qed.

(** X24. Every tag [generateDestinationTag] can produce passes
    [validateDestinationTag]: for each draw of [Math.random()], a number at
    or above 0 and below 1, the floored product with 4294967295 is an
    integer from 0 to 4294967295. *)
Theorem generated_tag_is_valid (r : number) :
  valid_binary prec emax r = true ->
  ge r (of_Z 0) = true -> lt r (of_Z 1) = true ->
  PaymentUtils.validateDestinationTag (PaymentUtils.generateDestinationTag r) = true.
Proof.
  intros Hv H0 H1. unfold PaymentUtils.generateDestinationTag.
  destruct r as [s | s | | s m e].
  - unfold mul. rewrite of_Z_max_tag. cbn [SFmul Math_floor]. apply validate_zero.
  - destruct s; discriminate.
  - discriminate.
  - destruct s; [discriminate |].
    pose proof (valid_finite false m e Hv) as (Hm & _ & _).
    pose proof (below_one_exponent m e Hv H1) as Hlt.
    unfold mul. rewrite of_Z_max_tag. cbn [SFmul xorb].
    destruct (round_aux_below (m * 9007199252643840) (e + -21)) as (Hy & z & Hz & Hb).
    { lia. }
    { apply product_below; assumption. }
    cbv zeta in Hy, Hz.
    destruct Hy as [Hy | (m2 & e2 & Hy)]; rewrite Hy in *.
    + apply validate_zero.
    + unfold Math_floor. rewrite Hz. apply validate_of_Z. exact Hb.
Qed.

Lemma generated_tag_is_valid_witness :
  PaymentUtils.validateDestinationTag
    (PaymentUtils.generateDestinationTag (parseFloat "0.75")) = true.
Proof.
  apply (generated_tag_is_valid (parseFloat "0.75")); vm_compute; reflexivity.
Defined.

End GeneratedTag.

(** ** Display amounts and the drops round trip *)

Section DisplayAmounts.

Import AmountUtils.

Lemma strip_decoration_app (a b : text) :
  strip_decoration (a ++ b)%list
  = (strip_decoration a ++ strip_decoration b)%list.
Proof.
  induction a as [| c a IH]; [reflexivity |].
  cbn [app strip_decoration].
  destruct (is_decoration c); [exact IH |].
  cbn [app]. rewrite IH. reflexivity.
Qed.

(** X25. [parseRlusdAmount] ignores every comma, white-space character and
    dollar sign, wherever it stands: inserting one anywhere in the text, a
    no-break space or any other character that [\s] matches included,
    changes neither the amount returned nor whether the call throws, so a
    decimal comma is read as a thousands separator. *)
Theorem parseRlusdAmount_ignores_decoration (a b : text) (c : Z) :
  c = 44 \/ c = 36 \/ In c white_space ->
  match parseRlusdAmount (a ++ c :: b)%list, parseRlusdAmount (a ++ b)%list with
  | Parsed x, Parsed y => x = y
  | Rejected _, Rejected _ => True
  | _, _ => False
  end.
Proof.
  intros Hc.
  assert (Hd : is_decoration c = true).
  { unfold is_decoration, is_white_space.
    destruct Hc as [-> | [-> | Hw]]; [reflexivity | reflexivity |].
    apply orb_true_iff. left. apply orb_true_iff. right.
    apply existsb_exists. exists c. split; [exact Hw | apply Z.eqb_refl]. }
  unfold parseRlusdAmount.
  rewrite !strip_decoration_app. cbn [strip_decoration]. rewrite Hd.
  destruct (isNaN (parseFloat_text (strip_decoration a ++ strip_decoration b)%list));
    [exact I | reflexivity].
Qed.

Lemma parseRlusdAmount_ignores_decoration_witness :
  match parseRlusdAmount ([49] ++ 0x00A0 :: [53])%list,
        parseRlusdAmount ([49] ++ [53])%list with
  | Parsed x, Parsed y => x = y
  | Rejected _, Rejected _ => True
  | _, _ => False
  end.
Proof.
  apply (parseRlusdAmount_ignores_decoration [49] [53] 0x00A0).
  right. right. simpl. tauto.
Defined.

(** C1. Converting a count of drops to XRP text and back is the identity
    for every count below 249, and the two examples of the specification hold: one
    million drops read as "1", and "1" reads as one million drops. *)
Theorem drops_round_trip (d : Z) :
  0 <= d < 249 ->
  (exists s : string,
      dropsToXrp (inl (Z_to_string d)) = Ok s /\
      xrpToDrops (inl s) = Z_to_string d) /\
  dropsToXrp (inl "1000000") = Ok "1" /\
  xrpToDrops (inl "1") = "1000000".
Proof.
  intros Hd.
  split; [| split; vm_compute; reflexivity].
  pose (exact_at := fun d : Z =>
    match dropsToXrp (inl (Z_to_string d)) with
    | Ok s => String.eqb (xrpToDrops (inl s)) (Z_to_string d)
    | Throw _ => false
    end).
  assert (Hall : forallb exact_at (map Z.of_nat (seq 0 249)) = true)
    by (vm_compute; reflexivity).
  rewrite forallb_forall in Hall.
  assert (Hin : In d (map Z.of_nat (seq 0 249))).
  { apply in_map_iff. exists (Z.to_nat d). split; [lia |].
    apply in_seq. lia. }
  specialize (Hall d Hin). unfold exact_at in Hall.
  destruct (dropsToXrp (inl (Z_to_string d))) as [s | err]; [| discriminate].
  exists s. split; [reflexivity |].
  apply String.eqb_eq. exact Hall.
Qed.

Lemma drops_round_trip_witness :
  (exists s : string,
      dropsToXrp (inl (Z_to_string 248)) = Ok s /\
      xrpToDrops (inl s) = Z_to_string 248) /\
  dropsToXrp (inl "1000000") = Ok "1" /\
  xrpToDrops (inl "1") = "1000000".
Proof.
  apply (drops_round_trip 248). lia.
Defined.

(** The statement of the specification fails at 249 drops: they read as
    "0.000249", which reads back as 248 drops. *)
Lemma drops_round_trip_counterexample :
  dropsToXrp (inl "249") = Ok "0.000249" /\
  xrpToDrops (inl "0.000249") = "248".
Proof. split; vm_compute; reflexivity. Qed.

(** X26. Converting a count of drops to XRP text and back: for every count
    below 1000 the round trip returns the count itself or one drop less; it
    is exact for every count below 249, and 249 drops come back as 248. *)
Theorem drops_round_trip_below_1000 (d : Z) :
  0 <= d < 1000 ->
  exists s : string,
    dropsToXrp (inl (Z_to_string d)) = Ok s /\
    (xrpToDrops (inl s) = Z_to_string d \/ xrpToDrops (inl s) = Z_to_string (d - 1)) /\
    (d < 249 -> xrpToDrops (inl s) = Z_to_string d) /\
    (d = 249 -> xrpToDrops (inl s) = "248").
Proof.
  intros Hd.
  pose (near := fun d : Z =>
    match dropsToXrp (inl (Z_to_string d)) with
    | Ok s =>
        let back := xrpToDrops (inl s) in
        if d <? 249 then String.eqb back (Z_to_string d)
        else if d =? 249 then String.eqb back "248"
        else String.eqb back (Z_to_string d) || String.eqb back (Z_to_string (d - 1))
    | Throw _ => false
    end).
  assert (Hall : forallb near (map Z.of_nat (seq 0 1000)) = true)
    by (vm_compute; reflexivity).
  rewrite forallb_forall in Hall.
  assert (Hin : In d (map Z.of_nat (seq 0 1000))).
  { apply in_map_iff. exists (Z.to_nat d). split; [lia |].
    apply in_seq. lia. }
  specialize (Hall d Hin). unfold near in Hall.
  destruct (dropsToXrp (inl (Z_to_string d))) as [s | err]; [| discriminate].
  exists s. split; [reflexivity |].
  destruct (Z.ltb_spec d 249) as [L | L].
  - apply String.eqb_eq in Hall. repeat split; [left; exact Hall | intros _; exact Hall | lia].
  - destruct (Z.eqb_spec d 249) as [E | E].
    + apply String.eqb_eq in Hall. subst d.
      repeat split; [right; exact Hall | lia | intros _; exact Hall].
    + apply orb_true_iff in Hall.
      repeat split; [| lia | lia].
      destruct Hall as [H | H]; apply String.eqb_eq in H; [left | right]; exact H.
Qed.


Lemma drops_round_trip_below_1000_witness :
  exists s : string,
    dropsToXrp (inl (Z_to_string 57)) = Ok s /\
    (xrpToDrops (inl s) = Z_to_string 57 \/ xrpToDrops (inl s) = Z_to_string (57 - 1)) /\
    (57 < 249 -> xrpToDrops (inl s) = Z_to_string 57) /\
    (57 = 249 -> xrpToDrops (inl s) = "248").
Proof.
  apply (drops_round_trip_below_1000 57). lia.
Defined.

End DisplayAmounts.

(** ** Prices and currency pairs *)

Section Prices.

Lemma SFadd_comm (x y : number) : add x y = add y x.
Proof.
  unfold add.
  destruct x as [[|] | [|] | | sx mx ex], y as [[|] | [|] | | sy my ey];
    try reflexivity.
  cbn [SFadd]. rewrite (Z.min_comm ey ex). f_equal. apply Z.add_comm.
Qed.

(** X27. The mid price does not depend on which of the two prices is passed
    as the bid and which as the ask. *)
Theorem calculateMidPrice_symmetric (a b : string) :
  DexUtils.calculateMidPrice a b = DexUtils.calculateMidPrice b a.
Proof.
  unfold DexUtils.calculateMidPrice. rewrite SFadd_comm. reflexivity.
Qed.

(** X28. [isCrossCurrencyPayment] answers no exactly when the two currency
    codes are equal and either the code is XRP, whatever issuers are
    given, or the two issuers are equal, both absent included. *)
Theorem isCrossCurrencyPayment_iff (sc dc : string) (si di : option string) :
  PaymentUtils.isCrossCurrencyPayment sc si dc di = false <->
  sc = dc /\ (sc = "XRP" \/ si = di).
Proof.
  unfold PaymentUtils.isCrossCurrencyPayment.
  destruct (String.eqb_spec sc dc) as [E | E]; cbn [negb].
  - destruct (String.eqb_spec sc "XRP") as [X | X].
    + split; [intros _; split; [exact E | left; exact X] | reflexivity].
    + destruct si as [a |], di as [b |].
      * destruct (String.eqb_spec a b) as [I | I]; cbn [negb].
        -- split; [intros _; split; [exact E | right; congruence] | reflexivity].
        -- split; [discriminate |]. intros [_ [H | H]]; [contradiction | congruence].
      * split; [discriminate |]. intros [_ [H | H]]; [contradiction | discriminate].
      * split; [discriminate |]. intros [_ [H | H]]; [contradiction | discriminate].
      * split; [intros _; split; [exact E | right; reflexivity] | reflexivity].
  - split; [discriminate |]. intros [H _]. contradiction.
Qed.

End Prices.
